(** * cba-chatbot: a shallow embedding of the RAG pipeline

    Embedded sources:
    - [backend/app/main.py]        (module [Main]): retrieval and generation service
    - [scripts/crawl_site_text.py] (module [CrawlSiteText]): page-text crawler
    - [scripts/download_pdfs.py]   (modules [DownloadPdfs], [PdfDiscovery]): PDF
      acquisition, link discovery and the main loop
    - [scripts/embed.py]           (module [Embed]): loader, chunker, index build

    Library code the programs rest on is modelled where a statement needs
    it to run: [hashlib.sha256] ([Sha256]), [urllib.parse.urlparse]
    ([Urllib]), langchain's [RecursiveCharacterTextSplitter]
    ([TextSplitter]) and its [FAISS] store ([LangChain.faiss_model]).

    The file has three parts: the definitions, module by module; the
    facts about them ([...Facts]); the runs on concrete inputs ([...Runs]).

    Conventions.
    - A Python [str] is represented by the bytes of its UTF-8 encoding, as a
      Rocq [string]; [s.encode()] is therefore the identity.  [lower],
      [strip] and [len] are the ASCII restrictions of the Python methods:
      they agree with Python on every text whose non-ASCII characters are
      neither cased nor white space.
    - A function that can raise returns [result A = exn + A]; [inl e] is a
      raised exception.  Module-level globals are fields of an explicit state
      record that is threaded through the calls.  [print] and the logging
      calls below the ERROR level are not modelled.
    - Third-party capabilities (the embedding model, FAISS, the Groq client,
      the HTTP session, the PDF and HTML parsers) are [Variable]s of the
      enclosing [Section] or fields of a class; the theorems hold for every
      behaviour of theirs.
    - [main.py] is not accepted by the Python compiler as it stands: line
      73, in [get_embeddings], is indented deeper than line 72 although that
      line opens no block, and line 83, in [get_vectorstore], is not indented
      under the [if] of line 82.  The text of these two functions is
      therefore not embedded.  The other functions of the file are embedded
      from their text, which is intact; [chat], which calls
      [get_vectorstore()], takes that call as a parameter. *)

From Stdlib Require Import ZArith List Ascii String Bool Lia.
From stdpp Require Import gmap strings list.

Local Open Scope string_scope.

(* ===================================================================== *)
(** * Exceptions and fallible computations *)
(* ===================================================================== *)

Inductive exn : Type :=
| RuntimeError (msg : string)
| AttributeError (msg : string)
| IndexError (msg : string)
| ValueError (msg : string)
| OSError (msg : string)
| OtherException (msg : string).

Definition result (A : Type) : Type := (exn + A)%type.

Definition ret {A} (a : A) : result A := inr a.
Definition raise {A} (e : exn) : result A := inl e.
Definition bind {A B} (m : result A) (k : A -> result B) : result B :=
  match m with
  | inl e => inl e
  | inr a => k a
  end.

Notation "x <-! m ;; k" := (bind m (fun x => k))
  (at level 100, m at next level, right associativity).

(* ===================================================================== *)
(** * Python string methods *)
(* ===================================================================== *)

Module PyStr.

Definition nl : ascii := ascii_of_nat 10.
Definition NL : string := String nl "".

(** [c.isspace()] on ASCII: TAB..CR, FS..US and the blank. *)
Definition isspace (c : ascii) : bool :=
  let n := nat_of_ascii c in
  ((9 <=? n)%nat && (n <=? 13)%nat) || ((28 <=? n)%nat && (n <=? 32)%nat).

Definition lower_char (c : ascii) : ascii :=
  let n := nat_of_ascii c in
  if ((65 <=? n)%nat && (n <=? 90)%nat) then ascii_of_nat (n + 32) else c.

(** [s.lower()] *)
Fixpoint lower (s : string) : string :=
  match s with
  | EmptyString => EmptyString
  | String c s' => String (lower_char c) (lower s')
  end.

(** [s.lstrip()] *)
Fixpoint lstrip (s : string) : string :=
  match s with
  | EmptyString => EmptyString
  | String c s' => if isspace c then lstrip s' else s
  end.

(** [s.rstrip()] *)
Fixpoint rstrip (s : string) : string :=
  match s with
  | EmptyString => EmptyString
  | String c s' =>
      match rstrip s' with
      | EmptyString => if isspace c then EmptyString else String c EmptyString
      | r => String c r
      end
  end.

(** [s.strip()] *)
Definition strip (s : string) : string := rstrip (lstrip s).

(** [bool(s)]: a string is truthy when it is not empty. *)
Definition truthy (s : string) : bool :=
  match s with
  | EmptyString => false
  | String _ _ => true
  end.

(** [s.startswith(p)] *)
Fixpoint startswith (p s : string) : bool :=
  match p, s with
  | EmptyString, _ => true
  | String _ _, EmptyString => false
  | String a p', String b s' => if Ascii.eqb a b then startswith p' s' else false
  end.

(** [sub in s] *)
Fixpoint contains (sub s : string) : bool :=
  startswith sub s ||
  match s with
  | EmptyString => false
  | String _ s' => contains sub s'
  end.

(** [s[:n]] *)
Fixpoint take (n : nat) (s : string) : string :=
  match n, s with
  | O, _ => EmptyString
  | S _, EmptyString => EmptyString
  | S n', String c s' => String c (take n' s')
  end.

(** [s[n:]] *)
Fixpoint drop (n : nat) (s : string) : string :=
  match n, s with
  | O, _ => s
  | S _, EmptyString => EmptyString
  | S n', String _ s' => drop n' s'
  end.

(** [s.endswith(p)] *)
Definition endswith (p s : string) : bool :=
  (String.length p <=? String.length s)%nat &&
  String.eqb (drop (String.length s - String.length p) s) p.

(** [s.split(c)] for a one-character separator: never the empty list. *)
Fixpoint split_char (sep : ascii) (s : string) : list string :=
  match s with
  | EmptyString => [EmptyString]
  | String c s' =>
      if Ascii.eqb c sep then EmptyString :: split_char sep s'
      else
        match split_char sep s' with
        | h :: t => String c h :: t
        | [] => [String c EmptyString]
        end
  end.

(** [sep.join(l)] *)
Fixpoint join (sep : string) (l : list string) : string :=
  match l with
  | [] => EmptyString
  | [x] => x
  | x :: tl => x ++ sep ++ join sep tl
  end.

(** [s.replace(old, new)]: left to right, occurrences do not overlap.
    [skip] counts the characters of a matched occurrence still to drop. *)
Fixpoint replace_from (old new : string) (skip : nat) (s : string) : string :=
  match s with
  | EmptyString => EmptyString
  | String c s' =>
      match skip with
      | S k => replace_from old new k s'
      | O =>
          if startswith old s
          then new ++ replace_from old new (String.length old - 1) s'
          else String c (replace_from old new O s')
      end
  end.

Definition replace (old new s : string) : string :=
  match old with
  | EmptyString =>
      (* an empty pattern matches before every character and at the end *)
      new ++ String.concat new (map (fun c => String c EmptyString) (list_ascii_of_string s))
          ++ (if truthy s then new else EmptyString)
  | String _ _ => replace_from old new O s
  end.

(** [any(f(x) for x in l)] for a test that cannot raise. *)
Definition any {A} (f : A -> bool) (l : list A) : bool := existsb f l.

End PyStr.

(* ===================================================================== *)
(** * Python text files *)
(* ===================================================================== *)

Module PyFile.
Import PyStr.

Definition cr : ascii := ascii_of_nat 13.

(** What [f.read()] returns for a file opened in text mode with the default
    [newline=None] when the file holds [s]: each of the line endings
    [\r\n], [\r] and [\n] reads as [\n].  On a POSIX system
    [f.write(s)] in text mode stores [s] as it is, so this is also what is
    read back of a text written as [s]. *)
Fixpoint read_text (s : string) : string :=
  match s with
  | EmptyString => EmptyString
  | String c s' =>
      if Ascii.eqb c cr then
        match s' with
        | String c' s'' =>
            if Ascii.eqb c' nl then String nl (read_text s'')
            else String nl (read_text s')
        | EmptyString => String nl EmptyString
        end
      else String c (read_text s')
  end.

End PyFile.

(* ===================================================================== *)
(** * hashlib.sha256 *)
(* ===================================================================== *)

Module Sha256.
Local Open Scope Z_scope.

Definition mask32 : Z := 0xffffffff.
Definition w32 (x : Z) : Z := Z.land x mask32.
Definition add32 (x y : Z) : Z := w32 (x + y).
Definition rotr (n x : Z) : Z := w32 (Z.lor (Z.shiftr x n) (Z.shiftl x (32 - n))).
Definition xor3 (x y z : Z) : Z := Z.lxor (Z.lxor x y) z.

Definition Ch (x y z : Z) : Z := Z.lxor (Z.land x y) (Z.land (Z.lxor x mask32) z).
Definition Maj (x y z : Z) : Z := xor3 (Z.land x y) (Z.land x z) (Z.land y z).
Definition Sigma0 (x : Z) : Z := xor3 (rotr 2 x) (rotr 13 x) (rotr 22 x).
Definition Sigma1 (x : Z) : Z := xor3 (rotr 6 x) (rotr 11 x) (rotr 25 x).
Definition sigma0 (x : Z) : Z := xor3 (rotr 7 x) (rotr 18 x) (Z.shiftr x 3).
Definition sigma1 (x : Z) : Z := xor3 (rotr 17 x) (rotr 19 x) (Z.shiftr x 10).

(** The primes below [n], by trial division. *)
Definition is_prime (n : Z) : bool :=
  (1 <? n) && forallb (fun d => negb (n mod d =? 0))
                      (map Z.of_nat (seq 2 (Z.to_nat (Z.sqrt n) - 1))).

Definition primes_below (n : nat) : list Z :=
  filter (fun p => is_prime p = true) (map Z.of_nat (seq 0 n)).

(** The integer cube root, one bit at a time from bit [bits - 1] down. *)
Fixpoint cube_root_bits (bits : nat) (n r : Z) : Z :=
  match bits with
  | O => r
  | S b =>
      let r' := r + Z.shiftl 1 (Z.of_nat b) in
      cube_root_bits b n (if r' * r' * r' <=? n then r' else r)
  end.

Definition cube_root (n : Z) : Z := cube_root_bits 40 n 0.

(** The round constants: the first 32 bits of the fractional parts of the
    cube roots of the first 64 primes. *)
Definition K : list Z :=
  Eval vm_compute in
    map (fun p => w32 (cube_root (Z.shiftl p 96))) (primes_below 312).

(** The initial hash value: the first 32 bits of the fractional parts of
    the square roots of the first 8 primes. *)
Definition H0 : list Z :=
  Eval vm_compute in
    map (fun p => w32 (Z.sqrt (Z.shiftl p 64))) (primes_below 20).

Definition bytes_of (s : string) : list Z :=
  map (fun c => Z.of_N (N_of_ascii c)) (list_ascii_of_string s).

(** The message followed by 0x80, zero bytes up to 56 modulo 64, and the
    bit length on eight bytes, most significant first. *)
Definition pad (msg : list Z) : list Z :=
  let len := Z.of_nat (length msg) in
  let zeros := Z.to_nat ((55 - len) mod 64) in
  let bits := 8 * len in
  msg ++ [0x80] ++ repeat 0 zeros
      ++ map (fun i => Z.land (Z.shiftr bits (8 * i)) 0xff) [7; 6; 5; 4; 3; 2; 1; 0].

(** Big-endian 32-bit words of a byte sequence. *)
Fixpoint words (bytes : list Z) : list Z :=
  match bytes with
  | a :: b :: c :: d :: rest =>
      (Z.shiftl a 24 + Z.shiftl b 16 + Z.shiftl c 8 + d) :: words rest
  | _ => []
  end.

(** Blocks of sixteen words. *)
Fixpoint blocks (fuel : nat) (ws : list Z) : list (list Z) :=
  match fuel, ws with
  | S fuel', _ :: _ => firstn 16 ws :: blocks fuel' (skipn 16 ws)
  | _, _ => []
  end.

(** The message schedule, latest word first; [n] more words are added. *)
Fixpoint extend (n : nat) (rev_w : list Z) : list Z :=
  match n with
  | O => rev_w
  | S n' =>
      let at_ i := nth i rev_w 0 in
      let w := add32 (add32 (sigma1 (at_ 1%nat)) (at_ 6%nat))
                     (add32 (sigma0 (at_ 14%nat)) (at_ 15%nat)) in
      extend n' (w :: rev_w)
  end.

Definition schedule (block : list Z) : list Z := rev (extend 48 (rev block)).

Definition round (st : list Z) (kw : Z * Z) : list Z :=
  match st with
  | [a; b; c; d; e; f; g; h] =>
      let t1 := add32 (add32 (add32 h (Sigma1 e)) (add32 (Ch e f g) (fst kw))) (snd kw) in
      let t2 := add32 (Sigma0 a) (Maj a b c) in
      [add32 t1 t2; a; b; c; add32 d t1; e; f; g]
  | _ => st
  end.

Definition compress (h : list Z) (block : list Z) : list Z :=
  zip_with add32 h (fold_left round (zip K (schedule block)) h).

Definition digest (msg : list Z) : list Z :=
  let ws := words (pad msg) in
  fold_left compress (blocks (length ws) ws) H0.

Definition hex_digit (d : Z) : ascii :=
  if d <? 10 then ascii_of_N (Z.to_N (48 + d)) else ascii_of_N (Z.to_N (87 + d)).

Definition hex_word (w : Z) : string :=
  string_of_list_ascii
    (map (fun i => hex_digit (Z.land (Z.shiftr w (4 * i)) 0xf)) [7; 6; 5; 4; 3; 2; 1; 0]).

(** [hashlib.sha256(b).hexdigest()] *)
Definition hexdigest (b : string) : string :=
  String.concat "" (map hex_word (digest (bytes_of b))).

End Sha256.

(* ===================================================================== *)
(** * urllib.parse.urlparse *)
(* ===================================================================== *)

Module Urllib.
Import PyStr.

(** [s.partition(c)]: the text before the first [c], whether [c] occurs,
    and the text after it. *)
Fixpoint partition (c : ascii) (s : string) : string * bool * string :=
  match s with
  | EmptyString => (EmptyString, false, EmptyString)
  | String a s' =>
      if Ascii.eqb a c then (EmptyString, true, s')
      else let '(before, found, after) := partition c s' in
           (String a before, found, after)
  end.

Fixpoint rev_string (acc s : string) : string :=
  match s with
  | EmptyString => acc
  | String a s' => rev_string (String a acc) s'
  end.

(** [s.rpartition(c)]: when [c] does not occur the whole text comes last. *)
Definition rpartition (c : ascii) (s : string) : string * bool * string :=
  let '(after, found, before) := partition c (rev_string "" s) in
  if found then (rev_string "" before, true, rev_string "" after)
  else (EmptyString, false, s).

Fixpoint has_char (c : ascii) (s : string) : bool :=
  match s with
  | EmptyString => false
  | String a s' => Ascii.eqb a c || has_char c s'
  end.

Fixpoint all_chars (f : ascii -> bool) (s : string) : bool :=
  match s with
  | EmptyString => true
  | String a s' => f a && all_chars f s'
  end.

Definition is_alpha (c : ascii) : bool :=
  let n := nat_of_ascii c in
  ((65 <=? n)%nat && (n <=? 90)%nat) || ((97 <=? n)%nat && (n <=? 122)%nat).

Definition is_digit (c : ascii) : bool :=
  let n := nat_of_ascii c in (48 <=? n)%nat && (n <=? 57)%nat.

Definition scheme_char (c : ascii) : bool :=
  is_alpha c || is_digit c || has_char c "+-.".

Definition uses_params : list string :=
  [ ""; "ftp"; "hdl"; "prospero"; "http"; "imap"; "https"; "shttp"; "rtsp";
    "rtspu"; "sip"; "sips"; "mms"; "sftp"; "tel" ].

(** [url.lstrip(_WHATWG_C0_CONTROL_OR_SPACE)] *)
Fixpoint lstrip_c0 (s : string) : string :=
  match s with
  | EmptyString => EmptyString
  | String a s' => if (nat_of_ascii a <=? 32)%nat then lstrip_c0 s' else s
  end.

(** [_splitnetloc(url, 0)] on the text after the two slashes. *)
Fixpoint splitnetloc (s : string) : string * string :=
  match s with
  | EmptyString => (EmptyString, EmptyString)
  | String a s' =>
      if has_char a "/?#" then (EmptyString, s)
      else let '(netloc, rest) := splitnetloc s' in (String a netloc, rest)
  end.

Record ParseResult : Type := mkParseResult {
  scheme : string;
  netloc : string;
  path : string;
  params : string;
  query : string;
  fragment : string
}.

(** [_check_bracketed_netloc], without the syntax check of the address
    between the brackets. *)
Definition bracketed_netloc_ok (netloc : string) : bool :=
  let '(_, _, hostname_and_port) := rpartition "@" netloc in
  let '(before_bracket, have_open_br, bracketed) := partition "[" hostname_and_port in
  if have_open_br then
    let '(_, _, port) := partition "]" bracketed in
    negb (truthy before_bracket) && (negb (truthy port) || startswith ":" port)
  else true.

(** [_splitparams] *)
Definition splitparams (url : string) : string * string :=
  let '(dirs, has_slash, last) := rpartition "/" url in
  let '(name, has_semi, params) := partition ";" last in
  if has_semi
  then ((if has_slash then dirs ++ "/" ++ name else name), params)
  else (url, EmptyString).

(** [urlparse(url)] for a text whose authority is ASCII. *)
Definition urlparse (url : string) : result ParseResult :=
  let url := lstrip_c0 url in
  let url := replace NL "" (replace (String (ascii_of_nat 13) "") ""
                              (replace (String (ascii_of_nat 9) "") "" url)) in
  let '(head, has_colon, tail) := partition ":" url in
  let '(scheme, url) :=
    match head with
    | String a _ =>
        if has_colon && is_alpha a && all_chars scheme_char head
        then (lower head, tail) else (EmptyString, url)
    | EmptyString => (EmptyString, url)
    end in
  let '(netloc, url) :=
    if startswith "//" url then splitnetloc (drop 2 url) else (EmptyString, url) in
  if xorb (has_char "[" netloc) (has_char "]" netloc)
  then raise (ValueError "Invalid IPv6 URL")
  else if has_char "[" netloc && negb (bracketed_netloc_ok netloc)
  then raise (ValueError "Invalid IPv6 URL")
  else
    let '(url, _, fragment) := partition "#" url in
    let '(url, _, query) := partition "?" url in
    let '(url, params) :=
      if bool_decide (scheme ∈ uses_params) && has_char ";" url
      then splitparams url else (url, EmptyString) in
    ret (mkParseResult scheme netloc url params query fragment).

(** The [hostname] property; [None] is Python's [None]. *)
Definition hostname (p : ParseResult) : option string :=
  let '(_, _, hostinfo) := rpartition "@" (netloc p) in
  let '(_, have_open_br, bracketed) := partition "[" hostinfo in
  let host :=
    if have_open_br then fst (fst (partition "]" bracketed))
    else fst (fst (partition ":" hostinfo)) in
  if negb (truthy host) then None
  else
    let '(name, percent, zone) := partition "%" host in
    Some (lower name ++ (if percent then "%" else "") ++ zone).

End Urllib.

(* ===================================================================== *)
(** * The langchain objects shared by the two programs *)
(* ===================================================================== *)

Module LangChain.

(** Values of a metadata dictionary. *)
Inductive meta_value : Type :=
| MStr (s : string)
| MInt (n : Z).

(** [langchain_core.documents.Document] *)
Record Document : Type := mkDocument {
  page_content : string;
  metadata : gmap string meta_value
}.

(** [HuggingFaceEmbeddings]: the object is identified by its model name. *)
Record Embeddings : Type := mkEmbeddings { model_name : string }.

(** The [FAISS] vector store as the programs use it.  [SavedIndex] is what
    [save_local] leaves in the index folder; [load_local] receives [None]
    when the folder holds no index files. *)
Class FaissApi : Type := {
  VectorStore : Type;
  SavedIndex : Type;
  from_documents : list Document -> Embeddings -> result VectorStore;
  save_local : VectorStore -> SavedIndex;
  load_local : option SavedIndex -> Embeddings -> result VectorStore;
  similarity_search : VectorStore -> string -> nat -> result (list Document)
}.

(** The file system, seen through the paths the programs touch: the PDF and
    page-text corpora in glob order (file name, content), and the folders
    that may hold an index (a key is an existing folder). *)
Record Disk `{FaissApi} : Type := mkDisk {
  pdf_files : list (string * string);
  txt_files : list (string * string);
  index_dirs : gmap string (option SavedIndex)
}.

(** ** A model of [langchain_community.vectorstores.FAISS]

    The library over a flat L2 index, with vectors on the integer grid so
    that the programs can be run on concrete inputs.  [save_local] writes
    [index.faiss] (the vectors) and [index.pkl] (the documents, in index
    order); [load_local] reads the two files back and attaches the
    embeddings object it is given. *)

Section FaissModel.

(** [embed model text]: the vector the model of that name gives to a text. *)
Variable embed : string -> string -> list Z.

Record faiss_store : Type := mkStore {
  embedding_function : Embeddings;
  index : list (list Z);
  docstore : list Document
}.

Record faiss_files : Type := mkFiles {
  index_faiss : list (list Z);
  index_pkl : list Document
}.

(** Squared Euclidean distance. *)
Definition l2 (u v : list Z) : Z :=
  fold_right Z.add 0%Z (zip_with (fun a b => ((a - b) * (a - b))%Z) u v).

(** Stable insertion by increasing distance. *)
Fixpoint insert_ranked (x : Z * Document) (l : list (Z * Document)) : list (Z * Document) :=
  match l with
  | [] => [x]
  | y :: l' => if (fst x <? fst y)%Z then x :: l else y :: insert_ranked x l'
  end.

Definition ranked (l : list (Z * Document)) : list (Z * Document) :=
  fold_right insert_ranked [] l.

(** [FAISS.from_documents]: the dimension is read off the first embedding,
    which fails on an empty list of texts. *)
Definition faiss_from_documents (docs : list Document) (e : Embeddings)
    : result faiss_store :=
  match docs with
  | [] => raise (IndexError "list index out of range")
  | _ :: _ => ret (mkStore e (map (fun d => embed (model_name e) (page_content d)) docs) docs)
  end.

Definition faiss_save_local (vs : faiss_store) : faiss_files :=
  mkFiles (index vs) (docstore vs).

Definition faiss_load_local (folder : option faiss_files) (e : Embeddings)
    : result faiss_store :=
  match folder with
  | None => raise (RuntimeError "could not open index.faiss for reading")
  | Some files => ret (mkStore e (index_faiss files) (index_pkl files))
  end.

(** [similarity_search(query, k)]: the query is embedded with the store's
    embeddings object; the index rejects a vector of another dimension. *)
Definition faiss_similarity_search (vs : faiss_store) (q : string) (k : nat)
    : result (list Document) :=
  let v := embed (model_name (embedding_function vs)) q in
  if forallb (fun u => (length u =? length v)%nat) (index vs)
  then ret (map snd (firstn k (ranked (zip (map (l2 v) (index vs)) (docstore vs)))))
  else raise (OtherException "AssertionError").

Definition faiss_model : FaissApi := {|
  VectorStore := faiss_store;
  SavedIndex := faiss_files;
  from_documents := faiss_from_documents;
  save_local := faiss_save_local;
  load_local := faiss_load_local;
  similarity_search := faiss_similarity_search
|}.

End FaissModel.

End LangChain.

(* ===================================================================== *)
(** * langchain's RecursiveCharacterTextSplitter *)
(* ===================================================================== *)

(** The splitter that [chunk_documents] configures, after the library's
    [_split_text_with_regex], [_join_docs], [_merge_splits] and
    [_split_text], for literal separators and the defaults
    [keep_separator=True], [strip_whitespace=True], [length_function=len]. *)

Module TextSplitter.
Import PyStr.

(** One more character in front of the piece in progress. *)
Definition push (c : ascii) (pieces : list string) : list string :=
  match pieces with
  | [] => [String c EmptyString]
  | piece :: rest => String c piece :: rest
  end.

(** [re.split("(sep)", text)] regrouped as [_split_text_with_regex] does:
    the text before the first occurrence of the separator, then one piece
    per occurrence, each starting with the separator.  Occurrences are
    taken from left to right and do not overlap; [skip] counts the
    characters of a matched occurrence that are still to be passed over.
    The head of the result is the piece in progress. *)
Fixpoint split_keep (sep : string) (skip : nat) (s : string) : list string :=
  match s with
  | EmptyString => [EmptyString]
  | String c s' =>
      match skip with
      | S k => push c (split_keep sep k s')
      | O =>
          if startswith sep s
          then EmptyString :: push c (split_keep sep (String.length sep - 1) s')
          else push c (split_keep sep O s')
      end
  end.

(** [list(text)] *)
Fixpoint chars (s : string) : list string :=
  match s with
  | EmptyString => []
  | String c s' => String c EmptyString :: chars s'
  end.

Definition _split_text_with_regex (text separator : string) : list string :=
  let splits :=
    match separator with
    | EmptyString => chars text
    | String _ _ => split_keep separator O text
    end in
  filter (fun s => truthy s = true) splits.

Section Splitter.
Variable chunk_size : nat.
Variable chunk_overlap : nat.

Definition _join_docs (docs : list string) (separator : string) : option string :=
  let text := strip (join separator docs) in
  if truthy text then Some text else None.

(** The state of the loop of [_merge_splits]. *)
Record merging : Type := mkMerging {
  docs : list string;
  current_doc : list string;
  total : nat
}.

Definition with_sep (sep_len : nat) (threshold : nat) (current_doc : list string) : nat :=
  if (threshold <? length current_doc)%nat then sep_len else 0%nat.

(** The inner [while] loop, which drops pieces from the front.  [total] is
    the summed length of [current_doc], so it is zero when the list is
    empty and the subtraction stays above zero. *)
Fixpoint pop_front (len sep_len : nat) (current_doc : list string) (total : nat)
    : list string * nat :=
  match current_doc with
  | [] => ([], total)
  | piece :: rest =>
      if (chunk_overlap <? total)%nat
         || ((chunk_size <? total + len + with_sep sep_len 0 current_doc)%nat
             && (0 <? total)%nat)
      then pop_front len sep_len rest
             (total - (String.length piece + with_sep sep_len 1 current_doc))
      else (current_doc, total)
  end.

Definition emit (docs : list string) (doc : option string) : list string :=
  match doc with
  | Some text => (docs ++ [text])%list
  | None => docs
  end.

Definition merge_step (separator : string) (st : merging) (d : string) : merging :=
  let sep_len := String.length separator in
  let len := String.length d in
  let st :=
    if (chunk_size <? total st + len + with_sep sep_len 0 (current_doc st))%nat
    then
      match current_doc st with
      | [] => st
      | _ :: _ =>
          let docs := emit (docs st) (_join_docs (current_doc st) separator) in
          let '(current_doc, total) := pop_front len sep_len (current_doc st) (total st) in
          mkMerging docs current_doc total
      end
    else st in
  let current_doc := (current_doc st ++ [d])%list in
  mkMerging (docs st) current_doc (total st + len + with_sep sep_len 1 current_doc).

Definition _merge_splits (splits : list string) (separator : string) : list string :=
  let st := fold_left (merge_step separator) splits (mkMerging [] [] 0) in
  emit (docs st) (_join_docs (current_doc st) separator).

(** The loop of [_split_text] over the pieces: the pair holds
    [final_chunks] and [_good_splits].  [deeper] is the recursive call on
    [new_separators], [None] when that list is empty. *)
Definition flush (final_chunks good_splits : list string) : list string :=
  match good_splits with
  | [] => final_chunks
  | _ :: _ => (final_chunks ++ _merge_splits good_splits "")%list
  end.

Definition piece_step (deeper : option (string -> list string))
    (acc : list string * list string) (s : string) : list string * list string :=
  let '(final_chunks, good_splits) := acc in
  if (String.length s <? chunk_size)%nat
  then (final_chunks, (good_splits ++ [s])%list)
  else
    let final_chunks := flush final_chunks good_splits in
    match deeper with
    | None => ((final_chunks ++ [s])%list, [])
    | Some split => ((final_chunks ++ split s)%list, [])
    end.

Definition split_at (separator : string) (deeper : option (string -> list string))
    (text : string) : list string :=
  let splits := _split_text_with_regex text separator in
  let '(final_chunks, good_splits) := fold_left (piece_step deeper) splits ([], []) in
  flush final_chunks good_splits.

(** The first separator that occurs in the text is used, the later ones are
    kept for the pieces that are still too long; the empty separator always
    applies; when none occurs the last one is used.  The list is never empty
    on a call. *)
Fixpoint _split_text (separators : list string) (text : string) : list string :=
  match separators with
  | [] => []
  | s :: rest =>
      if negb (truthy s) then split_at s None text
      else if contains s text
      then split_at s (match rest with
                       | [] => None
                       | _ :: _ => Some (_split_text rest)
                       end) text
      else
        match rest with
        | [] => split_at s None text
        | _ :: _ => _split_text rest text
        end
  end.

End Splitter.

(** [RecursiveCharacterTextSplitter(chunk_size, chunk_overlap, separators).split_text] *)
Definition split_text (chunk_size chunk_overlap : nat) (separators : list string)
    (text : string) : list string :=
  _split_text chunk_size chunk_overlap separators text.

End TextSplitter.

(* ===================================================================== *)
(** * scripts/embed.py *)
(* ===================================================================== *)

Module Embed.
Import PyStr LangChain.

Definition DATA_DIR : string := "backend/data/cba_pdfs".
Definition SITE_TEXT_DIR : string := "backend/data/site_text".
Definition INDEX_DIR : string := "backend/index".
Definition EMBEDDING_MODEL : string := "sentence-transformers/all-MiniLM-L6-v2".
Definition CHUNK_SIZE : nat := 1000.
Definition CHUNK_OVERLAP : nat := 200.

(** [CustomTextLoader(file_path).load()], on the content read from the file. *)
Definition CustomTextLoader_load (name content : string) : list Document :=
  let lines := split_char nl content in
  let tagged :=
    match lines with
    | l0 :: _ => startswith "http" l0
    | [] => false
    end in
  let url := if tagged then hd "" lines else name in
  let text := if tagged then join NL (tl lines) else content in
  [ mkDocument text
      (<["source" := MStr name]> (<["url" := MStr url]> (<["type" := MStr "webpage"]> ∅))) ].

(** [doc.metadata.update({"source": ..., "type": "pdf", "page": ...})] *)
Definition tag_pdf_page (name : string) (doc : Document) : Document :=
  let m := metadata doc in
  let page := default (MInt 0) (m !! "page") in
  mkDocument (page_content doc)
    (<["page" := page]> (<["type" := MStr "pdf"]> (<["source" := MStr name]> m))).

(** Records of the [logging] module at level ERROR. *)
Definition log := list string.

Inductive build_outcome : Type :=
| NoDocuments          (* the early [return] *)
| Built                (* ran to the end *)
| BuildRaised (e : exn).

Section Build.
Context `{FaissApi}.

(** [PyPDFLoader(path).load()]: one Document per page, or an exception. *)
Variable PyPDFLoader_load : string -> string -> result (list Document).
(** [RecursiveCharacterTextSplitter(chunk_size, chunk_overlap, separators).split_text] *)
Variable splitter_split_text : nat -> nat -> list string -> string -> list string.
(** [HuggingFaceEmbeddings(model_name=...)]: [Some e] when construction raises. *)
Variable HuggingFaceEmbeddings_init : string -> option exn.

Definition load_pdf (file : string * string) : list Document :=
  match PyPDFLoader_load (fst file) (snd file) with
  | inr pdf_docs => map (tag_pdf_page (fst file)) pdf_docs
  | inl _ => []        (* logged as a warning, the file is skipped *)
  end.

Definition load_documents (d : Disk) : list Document :=
  concat (map load_pdf (pdf_files d))
  ++ concat (map (fun f => CustomTextLoader_load (fst f) (snd f)) (txt_files d)).

(** [TextSplitter.split_documents]: every chunk carries its parent's metadata. *)
Definition split_documents (split_text : string -> list string)
    (documents : list Document) : list Document :=
  concat (map (fun doc =>
                 map (fun chunk => mkDocument chunk (metadata doc))
                     (split_text (page_content doc)))
              documents).

Definition chunk_documents (documents : list Document) : list Document :=
  split_documents
    (splitter_split_text CHUNK_SIZE CHUNK_OVERLAP [NL ++ NL; NL; ". "; " "; ""])
    documents.

(** [INDEX_DIR.mkdir(parents=True, exist_ok=True)] *)
Definition mkdir_index (d : Disk) : Disk :=
  match index_dirs d !! INDEX_DIR with
  | Some _ => d
  | None => mkDisk _ (pdf_files d) (txt_files d) (<[INDEX_DIR := None]> (index_dirs d))
  end.

(** [vectorstore.save_local(str(INDEX_DIR))] *)
Definition write_index (vs : VectorStore) (d : Disk) : Disk :=
  mkDisk _ (pdf_files d) (txt_files d) (<[INDEX_DIR := Some (save_local vs)]> (index_dirs d)).

(** The retrieval test that ends the build: [doc.metadata['source']] is read
    for every result. *)
Definition test_retrieval (vs : VectorStore) : result unit :=
  results <-! similarity_search vs "What are the fees for CBA credit cards?" 3 ;;
  if forallb (fun doc => bool_decide (is_Some (metadata doc !! "source"))) results
  then ret tt
  else raise (OtherException "KeyError: 'source'").

Definition create_embeddings (d : Disk) : build_outcome * Disk * log :=
  let d := mkdir_index d in
  let documents := load_documents d in
  match documents with
  | [] => (NoDocuments, d, ["No documents found to process!"])
  | _ :: _ =>
      let chunks := chunk_documents documents in
      match HuggingFaceEmbeddings_init EMBEDDING_MODEL with
      | Some e => (BuildRaised e, d, [])
      | None =>
          let embeddings := mkEmbeddings EMBEDDING_MODEL in
          match from_documents chunks embeddings with
          | inl e => (BuildRaised e, d, [])
          | inr vectorstore =>
              let d := write_index vectorstore d in
              match test_retrieval vectorstore with
              | inl e => (BuildRaised e, d, [])
              | inr _ => (Built, d, [])
              end
          end
      end
  end.

End Build.
End Embed.

(* ===================================================================== *)
(** * backend/app/main.py *)
(* ===================================================================== *)

Module Main.
Import PyStr LangChain.

(** ** Response post-processing *)

(** The phrase list of [clean_ai_response]. *)
Definition artifact_phrases : list string :=
  [ "styling instructions:"; "ai:"; "user:"; "context:";
    "example format"; "respond naturally"; "choose the best format" ].

(** [line.replace('*', '').replace('**', '').replace('_', '').replace('+', '')] *)
Definition remove_markdown (line : string) : string :=
  replace "+" "" (replace "_" "" (replace "**" "" (replace "*" "" line))).

(** One iteration of the [for line in lines] loop; [cleaned_lines] is the
    accumulator. *)
Definition clean_step (cleaned_lines : list string) (line : string) : list string :=
  let line := strip line in
  if negb (truthy line) then cleaned_lines
  else if any (fun phrase => contains phrase (lower line)) artifact_phrases
       then cleaned_lines
       else cleaned_lines ++ [remove_markdown line].

Definition clean_ai_response (response : string) : string :=
  let lines := split_char nl response in
  let cleaned_lines := fold_left clean_step lines [] in
  strip (join NL cleaned_lines).

(** ** Requests, responses, conversation turns *)

Record ChatRequest : Type := mkChatRequest {
  conversation_id : string;
  query : string
}.

Record ChatResponse : Type := mkChatResponse {
  answer : string;
  sources : list (gmap string meta_value)
}.

(** The dictionary [{"user": ..., "ai": ...}] appended to a history. *)
Record Turn : Type := mkTurn { user : string; ai : string }.

Definition NO_KEY_MESSAGE : string :=
  "⚠️ No GROQ_API_KEY found. Please set it in your environment variables.".

Definition GENERATION_FAILED_MESSAGE : string :=
  "⚠️ I'm having trouble generating a response. Please try again later.".

Section Service.
Context `{FaissApi}.

(** [GROQ_API_KEY], read from the environment when the module is loaded. *)
Variable GROQ_API_KEY : option string.

(** [groq_client.invoke(prompt).content]: the reply to the [n]-th call made
    by this process, or the exception raised on the way to it. *)
Variable groq_invoke : nat -> string -> result string.

(** The module's globals, and the prompts sent to the model so far. *)
Record Globals : Type := mkGlobals {
  _embeddings : option Embeddings;
  _vectorstore : option VectorStore;
  _conversations : gmap string (list Turn);
  groq_calls : list string
}.

Definition set_conversations (c : gmap string (list Turn)) (g : Globals) : Globals :=
  mkGlobals (_embeddings g) (_vectorstore g) c (groq_calls g).
Definition record_call (prompt : string) (g : Globals) : Globals :=
  mkGlobals (_embeddings g) (_vectorstore g) (_conversations g) (groq_calls g ++ [prompt]).

(** The call [get_vectorstore()] of the handler: from the folders on disk
    and the globals, a store or an exception, with the globals as the call
    leaves them.  The text of the function (lines 80-99) and of
    [get_embeddings], which it calls (lines 69-74), is not valid Python, so
    the handler is embedded over every behaviour of the call. *)
Variable get_vectorstore : Disk -> Globals -> result VectorStore * Globals.

(** [f"User: {turn['user']}\nAI: {turn['ai']}"] *)
Definition render_turn (t : Turn) : string :=
  "User: " ++ user t ++ NL ++ "AI: " ++ ai t.

Definition INSTRUCTIONS : string :=
  "AI: You are a helpful CBA product assistant. Provide clear, structured responses about CBA products and services." ++ NL ++ NL ++
  "IMPORTANT FORMATTING RULES:" ++ NL ++
  "- Format responses naturally with paragraphs, bullet points, or numbered lists when it improves clarity." ++ NL ++
  "- Avoid any Markdown symbols such as *, **, _, or +." ++ NL ++
  "- Present product names followed by a dash (–) and description." ++ NL ++
  "- Use a new line for each product or concept." ++ NL ++
  "- Be concise and informative." ++ NL ++
  "- Only mention products that are actually available based on the provided context." ++ NL ++
  "- Respond in clean, readable plain text." ++ NL.

Definition format_conversation_history (g : Globals)
    (conversation_id query context : string) : string :=
  let history := default [] (_conversations g !! conversation_id) in
  let history_text := join NL (map render_turn history) in
  history_text ++ NL ++
  "User: " ++ query ++ NL ++ NL ++
  "Context (from CBA documents):" ++ NL ++ context ++ NL ++ NL ++
  INSTRUCTIONS.

(** [if not GROQ_API_KEY]: unset or empty. *)
Definition has_key : bool :=
  match GROQ_API_KEY with
  | Some k => truthy k
  | None => false
  end.

Definition generate_ai_response (conversation_id query context : string)
    (g : Globals) : string * Globals :=
  if negb has_key then (NO_KEY_MESSAGE, g)
  else
    let prompt := format_conversation_history g conversation_id query context in
    match groq_invoke (length (groq_calls g)) prompt with
    | inr content => (clean_ai_response (strip content), record_call prompt g)
    | inl _ => (GENERATION_FAILED_MESSAGE, record_call prompt g)
    end.

(** [_conversations[cid].append(turn)], after the entry was created if absent. *)
Definition append_turn (cid : string) (t : Turn)
    (c : gmap string (list Turn)) : gmap string (list Turn) :=
  let c := match c !! cid with
           | Some _ => c
           | None => <[cid := []]> c
           end in
  <[cid := (default [] (c !! cid) ++ [t])%list]> c.

(** The [/chat] handler. *)
Definition chat (d : Disk) (request : ChatRequest) (g : Globals)
    : result ChatResponse * Globals :=
  let '(r, g) := get_vectorstore d g in
  match r with
  | inl e => (raise e, g)
  | inr vectorstore =>
      match similarity_search vectorstore (query request) 8 with
      | inl e => (raise e, g)
      | inr docs =>
          let context := join NL (map page_content docs) in
          let sources := map metadata docs in
          let '(answer, g) :=
            generate_ai_response (conversation_id request) (query request) context g in
          let g := set_conversations
                     (append_turn (conversation_id request)
                                  (mkTurn (query request) answer)
                                  (_conversations g)) g in
          (ret (mkChatResponse answer sources), g)
      end
  end.

(** Requests served one after the other, as the event loop runs them. *)
Fixpoint serve (d : Disk) (requests : list ChatRequest) (g : Globals)
    : list (result ChatResponse) * Globals :=
  match requests with
  | [] => ([], g)
  | request :: rest =>
      let '(r, g) := chat d request g in
      let '(rs, g) := serve d rest g in
      (r :: rs, g)
  end.

(** The answered requests of one conversation, in arrival order, each with
    the response it got. *)
Fixpoint answered_on (cid : string) (requests : list ChatRequest)
    (outcomes : list (result ChatResponse)) : list (ChatRequest * ChatResponse) :=
  match requests, outcomes with
  | request :: requests', inr response :: outcomes' =>
      if decide (conversation_id request = cid)
      then (request, response) :: answered_on cid requests' outcomes'
      else answered_on cid requests' outcomes'
  | _ :: requests', inl _ :: outcomes' => answered_on cid requests' outcomes'
  | _, _ => []
  end.

Definition turn_of (a : ChatRequest * ChatResponse) : Turn :=
  mkTurn (query (fst a)) (answer (snd a)).

(** The history of a conversation; an absent entry reads as empty. *)
Definition history (g : Globals) (cid : string) : list Turn :=
  default [] (_conversations g !! cid).

End Service.
End Main.

(* ===================================================================== *)
(** * scripts/crawl_site_text.py *)
(* ===================================================================== *)

Module CrawlSiteText.
Import PyStr.

Definition ROOT_DOMAIN : string := "commbank.com.au".
Definition SEED_PAGES : list string :=
  [ "https://www.commbank.com.au/personal.html";
    "https://www.commbank.com.au/personal/accounts.html";
    "https://www.commbank.com.au/personal/credit-cards.html";
    "https://www.commbank.com.au/personal/insurance.html";
    "https://www.commbank.com.au/personal/home-loans.html";
    "https://www.commbank.com.au/personal/investing.html";
    "https://www.commbank.com.au/business.html";
    "https://www.commbank.com.au/business/accounts.html";
    "https://www.commbank.com.au/business/merchant-services.html";
    "https://www.commbank.com.au/business/loans-and-finance.html" ].
Definition SAVE_DIR : string := "cba-chatbot/data/site_text".
Definition MAX_PAGES : nat := 500.

(** [sha256_hex(s)]: the digest of the encoded text. *)
Definition sha256_hex (s : string) : string := Sha256.hexdigest s.

(** ** Link admission *)

(** The values a name of [should_follow] can be bound to. *)
Inductive value : Type :=
| Str (s : string)
| Parsed (r : Urllib.ParseResult).

(** [v.path] *)
Definition attr_path (v : value) : result string :=
  match v with
  | Parsed r => ret (Urllib.path r)
  | Str _ => raise (AttributeError "'str' object has no attribute 'path'")
  end.

(** [v in text] *)
Definition str_in (v : value) (text : string) : result bool :=
  match v with
  | Str s => ret (contains s text)
  | Parsed _ =>
      raise (OtherException "TypeError: 'in <string>' requires string as left operand")
  end.

(** [any(body(x) for x in items)]: the generator is consumed up to the first
    true element; an exception of the body ends the evaluation. *)
Fixpoint any_gen {A} (body : A -> result bool) (items : list A) : result bool :=
  match items with
  | [] => ret false
  | x :: rest =>
      b <-! body x ;;
      if b then ret true else any_gen body rest
  end.

Definition good : list string := ["/personal"; "/business"; "/content/dam"; "/important-info"].
Definition bad : list string :=
  ["/privacy"; "/careers"; "/security"; "/about-us"; "/newsroom"; "/site-map"; "/legal"; "/contact"].

Section Admission.

(** [urlparse], a parameter so that the facts below hold for each of its
    behaviours; [Urllib.urlparse] is the instance used on concrete URLs. *)
Variable urlparse : string -> result Urllib.ParseResult.

(** In [any(p in p.path.lower() for p in good)] the generator binds [p]
    itself, so both occurrences of [p] in its body are the element of
    [good]; in the second generator the bound name is [b] and [p] is the
    parse result. *)
Definition should_follow (url : string) : result bool :=
  r <-! urlparse url ;;
  let p := Parsed r in
  if negb (startswith "http" (Urllib.scheme r)) then ret false
  else if negb (match Urllib.hostname r with
                | Some h => endswith ROOT_DOMAIN h
                | None => false
                end) then ret false
  else
    in_good <-! any_gen (fun p => path <-! attr_path p ;; str_in p (lower path))
                        (map Str good) ;;
    if negb in_good then ret false
    else
      in_bad <-! any_gen (fun b => path <-! attr_path p ;; str_in b (lower path))
                         (map Str bad) ;;
      if in_bad then ret false else ret true.

(** The loop over the anchors of a saved page.  [links] are the values of
    [next_url] in document order.  The queue is returned as it stands when
    the loop ends, together with the exception that ended it, if any. *)
Fixpoint enqueue_links (visited : gset string) (links : list string)
    (links_added : nat) (q : list string) : list string * option exn :=
  match links with
  | [] => (q, None)
  | next_url :: rest =>
      if (20 <=? links_added)%nat then (q, None)
      else
        match should_follow next_url with
        | inl e => (q, Some e)
        | inr follow =>
            if follow && negb (bool_decide (next_url ∈ visited))
                      && negb (bool_decide (next_url ∈ q))
            then enqueue_links visited rest (S links_added) (q ++ [next_url])%list
            else enqueue_links visited rest links_added q
        end
  end.

End Admission.

(** ** The page store *)

(** The save folder: file contents by path, the paths written so far in
    the order of the [open(path, "w")] calls, and the rows of
    [manifest.csv] ([None] while the file does not exist). *)
Record Store : Type := mkStore {
  files : gmap string string;
  writes : list string;
  manifest : option (list (string * string))
}.

Definition save_page_text (url text : string) (st : Store) : string * Store :=
  let file_id := take 16 (sha256_hex url) in
  let filename := file_id ++ ".txt" in
  let path := SAVE_DIR ++ "/" ++ filename in
  (filename,
   mkStore (<[path := url ++ NL ++ NL ++ text]> (files st))
           (writes st ++ [path])%list (manifest st)).

Definition append_manifest (url filename : string) (st : Store) : Store :=
  mkStore (files st) (writes st)
          (Some (default [] (manifest st) ++ [(url, filename)])%list).

(** ** The crawl loop *)

Record Response : Type := mkResponse {
  status_code : Z;
  content_type : string;     (* [resp.headers.get("Content-Type", "")] *)
  text : string
}.

Record CrawlState : Type := mkCrawlState {
  visited : gset string;
  q : list string;
  count : nat;
  store : Store
}.

Section Crawl.
Variable urlparse : string -> result Urllib.ParseResult.
(** [session.get(url, timeout=...)] *)
Variable session_get : string -> result Response.
(** [clean_text(html)], which rests on the HTML parser. *)
Variable clean_text : string -> string.
(** The values [urljoin(url, a["href"].strip())] for the anchors of a page. *)
Variable anchors : string -> string -> list string.

(** The [try] block for one URL; an exception leaves the loop body with
    whatever was done before it. *)
Definition fetch_and_save (url : string) (s : CrawlState) : CrawlState :=
  match session_get url with
  | inl _ => s
  | inr resp =>
      if negb (status_code resp =? 200)%Z then s
      else if negb (contains "text/html" (content_type resp)) then s
      else
        let text := clean_text (text resp) in
        if (String.length text <? 100)%nat then s
        else
          let '(filename, st) := save_page_text url text (store s) in
          let st := append_manifest url filename st in
          let count := S (count s) in
          if (count <? MAX_PAGES)%nat
          then
            let '(q, _) := enqueue_links urlparse (visited s)
                             (anchors url (CrawlSiteText.text resp)) 0 (q s) in
            mkCrawlState (visited s) q count st
          else mkCrawlState (visited s) (q s) count st
  end.

(** One turn of [while q and count < MAX_PAGES], [None] when the loop ends. *)
Definition crawl_turn (s : CrawlState) : option CrawlState :=
  match q s with
  | [] => None
  | url :: rest =>
      if negb (count s <? MAX_PAGES)%nat then None
      else if bool_decide (url ∈ visited s)
      then Some (mkCrawlState (visited s) rest (count s) (store s))
      else
        Some (fetch_and_save url
                (mkCrawlState ({[url]} ∪ visited s) rest (count s) (store s)))
  end.

(** The loop, for at most [fuel] turns; [None] when the fuel runs out first. *)
Fixpoint crawl_loop (fuel : nat) (s : CrawlState) : option CrawlState :=
  match crawl_turn s with
  | None => Some s
  | Some s' =>
      match fuel with
      | O => None
      | S fuel' => crawl_loop fuel' s'
      end
  end.

Definition crawl_start (st : Store) : CrawlState :=
  mkCrawlState ∅ SEED_PAGES 0 st.

End Crawl.
End CrawlSiteText.

(* ===================================================================== *)
(** * scripts/download_pdfs.py *)
(* ===================================================================== *)

Module DownloadPdfs.
Import PyStr.

Definition ROOT_DOMAIN : string := "commbank.com.au".
Definition SAVE_DIR : string := "cba-chatbot/data/cba_pdfs".
Definition RETRIES : nat := 2.
Definition MAX_FILE_SIZE : Z := 100 * 1024 * 1024.

Definition sha256_bytes (b : string) : string := Sha256.hexdigest b.

(** [os.path.basename] *)
Definition basename (path : string) : string :=
  snd (Urllib.rpartition "/" path).

Definition safe_filename_from_url (url : string) : result string :=
  parsed <-! Urllib.urlparse url ;;
  let name := basename (Urllib.path parsed) in
  let name :=
    if negb (truthy name) || negb (endswith ".pdf" (lower name))
    then take 8 (sha256_bytes url) ++ ".pdf"
    else name in
  ret (fst (fst (Urllib.partition "#" (fst (fst (Urllib.partition "?" name)))))).

(** A row of [manifest.csv]. *)
Record Row : Type := mkRow {
  source_url : string;
  pdf_url : string;
  saved_filename : string;
  filesize_bytes : Z;
  sha256 : string;
  http_status : Z;
  title_text : string;
  timestamp : Z
}.

(** The save folder: file contents by path, the paths written so far in the
    order of the [open(save_path, "wb")] calls, and the rows of the manifest
    ([None] while the file does not exist).  File operations succeed. *)
Record Store : Type := mkStore {
  files : gmap string string;
  writes : list string;
  manifest : option (list Row)
}.

(** The [saved_filename] of the first row with that hash. *)
Fixpoint first_with_sha (sha : string) (rows : list Row) : option string :=
  match rows with
  | [] => None
  | r :: rest =>
      if String.eqb (sha256 r) sha then Some (saved_filename r)
      else first_with_sha sha rest
  end.

Definition manifest_has_sha (sha : string) (st : Store) : option string :=
  match manifest st with
  | None => None
  | Some rows => first_with_sha sha rows
  end.

Definition append_manifest_row (row : Row) (st : Store) : Store :=
  mkStore (files st) (writes st) (Some (default [] (manifest st) ++ [row])%list).

Definition write_file (path data : string) (st : Store) : Store :=
  mkStore (<[path := data]> (files st)) (writes st ++ [path])%list (manifest st).

(** The [Content-Length] header of a HEAD response: absent or empty, a
    number, or a text that [int] rejects. *)
Inductive length_header : Type :=
| NoLength
| Length (n : Z)
| BadLength.

Record HeadResponse : Type := mkHead {
  head_status : Z;
  head_length : length_header
}.

(** A streamed GET response: the chunks [iter_content] yields, and the
    exception it raises after them, if any. *)
Record GetResponse : Type := mkGet {
  status_code : Z;
  body : list string;
  stream_error : option exn
}.

Inductive stream_result : Type :=
| TooLarge
| Broken (e : exn)
| Received (chunks : list string).

(** [for chunk in r.iter_content(...)], with the running size check. *)
Fixpoint read_stream (incoming : list string) (broken : option exn)
    (chunks : list string) (total : Z) : stream_result :=
  match incoming with
  | [] =>
      match broken with
      | Some e => Broken e
      | None => Received chunks
      end
  | chunk :: rest =>
      if truthy chunk then
        let total := (total + Z.of_nat (String.length chunk))%Z in
        if (MAX_FILE_SIZE <? total)%Z then TooLarge
        else read_stream rest broken (chunks ++ [chunk])%list total
      else read_stream rest broken chunks total
  end.

Section Download.

(** [session.head(url, ...)] and the [n]-th [session.get(url, stream=True)]
    of one [download_pdf] call. *)
Variable session_head : string -> result HeadResponse.
Variable session_get : string -> nat -> result GetResponse.

(** The HEAD check: [false] when [download_pdf] returns early.  An
    exception of the request or of [int] lets the download go on. *)
Definition head_admits (url : string) : bool :=
  match session_head url with
  | inl _ => true
  | inr head =>
      if (400 <=? head_status head)%Z then false
      else
        match head_length head with
        | Length n => negb (MAX_FILE_SIZE <? n)%Z
        | NoLength | BadLength => true
        end
  end.

(** What the first half of the [try] block of an attempt obtains: an
    exception, an early [return False], or the body with its status. *)
Inductive fetched : Type :=
| Raised
| Refused
| Data (data : string) (status : Z).

Definition fetch_body (url : string) (attempt : nat) : fetched :=
  match session_get url attempt with
  | inl _ => Raised
  | inr r =>
      if negb (status_code r =? 200)%Z then Refused
      else
        match read_stream (body r) (stream_error r) [] 0 with
        | TooLarge => Refused
        | Broken _ => Raised
        | Received chunks => Data (String.concat "" chunks) (status_code r)
        end
  end.

(** The second half: hash, manifest lookup, write, manifest row; [None]
    when it raised.  [now] is [int(time.time())]. *)
Definition store_pdf (url source_page : string) (now : Z) (data : string)
    (status : Z) (st : Store) : option (bool * Store) :=
  let sha := sha256_bytes data in
  let row name :=
    mkRow source_page url name (Z.of_nat (String.length data)) sha status "" now in
  match manifest_has_sha sha st with
  | Some (String c existing) =>
      Some (true, append_manifest_row (row (String c existing)) st)
  | Some EmptyString | None =>
      match safe_filename_from_url url with
      | inl _ => None
      | inr filename =>
          let save_name := take 8 sha ++ "_" ++ filename in
          let save_path := SAVE_DIR ++ "/" ++ save_name in
          let st := write_file save_path data st in
          Some (true, append_manifest_row (row save_name) st)
      end
  end.

(** The [try] block of one attempt; [None] when it raised. *)
Definition attempt_download (url source_page : string) (now : Z) (attempt : nat)
    (st : Store) : option (bool * Store) :=
  match fetch_body url attempt with
  | Raised => None
  | Refused => Some (false, st)
  | Data data status => store_pdf url source_page now data status st
  end.

(** [for attempt in range(1, RETRIES + 1)] *)
Fixpoint try_attempts (url source_page : string) (now : Z) (attempts : list nat)
    (st : Store) : bool * Store :=
  match attempts with
  | [] => (false, st)
  | attempt :: rest =>
      match attempt_download url source_page now attempt st with
      | Some outcome => outcome
      | None => try_attempts url source_page now rest st
      end
  end.

Definition download_pdf (url source_page : string) (now : Z) (st : Store)
    : bool * Store :=
  if head_admits url
  then try_attempts url source_page now (seq 1 RETRIES) st
  else (false, st).

(** The outcome of the first attempt whose request and stream did not raise. *)
Fixpoint first_fetch (url : string) (attempts : list nat) : fetched :=
  match attempts with
  | [] => Raised
  | attempt :: rest =>
      match fetch_body url attempt with
      | Raised => first_fetch url rest
      | outcome => outcome
      end
  end.

End Download.

(** The page filter of [crawl_seed_pages_and_collect]: the generator binds
    [p] and tests the path of [parsed]. *)
Definition follows_page (href : string) : result bool :=
  parsed <-! Urllib.urlparse href ;;
  ret (match Urllib.hostname parsed with
       | Some h => endswith ROOT_DOMAIN h
       | None => false
       end
       && any (fun p => contains p (lower (Urllib.path parsed)))
              ["/personal"; "/business"; "/important-info"; "/content/dam"]).

End DownloadPdfs.

(* ===================================================================== *)
(** * scripts/download_pdfs.py: link discovery and the main loop *)
(* ===================================================================== *)

Module PdfDiscovery.
Import PyStr.

Definition MAX_CRAWL_PAGES : nat := 200.
Definition MAX_PDFS : nat := 500.

Definition WORKING_PDFS : list string :=
  [ "https://www.commbank.com.au/content/dam/commbank-assets/banking/2023-10/smart-access-account-brochure.pdf";
    "https://www.commbank.com.au/content/dam/commbank-assets/banking/2023-10/everyday-account-brochure.pdf";
    "https://www.commbank.com.au/content/dam/commbank-assets/banking/2023-10/student-options-account-brochure.pdf";
    "https://www.commbank.com.au/content/dam/commbank-assets/banking/2023-10/netbank-saver-brochure.pdf";
    "https://www.commbank.com.au/content/dam/commbank-assets/banking/2023-10/saver-account-brochure.pdf";
    "https://www.commbank.com.au/content/dam/commbank-assets/banking/2023-10/goal-saver-brochure.pdf";
    "https://www.commbank.com.au/content/dam/commbank-assets/banking/2023-10/term-deposits-brochure.pdf";
    "https://www.commbank.com.au/content/dam/commbank-assets/banking/2023-10/transaction-savings-fees-charges.pdf";
    "https://www.commbank.com.au/content/dam/commbank-assets/banking/2023-10/credit-card-fees-charges.pdf";
    "https://www.commbank.com.au/content/dam/commbank-assets/banking/2023-10/streamline-basic-account-brochure.pdf";
    "https://www.commbank.com.au/content/dam/commbank-assets/banking/2023-10/streamline-basic-account-fees-charges.pdf";
    "https://www.commbank.com.au/content/dam/commbank-assets/banking/2023-10/streamline-basic-account-terms-conditions.pdf";
    "https://www.commbank.com.au/content/dam/commbank-assets/insurance/docs/car-insurance-premium-excess-discount-guide.pdf";
    "https://www.commbank.com.au/content/dam/commbank-assets/insurance/docs/home-insurance-premium-excess-discount-guide.pdf";
    "https://www.commbank.com.au/content/dam/commbank-assets/investing/geared-investments/gi-loan-product-disclosure-statement.pdf";
    "https://www.commbank.com.au/content/dam/commbank-assets/investing/geared-investments/gi-loan-terms-conditions.pdf" ].

Definition SEED_PAGES : list string :=
  [ "https://www.commbank.com.au/personal/accounts.html";
    "https://www.commbank.com.au/personal/credit-cards.html";
    "https://www.commbank.com.au/personal/insurance.html";
    "https://www.commbank.com.au/personal/home-loans.html";
    "https://www.commbank.com.au/personal/investing.html";
    "https://www.commbank.com.au/business/accounts.html";
    "https://www.commbank.com.au/business/credit-cards.html";
    "https://www.commbank.com.au/business/insurance.html" ].

(** The prefix that [extract_pdf_links_from_html] asks of a link. *)
Definition LINK_PREFIX : string := "https://www.commbank.com.au".

(** An [<a>] tag that has an [href]: [a["href"]], [a.get("type")] and
    [a.get_text()]. *)
Record Anchor : Type := mkAnchor {
  href : string;
  type_attr : option string;
  get_text : string
}.

Record Response : Type := mkResponse {
  status_code : Z;
  content_type : string;     (* [resp.headers.get("Content-Type", "")] *)
  text : string
}.

(** The state of the loop of [crawl_seed_pages_and_collect]. *)
Record Crawl : Type := mkCrawl {
  q : list string;
  visited : gset string;
  discovered : gset (string * string * string);
  pages : nat
}.

Section Discovery.

(** [BeautifulSoup(html, "html.parser").find_all("a", href=True)], in
    document order. *)
Variable find_anchors : string -> list Anchor.
(** [urljoin(base, href)], which parses its arguments and so can raise. *)
Variable urljoin : string -> string -> result string.
(** [session.get(page, timeout=TIMEOUT)] *)
Variable session_get : string -> result Response.

(** The loop of [extract_pdf_links_from_html]; [links] is the set built so
    far. *)
Fixpoint collect_links (base_url : string) (anchors : list Anchor)
    (links : gset (string * string)) : result (gset (string * string)) :=
  match anchors with
  | [] => ret links
  | a :: rest =>
      let href := strip (href a) in
      if endswith ".pdf" (lower href)
         || contains "application/pdf" (default "" (type_attr a))
      then
        full <-! urljoin base_url href ;;
        if startswith LINK_PREFIX full
        then collect_links base_url rest ({[ (full, strip (get_text a)) ]} ∪ links)
        else collect_links base_url rest links
      else collect_links base_url rest links
  end.

Definition extract_pdf_links_from_html (base_url html : string)
    : result (gset (string * string)) :=
  collect_links base_url (find_anchors html) ∅.

(** The loop that looks for more pages.  The queue is returned as it stands
    when the loop ends, by itself or by an exception of [urljoin] or
    [urlparse]. *)
Fixpoint enqueue_pages (page : string) (visited : gset string)
    (anchors : list Anchor) (q : list string) : list string :=
  match anchors with
  | [] => q
  | a :: rest =>
      match (href <-! urljoin page (strip (href a)) ;;
             follow <-! DownloadPdfs.follows_page href ;;
             ret (href, follow)) with
      | inl _ => q
      | inr (href, follow) =>
          if follow && negb (bool_decide (href ∈ visited))
                    && negb (bool_decide (href ∈ q))
          then enqueue_pages page visited rest (q ++ [href])%list
          else enqueue_pages page visited rest q
      end
  end.

(** The [try] block for one page.  In [if link not in discovered] a string
    is looked up in a set of triples, so the test holds for every link and
    every triple is added. *)
Definition visit_page (page : string) (s : Crawl) : Crawl :=
  match session_get page with
  | inl _ => s
  | inr resp =>
      if negb (status_code resp =? 200)%Z then s
      else if negb (contains "text/html" (content_type resp)) then s
      else
        match extract_pdf_links_from_html page (text resp) with
        | inl _ => s
        | inr links =>
            let found : gset (string * string * string) :=
              set_map (fun link => (fst link, snd link, page)) links in
            mkCrawl (enqueue_pages page (visited s) (find_anchors (text resp)) (q s))
                    (visited s) (found ∪ discovered s) (pages s)
        end
  end.

(** One turn of [while q and pages < MAX_CRAWL_PAGES and len(discovered) <
    MAX_PDFS], [None] when the loop ends. *)
Definition crawl_turn (s : Crawl) : option Crawl :=
  match q s with
  | [] => None
  | page :: rest =>
      if negb (pages s <? MAX_CRAWL_PAGES)%nat then None
      else if negb (size (discovered s) <? MAX_PDFS)%nat then None
      else if bool_decide (page ∈ visited s)
      then Some (mkCrawl rest (visited s) (discovered s) (pages s))
      else
        Some (visit_page page
                (mkCrawl rest ({[page]} ∪ visited s) (discovered s) (S (pages s))))
  end.

(** The loop, for at most [fuel] turns; [None] when the fuel runs out first. *)
Fixpoint crawl_loop (fuel : nat) (s : Crawl) : option Crawl :=
  match crawl_turn s with
  | None => Some s
  | Some s' =>
      match fuel with
      | O => None
      | S fuel' => crawl_loop fuel' s'
      end
  end.

Definition crawl_start (seed_pages : list string) : Crawl :=
  mkCrawl seed_pages ∅ ∅ 0.

(** The loop from its start.  Every turn takes a URL off the queue, and a
    turn that does not fetch takes off one that was in the queue twice, so
    this many turns are enough. *)
Definition crawl_run (seed_pages : list string) : option Crawl :=
  crawl_loop (MAX_CRAWL_PAGES + length seed_pages) (crawl_start seed_pages).

(** The triples of [list(discovered)]; their order is left to the caller. *)
Definition crawl_seed_pages_and_collect (seed_pages : list string)
    : option (gset (string * string * string)) :=
  discovered <$> crawl_run seed_pages.

End Discovery.

Section Main.

(** The network as the [k]-th call of [download_pdf] sees it, and the clock
    at that call. *)
Variable session_head : nat -> string -> result DownloadPdfs.HeadResponse.
Variable session_get : nat -> string -> nat -> result DownloadPdfs.GetResponse.
Variable now : nat -> Z.

(** The two [for] loops of [main]: the downloads one after the other, with
    the count of those that returned [True]. *)
Fixpoint download_each (k : nat) (items : list (string * string))
    (st : DownloadPdfs.Store) : nat * DownloadPdfs.Store :=
  match items with
  | [] => (0%nat, st)
  | (url, source_page) :: rest =>
      let '(ok, st) :=
        DownloadPdfs.download_pdf (session_head k) (session_get k)
                                  url source_page (now k) st in
      let '(count, st) := download_each (S k) rest st in
      ((if ok then S count else count), st)
  end.

(** [main], given the list that [crawl_seed_pages_and_collect] returned:
    the total of the two counts and the store at the end. *)
Definition main (found : list (string * string * string)) (st : DownloadPdfs.Store)
    : nat * DownloadPdfs.Store :=
  let '(success_count, st) :=
    download_each 0 (map (fun url => (url, "working_list")) WORKING_PDFS) st in
  let '(crawl_success, st) :=
    download_each (length WORKING_PDFS)
                  (map (fun item => (fst (fst item), snd item)) found) st in
  ((success_count + crawl_success)%nat, st).

End Main.
End PdfDiscovery.

(* ===================================================================== *)
(** * Notions used in the statements *)
(* ===================================================================== *)

Module Properties.
Import PyStr LangChain.

(** ** Chunks *)

(** The chunker of [embed.py] over langchain's splitter. *)
Definition chunk_documents : list Document -> list Document :=
  Embed.chunk_documents TextSplitter.split_text.

(** Chunk texts put back together with the first [overlap] characters of
    every chunk but the first removed. *)
Definition reconstruct (overlap : nat) (chunks : list string) : string :=
  match chunks with
  | [] => ""
  | first :: rest => first +:+ join "" (map (drop overlap) rest)
  end.

(** [w] occupies the positions [p .. p + len(w)) of [text]. *)
Definition occurs_at (p : nat) (w text : string) : Prop :=
  exists pre post, text = pre +:+ w +:+ post /\ String.length pre = p.

(** Every chunk is the non-empty trimmed text of a window of [text]; the
    windows start at non-decreasing positions between [lo] and [hi]. *)
Fixpoint windows (lo hi : nat) (chunks : list string) (text : string) : Prop :=
  match chunks with
  | [] => (lo <= hi)%nat
  | c :: cs =>
      exists p w,
        (lo <= p)%nat /\ occurs_at p w text /\ c = strip w /\ c <> ""
        /\ windows p hi cs text
  end.

(** What the loop of [_split_text] needs of its pieces: a recursive call
    that yields windows of the piece it is given, or, without a recursive
    call, pieces that are all below the chunk size. *)
Definition deeper_ok (chunk_size : nat) (deeper : option (string -> list string))
    (pieces : list string) : Prop :=
  match deeper with
  | Some split => forall s, windows 0 (String.length s) (split s) s
  | None => Forall (fun s => (String.length s < chunk_size)%nat) pieces
  end.

(** ** Stores *)

Definition no_path_attribute : exn :=
  AttributeError "'str' object has no attribute 'path'".

(** The file name the page store gives to a URL. *)
Definition page_file (url : string) : string :=
  take 16 (CrawlSiteText.sha256_hex url) ++ ".txt".

(** The tests a fetched page must pass to be saved. *)
Definition page_accepted (page_get : string -> result CrawlSiteText.Response)
    (clean_text : string -> string) (url : string) (text : string) : Prop :=
  exists resp,
    page_get url = inr resp
    /\ CrawlSiteText.status_code resp = 200%Z
    /\ contains "text/html" (CrawlSiteText.content_type resp) = true
    /\ clean_text (CrawlSiteText.text resp) = text
    /\ (100 <= String.length text)%nat.

End Properties.

(* ===================================================================== *)
(** * Notions used in the contracts *)
(* ===================================================================== *)

Module Contracts.
Import PyStr LangChain.

(** The number of requests that got a response. *)
Definition answered_count (outcomes : list (result Main.ChatResponse)) : nat :=
  length (omap (fun r => match r with
                         | inr response => Some response
                         | inl _ => None
                         end) outcomes).

(** The test a trimmed line must pass to stay in a cleaned response: it is
    not empty and holds none of the prompt-artifact phrases. *)
Definition kept_line (line : string) : bool :=
  truthy line
  && negb (any (fun phrase => contains phrase (lower line)) Main.artifact_phrases).

(** [c not in s] for the three markdown characters. *)
Definition markdown_free (s : string) : Prop :=
  Urllib.has_char "*" s = false
  /\ Urllib.has_char "_" s = false
  /\ Urllib.has_char "+" s = false.

(** A line that is not empty and that [strip] leaves as it is. *)
Definition trimmed (line : string) : Prop := line <> "" /\ strip line = line.

(** The lines [clean_ai_response] keeps of a response, before markdown
    characters are removed from them. *)
Definition kept_lines (response : string) : list string :=
  filter (fun line => kept_line line = true) (map strip (split_char nl response)).

(** Where a document comes from, as its metadata tells: a PDF of the corpus
    with a page number, or a page file of the corpus with its URL. *)
Definition provenance `{FaissApi} (d : Disk) (m : gmap string meta_value) : Prop :=
  (exists f, f ∈ pdf_files d /\ m !! "source" = Some (MStr (fst f))
             /\ m !! "type" = Some (MStr "pdf") /\ is_Some (m !! "page"))
  \/ (exists f, f ∈ txt_files d /\ m !! "source" = Some (MStr (fst f))
                /\ m !! "type" = Some (MStr "webpage") /\ is_Some (m !! "url")).

(** A PDF file that gives no document: the loader raised, or found no page. *)
Definition gives_no_page (PyPDFLoader_load : string -> string -> result (list Document))
    (f : string * string) : Prop :=
  match PyPDFLoader_load (fst f) (snd f) with
  | inr (_ :: _) => False
  | inr [] | inl _ => True
  end.

(** The path of the file the page store gives to a URL. *)
Definition page_path (url : string) : string :=
  CrawlSiteText.SAVE_DIR +:+ "/" +:+ Properties.page_file url.

(** The path of a file of the PDF store. *)
Definition pdf_path (name : string) : string :=
  DownloadPdfs.SAVE_DIR +:+ "/" +:+ name.

(** What a successful [download_pdf] leaves behind: one more manifest row,
    for [data] received with status 200 and within the size limit, under a
    non-empty file name; and either the hash of [data] was in the manifest
    under that name and no file is touched, or it was not and [data] is
    written to the file of that name, which holds no path separator. *)
Definition recorded (url source_page : string) (now : Z)
    (st st' : DownloadPdfs.Store) : Prop :=
  exists name data,
    let sha := DownloadPdfs.sha256_bytes data in
    DownloadPdfs.manifest st'
    = Some (default [] (DownloadPdfs.manifest st)
            ++ [DownloadPdfs.mkRow source_page url name
                  (Z.of_nat (String.length data)) sha 200 "" now])%list
    /\ (Z.of_nat (String.length data) <= DownloadPdfs.MAX_FILE_SIZE)%Z
    /\ name <> ""
    /\ ((DownloadPdfs.manifest_has_sha sha st = Some name
         /\ DownloadPdfs.files st' = DownloadPdfs.files st
         /\ DownloadPdfs.writes st' = DownloadPdfs.writes st)
        \/ ((DownloadPdfs.manifest_has_sha sha st = None
             \/ DownloadPdfs.manifest_has_sha sha st = Some "")
            /\ Urllib.has_char "/" name = false
            /\ DownloadPdfs.files st' = <[pdf_path name := data]> (DownloadPdfs.files st)
            /\ DownloadPdfs.writes st'
               = (DownloadPdfs.writes st ++ [pdf_path name])%list)).

(** Every file that the manifest names is in the store. *)
Definition manifest_files_exist (st : DownloadPdfs.Store) : bool :=
  forallb (fun row =>
             bool_decide (is_Some (DownloadPdfs.files st
                                     !! pdf_path (DownloadPdfs.saved_filename row))))
          (default [] (DownloadPdfs.manifest st)).

(** The URLs of a queue that a crawl will take off without fetching them:
    those seen before, in [seen] or earlier in the queue. *)
Fixpoint stale (seen : gset string) (q : list string) : nat :=
  match q with
  | [] => 0
  | x :: rest =>
      ((if bool_decide (x ∈ seen) then 1 else 0) + stale ({[x]} ∪ seen) rest)%nat
  end.

(** A bound on the turns that the PDF crawl has left: the pages still
    allowed and the stale URLs of the queue. *)
Definition turns_left (s : PdfDiscovery.Crawl) : nat :=
  (PdfDiscovery.MAX_CRAWL_PAGES - PdfDiscovery.pages s
   + stale (PdfDiscovery.visited s) (PdfDiscovery.q s))%nat.

(** What holds of the PDF crawl at every turn: the page budget is kept,
    [pages] counts the visited pages, every page seen or queued is a seed or
    passed the page filter, and every discovered triple has a link with the
    required prefix, a trimmed text, and a visited page. *)
Definition crawl_ok (seed_pages : list string) (s : PdfDiscovery.Crawl) : Prop :=
  (PdfDiscovery.pages s <= PdfDiscovery.MAX_CRAWL_PAGES)%nat
  /\ size (PdfDiscovery.visited s) = PdfDiscovery.pages s
  /\ (forall page,
        page ∈ PdfDiscovery.visited s \/ page ∈ PdfDiscovery.q s ->
        page ∈ seed_pages \/ DownloadPdfs.follows_page page = inr true)
  /\ (forall link text page,
        (link, text, page) ∈ PdfDiscovery.discovered s ->
        startswith PdfDiscovery.LINK_PREFIX link = true
        /\ strip text = text
        /\ page ∈ PdfDiscovery.visited s).

(** A text of at most [chunk_size] characters. *)
Definition fits (chunk_size : nat) (c : string) : Prop :=
  (String.length c <= chunk_size)%nat.

(** The state of the loop of [_merge_splits] while the pieces are short:
    [total] is the length of the pieces in [current_doc], which fit in a
    chunk together, and the documents emitted so far fit too. *)
Definition merging_fits (chunk_size : nat) (st : TextSplitter.merging) : Prop :=
  TextSplitter.total st = String.length (join "" (TextSplitter.current_doc st))
  /\ (TextSplitter.total st <= chunk_size)%nat
  /\ Forall (fits chunk_size) (TextSplitter.docs st).

(** What the loop of [_split_text] needs of its pieces for the size bound: a
    recursive call that keeps the bound, or, without a recursive call,
    pieces that are all below the chunk size. *)
Definition deeper_bounded (chunk_size : nat) (deeper : option (string -> list string))
    (pieces : list string) : Prop :=
  match deeper with
  | Some split =>
      forall s, Forall (fits chunk_size) (split s)
  | None => Forall (fun s => (String.length s < chunk_size)%nat) pieces
  end.

End Contracts.

(* ===================================================================== *)
(** * Concrete inputs *)
(* ===================================================================== *)

Module Inputs.
Import PyStr LangChain Main.

(** ** The service *)

(** A two-dimensional embedding that depends on the model name. *)
Definition toy_embed (model text : string) : list Z :=
  [Z.of_nat (String.length model); Z.of_nat (String.length text)].

#[export] Instance toy_faiss : FaissApi := faiss_model toy_embed.

Definition everyday : Document :=
  mkDocument "Everyday Account - a transaction account with no monthly fee"
             (<["source" := MStr "everyday.txt"]> ∅).

Definition loaded_store : faiss_store :=
  mkStore (mkEmbeddings "m") [toy_embed "m" (page_content everyday)] [everyday].

Definition no_disk : Disk := mkDisk _ [] [] ∅.

(** A process whose index is loaded and that has served nothing yet. *)
Definition fresh : Globals :=
  mkGlobals (Some (mkEmbeddings "m")) (Some loaded_store) ∅ [].

(** A lookup of the index that serves the store the process holds, raises
    when it holds none, and changes no global. *)
Definition cached_store (_ : Disk) (g : Globals) : result VectorStore * Globals :=
  match _vectorstore g with
  | Some vectorstore => (ret vectorstore, g)
  | None => (raise (RuntimeError "no index loaded"), g)
  end.

Definition hf_ok (_ : string) : option exn := None.
Definition groq_down (_ : nat) (_ : string) : result string :=
  raise (OtherException "connection refused").
Definition groq_echo (n : nat) (_ : string) : result string :=
  ret (if (n =? 0)%nat then "**First** reply" else "Second reply").

Definition ask (cid q : string) : ChatRequest := mkChatRequest cid q.

Definition three_requests : list ChatRequest :=
  [ask "c1" "first"; ask "c2" "other"; ask "c1" "second"].

(** ** Two seed pages with the same text *)

Definition page_body : string :=
  "Everyday banking made simple. Compare our transaction accounts, " ++
  "see the monthly account fee and find out how to open an account online.".

Definition seed1 : string := "https://www.commbank.com.au/personal.html".
Definition seed2 : string := "https://www.commbank.com.au/personal/accounts.html".

(** The site answers the first two seeds with the same page, the rest with 404. *)
Definition same_page (url : string) : result CrawlSiteText.Response :=
  if String.eqb url seed1 || String.eqb url seed2
  then ret (CrawlSiteText.mkResponse 200 "text/html; charset=utf-8" page_body)
  else ret (CrawlSiteText.mkResponse 404 "text/html" "").

Definition no_anchors (_ _ : string) : list string := [].

Definition empty_pages : CrawlSiteText.Store := CrawlSiteText.mkStore ∅ [] None.

Definition crawled : option CrawlSiteText.CrawlState :=
  CrawlSiteText.crawl_loop Urllib.urlparse same_page strip no_anchors
    (length CrawlSiteText.SEED_PAGES) (CrawlSiteText.crawl_start empty_pages).

(** ** Two PDF links with the same bytes *)

Definition pdf1 : string :=
  "https://www.commbank.com.au/content/dam/commbank-assets/banking/2023-10/credit-card-fees-charges.pdf".
Definition pdf2 : string :=
  "https://www.commbank.com.au/content/dam/commbank-assets/banking/2023-10/transaction-savings-fees-charges.pdf".

Definition head_ok (_ : string) : result DownloadPdfs.HeadResponse :=
  ret (DownloadPdfs.mkHead 200 (DownloadPdfs.Length 21)).
Definition same_pdf (_ : string) (_ : nat) : result DownloadPdfs.GetResponse :=
  ret (DownloadPdfs.mkGet 200 ["%PDF-1.4 "; ""; "fee schedule"] None).

Definition empty_pdfs : DownloadPdfs.Store := DownloadPdfs.mkStore ∅ [] None.

Definition pdf_rounds : DownloadPdfs.Store :=
  let st1 := snd (DownloadPdfs.download_pdf head_ok same_pdf pdf1 "working_list"
                    1700000000 empty_pdfs) in
  snd (DownloadPdfs.download_pdf head_ok same_pdf pdf2 "working_list" 1700000001 st1).

Definition page_rounds : CrawlSiteText.Store :=
  let start := CrawlSiteText.crawl_start empty_pages in
  let c1 := CrawlSiteText.fetch_and_save Urllib.urlparse same_page strip no_anchors
              seed1 start in
  CrawlSiteText.store
    (CrawlSiteText.fetch_and_save Urllib.urlparse same_page strip no_anchors seed2 c1).

(** ** The index build *)

Definition no_pdf (_ _ : string) : result (list Document) :=
  raise (OtherException "not a PDF").

(** The page file that the crawler writes for the first seed. *)
Definition page_file_name : string := "332477c367217259.txt".
Definition page_file_content : string :=
  seed1 +:+ NL +:+ NL +:+ page_body.

Definition corpus : Disk := mkDisk _ [] [(page_file_name, page_file_content)] ∅.
Definition empty_corpus : Disk := mkDisk _ [] [] ∅.
Definition blank_corpus : Disk := mkDisk _ [] [("blank.txt", "   ")] ∅.

Definition build (d : Disk) : Embed.build_outcome * Disk * Embed.log :=
  Embed.create_embeddings no_pdf TextSplitter.split_text hf_ok d.

Definition page_document : Document :=
  mkDocument (NL +:+ page_body)
    (<["source" := MStr page_file_name]>
       (<["url" := MStr seed1]> (<["type" := MStr "webpage"]> ∅))).

Definition page_chunk : Document :=
  mkDocument page_body (metadata page_document).

Definition other_model : string := "sentence-transformers/paraphrase-MiniLM-L6-v2".

Definition built_disk : Disk := snd (fst (build corpus)).

Definition cold : Main.Globals := Main.mkGlobals None None ∅ [].

Definition built_store : faiss_store :=
  mkStore (mkEmbeddings Embed.EMBEDDING_MODEL)
          [toy_embed Embed.EMBEDDING_MODEL page_body]
          [page_chunk].

Definition mismatched_store : faiss_store :=
  mkStore (mkEmbeddings other_model)
          [toy_embed Embed.EMBEDDING_MODEL page_body]
          [page_chunk].

End Inputs.

(* ===================================================================== *)
(** * More concrete inputs *)
(* ===================================================================== *)

Module Scenarios.
Import PyStr LangChain Main Inputs.

(** A reply without markdown characters: padded lines, a blank line, and a
    line that repeats a prompt label. *)
Definition plain_reply : string :=
  "  Everyday Account  " +:+ NL +:+ NL +:+ "AI: here is the answer" +:+ NL
  +:+ "No monthly fee".

(** The PDF store after the first of the two downloads of [pdf_rounds]. *)
Definition one_pdf : DownloadPdfs.Store :=
  snd (DownloadPdfs.download_pdf head_ok same_pdf pdf1 "working_list"
         1700000000 empty_pdfs).

End Scenarios.

(* ===================================================================== *)
(** * Facts about the hash *)
(* ===================================================================== *)

Module Sha256Facts.

(** The digests of the empty message and of two messages of the standard. *)
Example hexdigest_empty :
  Sha256.hexdigest "" = "e3b0c44298fc1c149afbf4c8996fb92427ae41e4649b934ca495991b7852b855".
Proof. vm_compute. reflexivity. Qed.

Example hexdigest_abc :
  Sha256.hexdigest "abc" = "ba7816bf8f01cfea414140de5dae2223b00361a396177a9cb410ff61f20015ad".
Proof. vm_compute. reflexivity. Qed.

Example hexdigest_two_blocks :
  Sha256.hexdigest "abcdbcdecdefdefgefghfghighijhijkijkljklmklmnlmnomnopnopq"
  = "248d6a61d20638b8e5c026930c3e6039a33ce45964ff2167f6ecedd419db06c1".
Proof. vm_compute. reflexivity. Qed.

End Sha256Facts.

(* ===================================================================== *)
(** * Facts about strings *)
(* ===================================================================== *)

Module StrFacts.
Import PyStr.

Lemma str_app_cons (c : ascii) (a b : string) : String c a +:+ b = String c (a +:+ b).
Proof. reflexivity. Qed.

Lemma str_app_nil_l (s : string) : "" +:+ s = s.
Proof. reflexivity. Qed.

Lemma str_app_nil_r (s : string) : s +:+ "" = s.
Proof. induction s as [|c s IH]; [done|]. by rewrite str_app_cons, IH. Qed.

Lemma str_app_assoc (a b c : string) : (a +:+ b) +:+ c = a +:+ (b +:+ c).
Proof. induction a as [|x a IH]; [done|]. by rewrite !str_app_cons, IH. Qed.

Lemma str_length_app (a b : string) :
  String.length (a +:+ b) = (String.length a + String.length b)%nat.
Proof. induction a as [|x a IH]; [done|]. rewrite str_app_cons. simpl. by rewrite IH. Qed.

Lemma truthy_false (s : string) : truthy s = false -> s = "".
Proof. by destruct s. Qed.

Lemma truthy_true (s : string) : truthy s = true -> s <> "".
Proof. by destruct s. Qed.

Lemma join_cons (x : string) (l : list string) : join "" (x :: l) = x +:+ join "" l.
Proof. destruct l; simpl; [by rewrite str_app_nil_r|done]. Qed.

Lemma join_app (l1 l2 : list string) : join "" (l1 ++ l2) = join "" l1 +:+ join "" l2.
Proof.
  induction l1 as [|x l1 IH]; [done|].
  rewrite <- app_comm_cons, !join_cons, IH. by rewrite str_app_assoc.
Qed.

(** ** Trimming *)

Lemma lstrip_suffix (s : string) : exists pre, s = pre +:+ lstrip s.
Proof.
  induction s as [|c s [pre IH]]; simpl; [by exists ""|].
  destruct (isspace c).
  - exists (String c pre). by rewrite str_app_cons, <- IH.
  - by exists "".
Qed.

Lemma rstrip_prefix (s : string) : exists post, s = rstrip s +:+ post.
Proof.
  induction s as [|c s [post IH]]; simpl; [by exists ""|].
  destruct (rstrip s) as [|d r] eqn:Hr.
  - destruct (isspace c).
    + by exists (String c s).
    + exists s. by rewrite str_app_cons.
  - exists post. by rewrite str_app_cons, <- IH.
Qed.

Lemma strip_infix (s : string) : exists pre post, s = pre +:+ strip s +:+ post.
Proof.
  destruct (lstrip_suffix s) as [pre Hpre].
  destruct (rstrip_prefix (lstrip s)) as [post Hpost].
  exists pre, post. unfold strip. by rewrite <- Hpost.
Qed.

Lemma rstrip_idem (s : string) : rstrip (rstrip s) = rstrip s.
Proof.
  induction s as [|c s IH]; simpl; [done|].
  destruct (rstrip s) as [|d r] eqn:Hr.
  - destruct (isspace c) eqn:Hc; simpl; [done|by rewrite Hc].
  - simpl in *. by rewrite IH.
Qed.

Lemma lstrip_fixed (c : ascii) (s : string) :
  isspace c = false -> lstrip (String c s) = String c s.
Proof. intros Hc. simpl. by rewrite Hc. Qed.

Lemma rstrip_head (c : ascii) (s : string) :
  isspace c = false -> exists r, rstrip (String c s) = String c r.
Proof.
  intros Hc. simpl. destruct (rstrip s); [rewrite Hc|]; eauto.
Qed.

Lemma lstrip_head (s : string) :
  lstrip s = "" \/ exists c r, lstrip s = String c r /\ isspace c = false.
Proof.
  induction s as [|c s IH]; simpl; [by left|].
  destruct (isspace c) eqn:Hc; [done|]. right. eauto.
Qed.

Lemma strip_idem (s : string) : strip (strip s) = strip s.
Proof.
  unfold strip.
  destruct (lstrip_head s) as [->|(c & r & -> & Hc)]; [done|].
  destruct (rstrip_head c r Hc) as [r' Hr].
  rewrite Hr, (lstrip_fixed c r' Hc), <- Hr. apply rstrip_idem.
Qed.

End StrFacts.

(* ===================================================================== *)
(** * Facts about the splitter *)
(* ===================================================================== *)

Module TextSplitterFacts.
Import PyStr StrFacts TextSplitter Properties.

(** ** The pieces of a text concatenate back to it *)

Lemma join_push (c : ascii) (pieces : list string) :
  join "" (push c pieces) = String c (join "" pieces).
Proof.
  destruct pieces as [|piece rest]; [done|].
  unfold push. by rewrite !join_cons, str_app_cons.
Qed.

Lemma join_split_keep (sep : string) (s : string) :
  forall skip, join "" (split_keep sep skip s) = s.
Proof.
  induction s as [|c s IH]; intros skip; [done|].
  cbn [split_keep]. destruct skip as [|k].
  - destruct (startswith sep (String c s)).
    + by rewrite join_cons, str_app_nil_l, join_push, IH.
    + by rewrite join_push, IH.
  - by rewrite join_push, IH.
Qed.

Lemma join_chars (s : string) : join "" (chars s) = s.
Proof.
  induction s as [|c s IH]; [done|].
  cbn [chars]. by rewrite join_cons, str_app_cons, str_app_nil_l, IH.
Qed.

Lemma join_filter_truthy (l : list string) :
  join "" (filter (fun s => truthy s = true) l) = join "" l.
Proof.
  induction l as [|x l IH]; [done|].
  rewrite filter_cons, (join_cons x l). destruct x as [|c x].
  - rewrite decide_False by done. by rewrite IH.
  - rewrite decide_True by done. by rewrite join_cons, IH.
Qed.

Lemma join_split_regex (text separator : string) :
  join "" (_split_text_with_regex text separator) = text.
Proof.
  unfold _split_text_with_regex. rewrite join_filter_truthy.
  destruct separator; [apply join_chars|apply join_split_keep].
Qed.

Lemma length_piece_le (l : list string) :
  Forall (fun s => (String.length s <= String.length (join "" l))%nat) l.
Proof.
  induction l as [|x l IH]; [done|].
  rewrite join_cons, str_length_app. constructor; [lia|].
  eapply Forall_impl; [exact IH|]. simpl. intros; lia.
Qed.

Lemma chars_length (s : string) :
  Forall (fun piece => String.length piece = 1%nat) (chars s).
Proof. induction s; constructor; auto. Qed.

(** ** A text shorter than the chunk size *)

Section Short.
Variable chunk_size : nat.
Variable chunk_overlap : nat.

Local Abbreviation merge_step := (TextSplitter.merge_step chunk_size chunk_overlap).
Local Abbreviation _merge_splits := (TextSplitter._merge_splits chunk_size chunk_overlap).
Local Abbreviation piece_step := (TextSplitter.piece_step chunk_size chunk_overlap).
Local Abbreviation split_at := (TextSplitter.split_at chunk_size chunk_overlap).
Local Abbreviation _split_text := (TextSplitter._split_text chunk_size chunk_overlap).

Lemma with_sep_empty (threshold : nat) (current_doc : list string) :
  with_sep (String.length "") threshold current_doc = 0%nat.
Proof. unfold with_sep. by destruct (_ <? _)%nat. Qed.

(** While the pieces fit, the loop only appends them to [current_doc]. *)
Lemma merge_fold_fits (splits : list string) : forall st,
  (total st + String.length (join "" splits) <= chunk_size)%nat ->
  fold_left (merge_step "") splits st =
  mkMerging (docs st) (current_doc st ++ splits)
            (total st + String.length (join "" splits)).
Proof.
  induction splits as [|d splits IH]; intros st Hfit.
  - simpl. rewrite app_nil_r, Nat.add_0_r. by destruct st.
  - rewrite join_cons, str_length_app in Hfit.
    cbn [fold_left]. unfold TextSplitter.merge_step at 2.
    rewrite !with_sep_empty, Nat.add_0_r.
    destruct (chunk_size <? total st + String.length d)%nat eqn:Hover;
      [apply Nat.ltb_lt in Hover; lia|].
    rewrite IH; cbn [docs current_doc total]; [|lia].
    rewrite join_cons, str_length_app, <- app_assoc. f_equal. lia.
Qed.

Lemma merge_splits_fits (splits : list string) :
  (String.length (join "" splits) <= chunk_size)%nat ->
  _merge_splits splits "" = emit [] (_join_docs splits "").
Proof.
  intros Hfit. unfold TextSplitter._merge_splits.
  by rewrite merge_fold_fits.
Qed.

Lemma piece_fold_good deeper (splits : list string) : forall final_chunks good_splits,
  Forall (fun s => (String.length s < chunk_size)%nat) splits ->
  fold_left (piece_step deeper) splits (final_chunks, good_splits)
  = (final_chunks, (good_splits ++ splits)%list).
Proof.
  induction splits as [|s splits IH]; intros final_chunks good_splits Hgood.
  - by rewrite app_nil_r.
  - inversion Hgood as [|? ? Hs Hrest]; subst.
    cbn [fold_left]. unfold TextSplitter.piece_step at 2.
    apply Nat.ltb_lt in Hs. rewrite Hs, IH by done. by rewrite <- app_assoc.
Qed.

Lemma split_at_short separator deeper (text : string) :
  (String.length text < chunk_size)%nat ->
  split_at separator deeper text = emit [] (_join_docs [text] "").
Proof.
  intros Hshort. unfold TextSplitter.split_at.
  pose proof (join_split_regex text separator) as Hjoin.
  pose proof (length_piece_le (_split_text_with_regex text separator)) as Hlen.
  rewrite Hjoin in Hlen.
  rewrite piece_fold_good
    by (eapply Forall_impl; [exact Hlen|]; simpl; intros; lia).
  rewrite app_nil_l.
  destruct (_split_text_with_regex text separator) as [|piece pieces] eqn:Hpieces.
  - simpl in Hjoin. subst text. done.
  - unfold flush. rewrite app_nil_l, merge_splits_fits by (rewrite Hjoin; lia).
    unfold _join_docs. by rewrite Hjoin.
Qed.

(** A text shorter than the chunk size comes back as one chunk, trimmed;
    a blank text gives no chunk. *)
Lemma split_text_short (separators : list string) (text : string) :
  separators <> [] ->
  (String.length text < chunk_size)%nat ->
  _split_text separators text = if truthy (strip text) then [strip text] else [].
Proof.
  intros Hne Hshort.
  assert (Hat : forall separator deeper,
             split_at separator deeper text
             = if truthy (strip text) then [strip text] else []).
  { intros. rewrite split_at_short by done. unfold _join_docs.
    change (join "" [text]) with text. by destruct (truthy (strip text)). }
  induction separators as [|s rest IH]; [done|].
  cbn [TextSplitter._split_text].
  destruct (negb (truthy s)); [apply Hat|].
  destruct (contains s text); [apply Hat|].
  destruct rest as [|s' rest']; [apply Hat|]. by apply IH.
Qed.

End Short.

(** ** Chunks are trimmed windows of the text, from left to right *)

Lemma windows_le lo hi chunks text : windows lo hi chunks text -> (lo <= hi)%nat.
Proof.
  revert lo. induction chunks as [|c cs IH]; intros lo; simpl; [done|].
  intros (p & w & Hlo & _ & _ & _ & Hrest). apply IH in Hrest. lia.
Qed.

Lemma windows_weaken lo lo' hi hi' chunks text :
  (lo' <= lo)%nat -> (hi <= hi')%nat ->
  windows lo hi chunks text -> windows lo' hi' chunks text.
Proof.
  revert lo lo'. induction chunks as [|c cs IH]; intros lo lo' Hlo Hhi; simpl.
  - lia.
  - intros (p & w & Hp & Hocc & Hc & Hne & Hrest).
    exists p, w. repeat split; try done; [lia|]. by apply (IH p p).
Qed.

Lemma windows_app lo mid hi cs1 cs2 text :
  windows lo mid cs1 text -> windows mid hi cs2 text ->
  windows lo hi (cs1 ++ cs2) text.
Proof.
  revert lo. induction cs1 as [|c cs1 IH]; intros lo; simpl.
  - intros Hlo H2. by apply (windows_weaken mid lo hi hi).
  - intros (p & w & Hp & Hocc & Hc & Hne & Hrest) H2.
    exists p, w. repeat split; try done. by apply IH.
Qed.

Lemma occurs_at_shift pre post p w piece :
  occurs_at p w piece ->
  occurs_at (String.length pre + p) w (pre +:+ piece +:+ post).
Proof.
  intros (a & b & -> & <-). exists (pre +:+ a), (b +:+ post).
  by rewrite str_length_app, !str_app_assoc.
Qed.

Lemma windows_shift pre post lo hi chunks piece :
  windows lo hi chunks piece ->
  windows (String.length pre + lo) (String.length pre + hi) chunks
          (pre +:+ piece +:+ post).
Proof.
  revert lo. induction chunks as [|c cs IH]; intros lo; simpl; [lia|].
  intros (p & w & Hp & Hocc & Hc & Hne & Hrest).
  exists (String.length pre + p)%nat, w.
  repeat split; try done; [lia|by apply occurs_at_shift|by apply IH].
Qed.

Lemma windows_snoc lo p chunks w text :
  windows lo p chunks text -> occurs_at p w text -> strip w <> "" ->
  windows lo p (chunks ++ [strip w]) text.
Proof.
  intros Hchunks Hocc Hne. apply (windows_app lo p p); [done|].
  simpl. exists p, w. by repeat split.
Qed.

Lemma occurs_at_join (before cur rest : list string) :
  occurs_at (String.length (join "" before)) (join "" cur)
            (join "" (before ++ cur ++ rest)).
Proof. exists (join "" before), (join "" rest). by rewrite !join_app. Qed.

(** The chunks of a trimmed window list are non-empty, trimmed, and
    contiguous parts of the text. *)
Lemma windows_chunks lo hi chunks text :
  windows lo hi chunks text ->
  Forall (fun c => c <> "" /\ strip c = c
                   /\ exists pre post, text = pre +:+ c +:+ post) chunks.
Proof.
  revert lo. induction chunks as [|c cs IH]; intros lo; simpl; [done|].
  intros (p & w & _ & (a & b & Htext & _) & -> & Hne & Hrest).
  constructor; [|by eapply IH].
  split; [done|]. split; [apply strip_idem|].
  destruct (strip_infix w) as (pre & post & Hw).
  exists (a +:+ pre), (post +:+ b).
  rewrite Htext. rewrite Hw at 1. by rewrite !str_app_assoc.
Qed.

Section Windows.
Variable chunk_size : nat.
Variable chunk_overlap : nat.

Local Abbreviation pop_front := (TextSplitter.pop_front chunk_size chunk_overlap).
Local Abbreviation merge_step := (TextSplitter.merge_step chunk_size chunk_overlap).
Local Abbreviation _merge_splits := (TextSplitter._merge_splits chunk_size chunk_overlap).
Local Abbreviation piece_step := (TextSplitter.piece_step chunk_size chunk_overlap).
Local Abbreviation flush := (TextSplitter.flush chunk_size chunk_overlap).
Local Abbreviation split_at := (TextSplitter.split_at chunk_size chunk_overlap).
Local Abbreviation _split_text := (TextSplitter._split_text chunk_size chunk_overlap).
Local Abbreviation deeper_ok := (Properties.deeper_ok chunk_size).

Lemma pop_front_suffix len sep_len (current_doc : list string) : forall total,
  exists dropped,
    current_doc = (dropped ++ fst (pop_front len sep_len current_doc total))%list.
Proof.
  induction current_doc as [|piece rest IH]; intros total; [by exists []|].
  cbn [TextSplitter.pop_front].
  destruct (_ || _).
  - destruct (IH (total - (String.length piece
                            + with_sep sep_len 1 (piece :: rest)))%nat)
      as [dropped Hd].
    exists (piece :: dropped). by rewrite <- app_comm_cons, <- Hd.
  - by exists [].
Qed.

Lemma emit_windows before cur rest (docs : list string) :
  let text := join "" (before ++ cur ++ rest) in
  windows 0 (String.length (join "" before)) docs text ->
  windows 0 (String.length (join "" before)) (emit docs (_join_docs cur "")) text.
Proof.
  cbv zeta. intros Hdocs. unfold _join_docs.
  destruct (truthy (strip (join "" cur))) eqn:Htext; [|done].
  apply windows_snoc; [done|apply occurs_at_join|by apply truthy_true].
Qed.

(** One step of the loop keeps a suffix of [current_doc], adds the new
    piece to it, and emits at most the document joined from [current_doc]. *)
Lemma merge_step_shape (st : merging) (d : string) :
  exists dropped kept docs' total',
    current_doc st = (dropped ++ kept)%list
    /\ merge_step "" st d = mkMerging docs' (kept ++ [d])%list total'
    /\ (docs' = docs st \/ docs' = emit (docs st) (_join_docs (current_doc st) "")).
Proof.
  unfold TextSplitter.merge_step.
  destruct (chunk_size <? _)%nat; [destruct (current_doc st) as [|x xs] eqn:Hcur|].
  - exists [], []. rewrite Hcur. eauto 10.
  - destruct (pop_front_suffix (String.length d) (String.length "") (x :: xs) (total st))
      as [dropped Hdrop].
    destruct (pop_front (String.length d) (String.length "") (x :: xs) (total st))
      as [kept total'].
    exists dropped, kept. cbn [fst docs current_doc total] in *. eauto 10.
  - exists [], (current_doc st). eauto 10.
Qed.

(** The loop of [_merge_splits]: the pieces in [current_doc] are the last
    ones taken, and the documents emitted so far are windows that start
    no later than [current_doc] does. *)
Lemma merge_fold_windows (remaining : list string) : forall st before,
  let text := join "" (before ++ current_doc st ++ remaining) in
  windows 0 (String.length (join "" before)) (docs st) text ->
  exists before',
    text = join "" (before' ++ current_doc (fold_left (merge_step "") remaining st))
    /\ windows 0 (String.length (join "" before'))
               (docs (fold_left (merge_step "") remaining st)) text.
Proof.
  induction remaining as [|d remaining IH]; intros st before; cbv zeta.
  - rewrite app_nil_r. intros Hdocs. by exists before.
  - intros Hdocs. cbn [fold_left].
    destruct (merge_step_shape st d)
      as (dropped & kept & docs' & total' & Hcur & Hstep & Hdocs').
    rewrite Hstep.
    assert (Htext : (before ++ current_doc st ++ d :: remaining
                     = (before ++ dropped) ++ (kept ++ [d]) ++ remaining)%list).
    { rewrite Hcur, <- !app_assoc. done. }
    rewrite Htext.
    apply (IH (mkMerging docs' (kept ++ [d])%list total') (before ++ dropped)%list).
    cbn [docs current_doc]. rewrite <- Htext.
    apply (windows_weaken 0 0 (String.length (join "" before))); [lia| |].
    + rewrite join_app, str_length_app. lia.
    + destruct Hdocs' as [->| ->]; [done|]. by apply emit_windows.
Qed.

Lemma merge_splits_windows (splits : list string) :
  windows 0 (String.length (join "" splits)) (_merge_splits splits "") (join "" splits).
Proof.
  unfold TextSplitter._merge_splits.
  destruct (merge_fold_windows splits (mkMerging [] [] 0) []) as (before' & Htext & Hdocs).
  { simpl. lia. }
  cbn [current_doc app] in Htext, Hdocs.
  set (st := fold_left (merge_step "") splits (mkMerging [] [] 0)) in *.
  apply (windows_weaken 0 0 (String.length (join "" before'))); [lia| |].
  - rewrite Htext, join_app, str_length_app. lia.
  - pose proof (emit_windows before' (current_doc st) [] (docs st)) as Hemit.
    cbv zeta in Hemit. rewrite app_nil_r, <- Htext in Hemit. by apply Hemit.
Qed.

Lemma flush_windows before good rest (final_chunks : list string) :
  let text := join "" (before ++ good ++ rest) in
  windows 0 (String.length (join "" before)) final_chunks text ->
  windows 0 (String.length (join "" (before ++ good))) (flush final_chunks good) text.
Proof.
  cbv zeta. intros Hfinal. destruct good as [|g good].
  - cbn [TextSplitter.flush]. by rewrite app_nil_r.
  - cbn [TextSplitter.flush].
    apply (windows_app 0 (String.length (join "" before))); [done|].
    rewrite !join_app, str_length_app.
    rewrite <- (Nat.add_0_r (String.length (join "" before))) at 1.
    apply windows_shift, merge_splits_windows.
Qed.

Lemma piece_fold_windows deeper (remaining : list string) :
  forall final_chunks good before,
    let text := join "" (before ++ good ++ remaining) in
    let result := fold_left (piece_step deeper) remaining (final_chunks, good) in
    deeper_ok deeper remaining ->
    windows 0 (String.length (join "" before)) final_chunks text ->
    exists before',
      text = join "" (before' ++ snd result)
      /\ windows 0 (String.length (join "" before')) (fst result) text.
Proof.
  induction remaining as [|s remaining IH]; intros final_chunks good before; cbv zeta.
  - rewrite app_nil_r. intros _ Hfinal. by exists before.
  - intros Hdeeper Hfinal. cbn [fold_left].
    unfold TextSplitter.piece_step at 2 4.
    destruct (String.length s <? chunk_size)%nat eqn:Hs.
    + assert (Htext : (before ++ good ++ s :: remaining
                       = before ++ (good ++ [s]) ++ remaining)%list)
        by (by rewrite <- !app_assoc).
      rewrite Htext. apply IH; [|by rewrite <- Htext].
      destruct deeper; [done|]. by inversion Hdeeper.
    + destruct deeper as [split|].
      * assert (Htext : (before ++ good ++ s :: remaining
                         = (before ++ good ++ [s]) ++ [] ++ remaining)%list)
          by (by rewrite <- !app_assoc).
        rewrite Htext. apply IH; [done|]. rewrite <- Htext.
        apply (windows_app 0 (String.length (join "" (before ++ good)%list))).
        { by apply flush_windows. }
        replace (before ++ good ++ [s])%list with ((before ++ good) ++ [s])%list
          by (by rewrite <- app_assoc).
        replace (before ++ good ++ s :: remaining)%list
          with ((before ++ good) ++ [s] ++ remaining)%list
          by (by rewrite <- app_assoc).
        rewrite (join_app (before ++ good) [s]), str_length_app.
        rewrite (join_app (before ++ good)), (join_app [s]).
        change (join "" [s]) with s.
        rewrite <- (Nat.add_0_r (String.length (join "" (before ++ good)%list))) at 1.
        apply windows_shift, Hdeeper.
      * inversion Hdeeper as [|? ? Hsmall]; subst.
        apply Nat.ltb_ge in Hs. lia.
Qed.

Lemma split_at_windows separator deeper (text : string) :
  deeper_ok deeper (_split_text_with_regex text separator) ->
  windows 0 (String.length text) (split_at separator deeper text) text.
Proof.
  intros Hdeeper. unfold TextSplitter.split_at.
  destruct (piece_fold_windows deeper (_split_text_with_regex text separator)
              [] [] [] Hdeeper) as (before' & Htext & Hfinal).
  { simpl. lia. }
  cbn [app] in Htext, Hfinal. rewrite join_split_regex in Htext, Hfinal.
  destruct (fold_left (piece_step deeper) _ _) as [final_chunks good].
  cbn [fst snd] in *.
  pose proof (flush_windows before' good [] final_chunks) as Hflush.
  cbv zeta in Hflush. rewrite app_nil_r, <- Htext in Hflush.
  by apply Hflush.
Qed.

(** With a separator list that ends in the empty separator and a chunk
    size above one, every text is cut into trimmed windows in left-to-right
    order. *)
Lemma split_text_windows (separators : list string) :
  last separators = Some "" ->
  (1 < chunk_size)%nat ->
  forall text, windows 0 (String.length text) (_split_text separators text) text.
Proof.
  intros Hlast Hsize.
  induction separators as [|s rest IH]; [done|]. intros text.
  cbn [TextSplitter._split_text].
  destruct (truthy s) eqn:Hs; cbn [negb].
  - assert (Hrest : exists s' rest', rest = s' :: rest').
    { destruct rest as [|s' rest']; [|eauto].
      simpl in Hlast. inversion Hlast; subst. discriminate. }
    destruct Hrest as (s' & rest' & ->).
    rewrite last_cons_cons in Hlast. specialize (IH Hlast).
    destruct (contains s text); [|apply IH].
    apply split_at_windows. exact IH.
  - apply truthy_false in Hs. subst s.
    apply split_at_windows. cbn [Properties.deeper_ok].
    unfold _split_text_with_regex. apply Forall_forall. intros piece Hpiece.
    apply list_elem_of_filter in Hpiece as [_ Hpiece].
    pose proof (chars_length text) as Hchars.
    rewrite Forall_forall in Hchars. rewrite (Hchars piece Hpiece). lia.
Qed.

End Windows.

End TextSplitterFacts.

(* ===================================================================== *)
(** * Facts about chunking *)
(* ===================================================================== *)

Module ChunkFacts.
Import PyStr StrFacts LangChain Properties TextSplitterFacts.

Lemma chunk_documents_texts (doc : Document) :
  map page_content (chunk_documents [doc])
  = TextSplitter.split_text Embed.CHUNK_SIZE Embed.CHUNK_OVERLAP
      [NL +:+ NL; NL; ". "; " "; ""] (page_content doc).
Proof.
  unfold chunk_documents, Embed.chunk_documents, Embed.split_documents.
  cbn [map concat]. rewrite app_nil_r, map_map. cbn [page_content]. apply map_id.
Qed.


End ChunkFacts.

(* ===================================================================== *)
(** * Facts about backend/app/main.py *)
(* ===================================================================== *)

Module MainFacts.
Import PyStr LangChain Main.

(** ** Response post-processing *)

(** C8.  The markdown characters are removed after the line was trimmed and
    tested: a line made of such characters leaves a blank line in the
    result, a bullet line keeps the blank that followed its bullet, and a
    line that only matches the phrase [ai:] once its underscore is gone
    stays in the result. *)
Theorem clean_ai_response_leaves_blank_and_untrimmed_lines :
  clean_ai_response ("a" +:+ NL +:+ "***" +:+ NL +:+ "b")
  = "a" +:+ NL +:+ NL +:+ "b"
  /\ clean_ai_response ("Accounts" +:+ NL +:+ "* Smart Access" +:+ NL +:+ "Done")
    = "Accounts" +:+ NL +:+ " Smart Access" +:+ NL +:+ "Done"
  /\ clean_ai_response ("Intro" +:+ NL +:+ "a_i: see the list" +:+ NL +:+ "End")
    = "Intro" +:+ NL +:+ "ai: see the list" +:+ NL +:+ "End".
Proof. vm_compute. repeat split; reflexivity. Qed.

(** ** The handler *)

Section Service.
Context `{FaissApi}.
Variable GROQ_API_KEY : option string.
Variable groq_invoke : nat -> string -> result string.
Variable get_vectorstore : Disk -> Globals -> result VectorStore * Globals.

(** No line of the text of [get_embeddings] and [get_vectorstore] (lines
    69-99) names [_conversations] or the Groq client: whatever the call
    [get_vectorstore()] does, it leaves the conversations as they are and
    sends no prompt. *)
Hypothesis get_vectorstore_frame : forall d g r g',
  get_vectorstore d g = (r, g') ->
  _conversations g' = _conversations g /\ groq_calls g' = groq_calls g.

Local Abbreviation has_key := (Main.has_key GROQ_API_KEY).
Local Abbreviation generate_ai_response :=
  (Main.generate_ai_response GROQ_API_KEY groq_invoke).
Local Abbreviation chat := (Main.chat GROQ_API_KEY groq_invoke get_vectorstore).
Local Abbreviation serve := (Main.serve GROQ_API_KEY groq_invoke get_vectorstore).

Lemma append_turn_lookup cid t (c : gmap string (list Turn)) cid' :
  append_turn cid t c !! cid' =
  if decide (cid = cid') then Some (default [] (c !! cid) ++ [t])%list else c !! cid'.
Proof.
  unfold append_turn.
  destruct (c !! cid) as [old|] eqn:Hc; case_decide; subst; simplify_map_eq; auto.
Qed.

Lemma generate_ai_response_frame cid q ctx g :
  _conversations (snd (generate_ai_response cid q ctx g)) = _conversations g.
Proof.
  unfold generate_ai_response.
  destruct (negb has_key); [done|].
  by destruct (groq_invoke _ _).
Qed.

(** What one request does to the conversation table. *)
Lemma chat_conversations d request g r g' :
  chat d request g = (r, g') ->
  _conversations g' =
  match r with
  | inr response =>
      append_turn (conversation_id request)
        (mkTurn (query request) (answer response)) (_conversations g)
  | inl _ => _conversations g
  end.
Proof.
  unfold chat. intros Hc.
  destruct (get_vectorstore d g) as [rv gv] eqn:Hv.
  apply get_vectorstore_frame in Hv as (Hconv & _).
  destruct rv as [e|vs]; [by inversion Hc; subst|].
  destruct (similarity_search vs (query request) 8) as [e|docs];
    [by inversion Hc; subst|].
  pose proof (generate_ai_response_frame (conversation_id request) (query request)
                (join NL (map page_content docs)) gv) as Hgen.
  destruct (generate_ai_response _ _ _ gv) as [a ga].
  inversion Hc; subst; simpl in *. by rewrite Hgen, Hconv.
Qed.

Lemma serve_history d requests : forall g cid,
  history (snd (serve d requests g)) cid =
  (history g cid ++ map turn_of (answered_on cid requests (fst (serve d requests g))))%list.
Proof.
  induction requests as [|request rest IH]; intros g cid; simpl.
  - by rewrite app_nil_r.
  - destruct (chat d request g) as [r g1] eqn:Hchat.
    specialize (IH g1 cid).
    destruct (serve d rest g1) as [rs g2] eqn:Hserve; simpl in *.
    rewrite IH. apply chat_conversations in Hchat.
    unfold history. rewrite Hchat.
    destruct r as [e|response]; [done|].
    rewrite append_turn_lookup.
    case_decide; simpl; [|done].
    subst cid. unfold turn_of. simpl. by rewrite <- app_assoc.
Qed.

Lemma serve_lazy d requests : forall g cid,
  answered_on cid requests (fst (serve d requests g)) = [] ->
  _conversations (snd (serve d requests g)) !! cid = _conversations g !! cid.
Proof.
  induction requests as [|request rest IH]; intros g cid; simpl; [done|].
  destruct (chat d request g) as [r g1] eqn:Hchat.
  specialize (IH g1 cid).
  destruct (serve d rest g1) as [rs g2] eqn:Hserve; simpl in *.
  apply chat_conversations in Hchat.
  destruct r as [e|response].
  - intros Hn. rewrite (IH Hn). by rewrite Hchat.
  - case_decide; [done|]. intros Hn. rewrite (IH Hn), Hchat.
    rewrite append_turn_lookup. by case_decide.
Qed.

Lemma chat_groq_calls_absent_key d request g r g' :
  has_key = false -> chat d request g = (r, g') -> groq_calls g' = groq_calls g.
Proof.
  unfold chat. intros Hk Hc.
  destruct (get_vectorstore d g) as [rv gv] eqn:Hv.
  apply get_vectorstore_frame in Hv as (_ & Hq).
  destruct rv as [e|vs]; [by inversion Hc; subst|].
  destruct (similarity_search vs (query request) 8) as [e|docs];
    [by inversion Hc; subst|].
  unfold generate_ai_response in Hc. rewrite Hk in Hc. simpl in Hc.
  by inversion Hc; subst.
Qed.

(** C5. Without a generation credential [generate_ai_response] returns the
    fixed no-key apology and leaves the record of model calls untouched (the
    model is not invoked); when the model call raises, the exception is
    turned into the other fixed apology; the two apologies differ; and a
    request whose retrieval step succeeded (the call [get_vectorstore()]
    returned a store and the search returned documents) is answered
    whatever the model call does. *)
Theorem generate_ai_response_recovers (cid q context : string) (g : Globals) :
  (has_key = false ->
     generate_ai_response cid q context g = (NO_KEY_MESSAGE, g))
  /\ (forall e, has_key = true ->
       groq_invoke (length (groq_calls g))
         (format_conversation_history g cid q context) = inl e ->
       fst (generate_ai_response cid q context g) = GENERATION_FAILED_MESSAGE)
  /\ NO_KEY_MESSAGE <> GENERATION_FAILED_MESSAGE
  /\ (forall d vs g1 docs,
       get_vectorstore d g = (inr vs, g1) ->
       similarity_search vs q 8 = inr docs ->
       exists a g',
         chat d (mkChatRequest cid q) g = (inr (mkChatResponse a (map metadata docs)), g')
         /\ a = fst (generate_ai_response cid q (join NL (map page_content docs)) g1)).
Proof.
  repeat split.
  - intros Hk. unfold generate_ai_response. by rewrite Hk.
  - intros e Hk He. unfold generate_ai_response. by rewrite Hk, He.
  - discriminate.
  - intros d vs g1 docs Hvs Hs. unfold chat. rewrite Hvs. simpl.
    rewrite Hs.
    destruct (generate_ai_response cid q (join NL (map page_content docs)) g1)
      as [a ga] eqn:Hg.
    by eexists _, _.
Qed.

(** C6. After a sequence of requests served one after the other, the history
    of every conversation is its earlier history followed by one turn per
    answered request on that id, in arrival order; an id without an answered
    request keeps its entry as it was (absent stays absent); and for an id
    that had no entry before, the history is exactly the N answered turns.
    The handler is taken over any call [get_vectorstore()] that leaves the
    conversations and the record of prompts as they are. *)
Theorem conversation_turns_in_arrival_order (d : Disk)
    (requests : list ChatRequest) (g : Globals) (cid : string) :
  let outcomes := fst (serve d requests g) in
  let g' := snd (serve d requests g) in
  let arrived := answered_on cid requests outcomes in
  history g' cid = (history g cid ++ map turn_of arrived)%list
  /\ (arrived = [] -> _conversations g' !! cid = _conversations g !! cid)
  /\ (_conversations g !! cid = None ->
      history g' cid = map turn_of arrived
      /\ length (history g' cid) = length arrived).
Proof.
  cbv zeta. split; [apply serve_history|]. split; [apply serve_lazy|].
  intros Hnone. rewrite serve_history. unfold history. rewrite Hnone. simpl.
  split; [done|]. by rewrite length_map.
Qed.

(** C10. A request that completes with a response appends exactly one turn,
    made of its query and of the answer it returned, to its conversation and
    touches no other conversation.  This includes the error paths: without a
    credential the recorded answer is the no-key apology, and when the model
    call raised it is the generation-failure apology; the apology is then
    part of the history text of the next prompt of that conversation.  The
    handler is taken over any call [get_vectorstore()] that leaves the
    conversations and the record of prompts as they are. *)
Theorem chat_appends_returned_answer (d : Disk) (request : ChatRequest)
    (g g' : Globals) (response : ChatResponse) :
  chat d request g = (inr response, g') ->
  let cid := conversation_id request in
  let turn := mkTurn (query request) (answer response) in
  _conversations g' !! cid = Some (history g cid ++ [turn])%list
  /\ (forall other, other <> cid -> _conversations g' !! other = _conversations g !! other)
  /\ (has_key = false -> answer response = NO_KEY_MESSAGE)
  /\ (forall prompt e,
        has_key = true ->
        groq_calls g' = (groq_calls g ++ [prompt])%list ->
        groq_invoke (length (groq_calls g)) prompt = inl e ->
        answer response = GENERATION_FAILED_MESSAGE)
  /\ (forall q' context',
        format_conversation_history g' cid q' context' =
        join NL (map render_turn (history g cid ++ [turn])) ++ NL ++
        "User: " ++ q' ++ NL ++ NL ++
        "Context (from CBA documents):" ++ NL ++ context' ++ NL ++ NL ++
        INSTRUCTIONS).
Proof.
  intros Hchat cid turn.
  pose proof (chat_conversations _ _ _ _ _ Hchat) as Hconv. simpl in Hconv.
  assert (Hcid : _conversations g' !! cid = Some (history g cid ++ [turn])%list).
  { rewrite Hconv, append_turn_lookup. by case_decide. }
  assert (Hprompt : forall q' context',
            format_conversation_history g' cid q' context' =
            join NL (map render_turn (history g cid ++ [turn])) ++ NL ++
            "User: " ++ q' ++ NL ++ NL ++
            "Context (from CBA documents):" ++ NL ++ context' ++ NL ++ NL ++
            INSTRUCTIONS).
  { intros q' context'. unfold format_conversation_history. by rewrite Hcid. }
  split; [exact Hcid|]. split.
  { intros other Hne. rewrite Hconv, append_turn_lookup. by case_decide. }
  clear Hconv Hcid. revert Hchat Hprompt. unfold chat.
  destruct (get_vectorstore d g) as [rv gv] eqn:Hv.
  apply get_vectorstore_frame in Hv as (_ & Hq).
  destruct rv as [e|vs]; [discriminate|].
  destruct (similarity_search vs (query request) 8) as [e|docs]; [discriminate|].
  unfold generate_ai_response.
  destruct has_key eqn:Hk; simpl.
  - rewrite Hq.
    destruct (groq_invoke (length (groq_calls g)) _) as [e|content] eqn:Hinv;
      intros Hc Hprompt; inversion Hc; subst; simpl in *.
    + split; [discriminate|]. by split.
    + split; [discriminate|]. split; [|done].
      intros prompt e _ Hcalls Hraise. rewrite Hq in Hcalls.
      apply app_inv_head in Hcalls. inversion Hcalls; subst.
      rewrite Hraise in Hinv. discriminate.
  - intros Hc Hprompt; inversion Hc; subst; simpl in *.
    split; [done|]. by split.
Qed.

End Service.
End MainFacts.

(* ===================================================================== *)
(** * Facts about scripts/download_pdfs.py *)
(* ===================================================================== *)

Module DownloadFacts.
Import PyStr DownloadPdfs.

Section Download.
Variable session_head : string -> result HeadResponse.
Variable session_get : string -> nat -> result GetResponse.

Local Abbreviation head_admits := (DownloadPdfs.head_admits session_head).
Local Abbreviation fetch_body := (DownloadPdfs.fetch_body session_get).
Local Abbreviation attempt_download := (DownloadPdfs.attempt_download session_get).
Local Abbreviation try_attempts := (DownloadPdfs.try_attempts session_get).
Local Abbreviation download_pdf := (DownloadPdfs.download_pdf session_head session_get).
Local Abbreviation first_fetch := (DownloadPdfs.first_fetch session_get).

(** ** Deduplication by content hash *)

Lemma first_with_sha_app sha rows row :
  first_with_sha sha (rows ++ [row]) =
  match first_with_sha sha rows with
  | Some name => Some name
  | None => if String.eqb (sha256 row) sha then Some (saved_filename row) else None
  end.
Proof.
  induction rows as [|r rows IH]; simpl; [done|].
  by destruct (String.eqb (sha256 r) sha).
Qed.

Lemma try_attempts_first_fetch url source_page now data status st outcome :
  store_pdf url source_page now data status st = Some outcome ->
  forall attempts,
    first_fetch url attempts = Data data status ->
    try_attempts url source_page now attempts st = outcome.
Proof.
  intros Hstore attempts. induction attempts as [|n rest IH]; simpl; [discriminate|].
  unfold attempt_download.
  destruct (fetch_body url n) as [| |data' status'] eqn:Hf; intros Hfirst.
  - by apply IH.
  - discriminate.
  - inversion Hfirst; subst. by rewrite Hstore.
Qed.

(** A body whose hash the manifest does not know is written once and
    recorded under its hash-prefixed name. *)
Lemma download_pdf_new url source_page now data status name st :
  head_admits url = true ->
  first_fetch url (seq 1 RETRIES) = Data data status ->
  safe_filename_from_url url = inr name ->
  manifest_has_sha (sha256_bytes data) st = None ->
  let sha := sha256_bytes data in
  let save_name := take 8 sha ++ "_" ++ name in
  download_pdf url source_page now st =
  (true,
   append_manifest_row
     (mkRow source_page url save_name (Z.of_nat (String.length data)) sha status "" now)
     (write_file (SAVE_DIR ++ "/" ++ save_name) data st)).
Proof.
  intros Hhead Hfetch Hname Hnew. cbv zeta. unfold download_pdf. rewrite Hhead.
  apply try_attempts_first_fetch with (data := data) (status := status); [|done].
  unfold store_pdf. by rewrite Hnew, Hname.
Qed.

(** A body whose hash the manifest knows under a non-empty name is not
    written again; the new row points at the stored file. *)
Lemma download_pdf_known url source_page now data status c existing st :
  head_admits url = true ->
  first_fetch url (seq 1 RETRIES) = Data data status ->
  manifest_has_sha (sha256_bytes data) st = Some (String c existing) ->
  download_pdf url source_page now st =
  (true,
   append_manifest_row
     (mkRow source_page url (String c existing) (Z.of_nat (String.length data))
            (sha256_bytes data) status "" now)
     st).
Proof.
  intros Hhead Hfetch Hknown. unfold download_pdf. rewrite Hhead.
  apply try_attempts_first_fetch with (data := data) (status := status); [|done].
  unfold store_pdf. by rewrite Hknown.
Qed.

Lemma manifest_has_sha_after_write sha path data row st :
  manifest_has_sha sha (append_manifest_row row (write_file path data st)) =
  match manifest_has_sha sha st with
  | Some name => Some name
  | None => if String.eqb (sha256 row) sha then Some (saved_filename row) else None
  end.
Proof.
  unfold manifest_has_sha, append_manifest_row, write_file. simpl.
  destruct (manifest st) as [rows|]; simpl; [apply first_with_sha_app|].
  by destruct (String.eqb (sha256 row) sha).
Qed.

Lemma save_name_not_empty (a b : string) :
  exists c rest, a ++ "_" ++ b = String c rest.
Proof. destruct a as [|c a]; simpl; eauto. Qed.

(** Two downloads in a row that receive the same bytes from two URLs, the
    hash being new to the manifest: one file is written, by the first, and
    the manifest gains two rows with one file name and one hash. *)
Lemma download_pdf_same_bytes url1 url2 src1 src2 (t1 t2 : Z) data s1 s2 name st :
  head_admits url1 = true ->
  head_admits url2 = true ->
  first_fetch url1 (seq 1 RETRIES) = Data data s1 ->
  first_fetch url2 (seq 1 RETRIES) = Data data s2 ->
  safe_filename_from_url url1 = inr name ->
  manifest_has_sha (sha256_bytes data) st = None ->
  let sha := sha256_bytes data in
  let save_name := take 8 sha ++ "_" ++ name in
  let save_path := SAVE_DIR ++ "/" ++ save_name in
  let size := Z.of_nat (String.length data) in
  let row1 := mkRow src1 url1 save_name size sha s1 "" t1 in
  let row2 := mkRow src2 url2 save_name size sha s2 "" t2 in
  let st1 := snd (download_pdf url1 src1 t1 st) in
  let st2 := snd (download_pdf url2 src2 t2 st1) in
  fst (download_pdf url1 src1 t1 st) = true
  /\ fst (download_pdf url2 src2 t2 st1) = true
  /\ writes st2 = (writes st ++ [save_path])%list
  /\ files st2 = <[save_path := data]> (files st)
  /\ manifest st2 = Some (default [] (manifest st) ++ [row1; row2])%list.
Proof.
  intros Hh1 Hh2 Hf1 Hf2 Hname Hnew. cbv zeta.
  rewrite (download_pdf_new url1 src1 t1 data s1 name st Hh1 Hf1 Hname Hnew).
  cbn [fst snd].
  destruct (save_name_not_empty (take 8 (sha256_bytes data)) name) as (c & rest & Hsave).
  rewrite !Hsave.
  rewrite (download_pdf_known url2 src2 t2 data s2 c rest); [| done | done |].
  - cbn [fst snd append_manifest_row write_file files writes manifest].
    repeat split; try done.
    f_equal. destruct (manifest st); simpl; by rewrite <- ?app_assoc.
  - rewrite manifest_has_sha_after_write, Hnew.
    cbn [sha256 saved_filename]. by rewrite String.eqb_refl.
Qed.

End Download.
End DownloadFacts.

(* ===================================================================== *)
(** * Facts about the acquisition scripts *)
(* ===================================================================== *)

Module AcquisitionFacts.
Import PyStr Properties.

(** ** Link admission of the page crawler *)

Lemma good_generator_raises :
  CrawlSiteText.any_gen
    (fun p => path <-! CrawlSiteText.attr_path p ;;
              CrawlSiteText.str_in p (lower path))
    (map CrawlSiteText.Str CrawlSiteText.good)
  = inl no_path_attribute.
Proof. reflexivity. Qed.

(** [should_follow] either returns [False] (wrong scheme or host) or raises. *)
Lemma should_follow_outcomes urlparse url :
  CrawlSiteText.should_follow urlparse url = inr false
  \/ exists e, CrawlSiteText.should_follow urlparse url = inl e.
Proof.
  unfold CrawlSiteText.should_follow.
  destruct (urlparse url) as [e|r]; cbn [bind]; [right; eauto|].
  destruct (negb (startswith "http" (Urllib.scheme r))); [by left|].
  destruct (negb _); [by left|].
  right. rewrite good_generator_raises. cbn [bind]. eauto.
Qed.

Lemma should_follow_never_true urlparse url :
  CrawlSiteText.should_follow urlparse url <> inr true.
Proof.
  destruct (should_follow_outcomes urlparse url) as [H|[e H]]; rewrite H; discriminate.
Qed.

Lemma enqueue_links_keeps_queue urlparse visited links :
  forall links_added q,
    fst (CrawlSiteText.enqueue_links urlparse visited links links_added q) = q.
Proof.
  induction links as [|next_url rest IH]; intros n q;
    cbn [CrawlSiteText.enqueue_links]; [done|].
  destruct (20 <=? n)%nat; [done|].
  destruct (should_follow_outcomes urlparse next_url) as [H|[e H]]; rewrite H.
  - cbn [andb]. apply IH.
  - done.
Qed.

(** C7. On the seed page [/personal/accounts.html] of the allowed host
    [should_follow] raises [AttributeError] instead of returning [True]: in
    [any(p in p.path.lower() for p in good)] the generator variable [p]
    hides the parse result.  Hence no URL at all is admitted, and the loop
    over the anchors of a page never adds a link to the queue. *)
Theorem should_follow_raises_on_allowed_page :
  CrawlSiteText.should_follow Urllib.urlparse
    "https://www.commbank.com.au/personal/accounts.html" = inl no_path_attribute
  /\ CrawlSiteText.should_follow Urllib.urlparse
       "https://www.commbank.com.au/privacy.html" = inl no_path_attribute
  /\ (forall urlparse url, CrawlSiteText.should_follow urlparse url <> inr true)
  /\ (forall urlparse visited links links_added q,
        fst (CrawlSiteText.enqueue_links urlparse visited links links_added q) = q).
Proof.
  split; [vm_compute; reflexivity|].
  split; [vm_compute; reflexivity|].
  split; [apply should_follow_never_true|].
  intros. apply enqueue_links_keeps_queue.
Qed.

(** The sibling filter of the PDF script, which tests [parsed.path], admits
    the same page. *)
Lemma follows_page_admits_allowed_page :
  DownloadPdfs.follows_page "https://www.commbank.com.au/personal/accounts.html"
  = inr true.
Proof. vm_compute. reflexivity. Qed.

Section CrawlFacts.
Variable urlparse : string -> result Urllib.ParseResult.
Variable session_get : string -> result CrawlSiteText.Response.
Variable clean_text : string -> string.
Variable anchors : string -> string -> list string.

Local Abbreviation fetch_and_save := (CrawlSiteText.fetch_and_save urlparse session_get clean_text anchors).
Local Abbreviation crawl_turn := (CrawlSiteText.crawl_turn urlparse session_get clean_text anchors).
Local Abbreviation crawl_loop := (CrawlSiteText.crawl_loop urlparse session_get clean_text anchors).

Lemma fetch_and_save_frame url s :
  CrawlSiteText.q (fetch_and_save url s) = CrawlSiteText.q s
  /\ CrawlSiteText.visited (fetch_and_save url s) = CrawlSiteText.visited s.
Proof.
  unfold CrawlSiteText.fetch_and_save.
  destruct (session_get url) as [e|resp]; [done|].
  destruct (negb _); [done|]. destruct (negb _); [done|].
  destruct (_ <? 100)%nat; [done|]. simpl.
  destruct (_ <? CrawlSiteText.MAX_PAGES)%nat; [|done].
  pose proof (enqueue_links_keeps_queue urlparse (CrawlSiteText.visited s)
                (anchors url (CrawlSiteText.text resp)) 0 (CrawlSiteText.q s)) as Hq.
  destruct (CrawlSiteText.enqueue_links _ _ _ _ _) as [q' e]. simpl in *. by subst.
Qed.

(** A page that passes the status, type and length tests is written to the
    file named after the hash of its URL, whatever its text. *)
Lemma fetch_and_save_writes url resp s :
  session_get url = inr resp ->
  CrawlSiteText.status_code resp = 200%Z ->
  contains "text/html" (CrawlSiteText.content_type resp) = true ->
  (100 <= String.length (clean_text (CrawlSiteText.text resp)))%nat ->
  let st := CrawlSiteText.store s in
  let st' := CrawlSiteText.store (fetch_and_save url s) in
  CrawlSiteText.writes st' =
    (CrawlSiteText.writes st ++ [CrawlSiteText.SAVE_DIR +:+ "/" +:+ page_file url])%list
  /\ CrawlSiteText.manifest st' =
    Some (default [] (CrawlSiteText.manifest st) ++ [(url, page_file url)])%list.
Proof.
  intros Hget Hstatus Htype Hlen. cbv zeta.
  unfold CrawlSiteText.fetch_and_save. rewrite Hget, Hstatus, Htype. simpl.
  destruct (_ <? 100)%nat eqn:Hlt; [apply Nat.ltb_lt in Hlt; lia|].
  destruct (_ <? CrawlSiteText.MAX_PAGES)%nat.
  - destruct (CrawlSiteText.enqueue_links _ _ _ _ _) as [q' e]. by simpl.
  - by simpl.
Qed.

Lemma crawl_turn_queue s s' :
  crawl_turn s = Some s' -> CrawlSiteText.q s' = tl (CrawlSiteText.q s).
Proof.
  unfold CrawlSiteText.crawl_turn.
  destruct (CrawlSiteText.q s) as [|url rest] eqn:Hq; [discriminate|].
  destruct (negb _); [discriminate|].
  destruct (bool_decide _); intros Hs; inversion Hs; subst; simpl; [done|].
  by destruct (fetch_and_save_frame url
                 (CrawlSiteText.mkCrawlState ({[url]} ∪ CrawlSiteText.visited s) rest
                    (CrawlSiteText.count s) (CrawlSiteText.store s))) as [-> _].
Qed.

(** As no link is ever added, the loop ends within as many turns as there
    are URLs in the queue. *)
Lemma crawl_loop_ends fuel : forall s,
  (length (CrawlSiteText.q s) <= fuel)%nat -> is_Some (crawl_loop fuel s).
Proof.
  induction fuel as [|fuel IH]; intros s Hlen; simpl.
  - destruct (crawl_turn s) as [s'|] eqn:Hturn; [|by eexists].
    unfold CrawlSiteText.crawl_turn in Hturn.
    destruct (CrawlSiteText.q s); [discriminate|simpl in Hlen; lia].
  - destruct (crawl_turn s) as [s'|] eqn:Hturn; [|by eexists].
    apply IH. rewrite (crawl_turn_queue _ _ Hturn).
    destruct (CrawlSiteText.q s); simpl in *; lia.
Qed.

End CrawlFacts.

(** ** The two content stores *)

Section Stores.
Variable session_head : string -> result DownloadPdfs.HeadResponse.
Variable pdf_get : string -> nat -> result DownloadPdfs.GetResponse.
Variable urlparse : string -> result Urllib.ParseResult.
Variable page_get : string -> result CrawlSiteText.Response.
Variable clean_text : string -> string.
Variable anchors : string -> string -> list string.

Local Abbreviation download_pdf := (DownloadPdfs.download_pdf session_head pdf_get).
Local Abbreviation fetch_and_save :=
  (CrawlSiteText.fetch_and_save urlparse page_get clean_text anchors).
Local Abbreviation page_accepted := (Properties.page_accepted page_get clean_text).

(** C2, as the code has it.  PDF path: two downloads in a row that receive
    the same bytes from two URLs, under a hash the manifest does not hold
    yet, write one file (the first download does) and add two manifest rows
    with the same stored file name and hash.  Page-text path: there is no
    content hash; each of two saved pages with the same text is written to
    the file named after the hash of its own URL, and its manifest row
    holds that name. *)
Theorem pdf_store_deduplicates_page_store_is_keyed_by_url
    (url1 url2 src1 src2 : string) (t1 t2 : Z) (data : string) (s1 s2 : Z)
    (name : string) (st : DownloadPdfs.Store)
    (page1 page2 text : string) (c : CrawlSiteText.CrawlState) :
  (DownloadPdfs.head_admits session_head url1 = true ->
   DownloadPdfs.head_admits session_head url2 = true ->
   DownloadPdfs.first_fetch pdf_get url1 (seq 1 DownloadPdfs.RETRIES)
     = DownloadPdfs.Data data s1 ->
   DownloadPdfs.first_fetch pdf_get url2 (seq 1 DownloadPdfs.RETRIES)
     = DownloadPdfs.Data data s2 ->
   DownloadPdfs.safe_filename_from_url url1 = inr name ->
   DownloadPdfs.manifest_has_sha (DownloadPdfs.sha256_bytes data) st = None ->
   let sha := DownloadPdfs.sha256_bytes data in
   let save_name := take 8 sha +:+ "_" +:+ name in
   let save_path := DownloadPdfs.SAVE_DIR +:+ "/" +:+ save_name in
   let size := Z.of_nat (String.length data) in
   let row1 := DownloadPdfs.mkRow src1 url1 save_name size sha s1 "" t1 in
   let row2 := DownloadPdfs.mkRow src2 url2 save_name size sha s2 "" t2 in
   let st1 := snd (download_pdf url1 src1 t1 st) in
   let st2 := snd (download_pdf url2 src2 t2 st1) in
   fst (download_pdf url1 src1 t1 st) = true
   /\ fst (download_pdf url2 src2 t2 st1) = true
   /\ DownloadPdfs.writes st2 = (DownloadPdfs.writes st ++ [save_path])%list
   /\ DownloadPdfs.files st2 = <[save_path := data]> (DownloadPdfs.files st)
   /\ DownloadPdfs.manifest st2
      = Some (default [] (DownloadPdfs.manifest st) ++ [row1; row2])%list)
  /\
  (page_accepted page1 text ->
   page_accepted page2 text ->
   let p0 := CrawlSiteText.store c in
   let c1 := fetch_and_save page1 c in
   let p2 := CrawlSiteText.store (fetch_and_save page2 c1) in
   CrawlSiteText.writes p2 =
     (CrawlSiteText.writes p0 ++
        [CrawlSiteText.SAVE_DIR +:+ "/" +:+ page_file page1;
         CrawlSiteText.SAVE_DIR +:+ "/" +:+ page_file page2])%list
   /\ CrawlSiteText.manifest p2 =
     Some (default [] (CrawlSiteText.manifest p0) ++
             [(page1, page_file page1); (page2, page_file page2)])%list).
Proof.
  split.
  - apply DownloadFacts.download_pdf_same_bytes.
  - intros (r1 & Hg1 & Hs1 & Ht1 & Hc1 & Hl1) (r2 & Hg2 & Hs2 & Ht2 & Hc2 & Hl2).
    cbv zeta. subst text.
    destruct (fetch_and_save_writes urlparse page_get clean_text anchors
                page2 r2 (fetch_and_save page1 c) Hg2 Hs2 Ht2) as [Hw2 Hm2];
      [by rewrite Hc2|].
    destruct (fetch_and_save_writes urlparse page_get clean_text anchors
                page1 r1 c Hg1 Hs1 Ht1 Hl1) as [Hw1 Hm1].
    rewrite Hw2, Hm2, Hw1, Hm1. simpl. by rewrite <- !app_assoc.
Qed.

End Stores.

End AcquisitionFacts.

(* ===================================================================== *)
(** * Facts about the index build and the index load *)
(* ===================================================================== *)

Module IndexFacts.
Import PyStr LangChain.

Section Contract.
Context `{FaissApi}.
Variable PyPDFLoader_load : string -> string -> result (list Document).
Variable splitter_split_text : nat -> nat -> list string -> string -> list string.
(** Construction of the embeddings object in the build. *)
Variable build_embeddings_init : string -> option exn.

Local Abbreviation load_documents := (Embed.load_documents PyPDFLoader_load).
Local Abbreviation chunk_documents := (Embed.chunk_documents splitter_split_text).
Local Abbreviation create_embeddings :=
  (Embed.create_embeddings PyPDFLoader_load splitter_split_text build_embeddings_init).

Lemma load_documents_mkdir (d : Disk) :
  load_documents (Embed.mkdir_index d) = load_documents d.
Proof. unfold Embed.mkdir_index. by destruct (index_dirs d !! Embed.INDEX_DIR). Qed.

(** The index folder after [mkdir]: created empty when it was missing, left
    as it was otherwise. *)
Lemma mkdir_index_lookup (d : Disk) (folder : string) :
  index_dirs (Embed.mkdir_index d) !! folder =
  if decide (folder = Embed.INDEX_DIR)
  then Some (default None (index_dirs d !! folder))
  else index_dirs d !! folder.
Proof.
  unfold Embed.mkdir_index.
  destruct (index_dirs d !! Embed.INDEX_DIR) as [content|] eqn:Hdir;
    case_decide; subst; simplify_map_eq; auto.
Qed.

(** C4. A build that finds no document logs the error, returns early and
    writes no index: the index folder holds what it held before, and is
    created empty when it was missing.  A build whose documents give no
    chunk stops on the exception of [FAISS.from_documents] (or of the
    embeddings constructor) and writes no index either. *)
Theorem build_without_chunks_persists_nothing (d : Disk) :
  (load_documents d = [] ->
     create_embeddings d
     = (Embed.NoDocuments, Embed.mkdir_index d, ["No documents found to process!"]))
  /\ (chunk_documents (load_documents d) = [] ->
      (forall e, exists err, from_documents [] e = inl err) ->
      fst (fst (create_embeddings d)) <> Embed.Built
      /\ snd (fst (create_embeddings d)) = Embed.mkdir_index d)
  /\ index_dirs (Embed.mkdir_index d) !! Embed.INDEX_DIR
     = Some (default None (index_dirs d !! Embed.INDEX_DIR))
  /\ (forall folder, folder <> Embed.INDEX_DIR ->
        index_dirs (Embed.mkdir_index d) !! folder = index_dirs d !! folder).
Proof.
  split; [|split; [|split]].
  - intros Hnone. unfold Embed.create_embeddings.
    by rewrite load_documents_mkdir, Hnone.
  - intros Hchunks Hraise. unfold Embed.create_embeddings.
    rewrite load_documents_mkdir.
    destruct (load_documents d) as [|doc docs] eqn:Hdocs; [done|].
    rewrite Hchunks.
    destruct (build_embeddings_init Embed.EMBEDDING_MODEL); [done|].
    destruct (Hraise (mkEmbeddings Embed.EMBEDDING_MODEL)) as [err ->]. done.
  - rewrite mkdir_index_lookup. by case_decide.
  - intros folder Hne. rewrite mkdir_index_lookup. by case_decide.
Qed.

(** A build that reaches [save_local] leaves in the index folder what
    [save_local] gives for the store built from the chunks. *)
Lemma create_embeddings_saves (d : Disk) (vs : VectorStore) :
  load_documents d <> [] ->
  build_embeddings_init Embed.EMBEDDING_MODEL = None ->
  from_documents (chunk_documents (load_documents d))
                 (mkEmbeddings Embed.EMBEDDING_MODEL) = inr vs ->
  index_dirs (snd (fst (create_embeddings d))) !! Embed.INDEX_DIR
  = Some (Some (save_local vs)).
Proof.
  intros Hdocs Hinit Hbuild. unfold Embed.create_embeddings.
  rewrite load_documents_mkdir.
  destruct (load_documents d) as [|doc docs]; [done|].
  rewrite Hinit, Hbuild.
  destruct (Embed.test_retrieval vs); simpl; by simplify_map_eq.
Qed.


End Contract.
End IndexFacts.

(* ===================================================================== *)
(** * Facts about lines and characters *)
(* ===================================================================== *)

Module LineFacts.
Import PyStr StrFacts Urllib Contracts.

(** ** Characters of a text *)

Lemma has_char_app c (a b : string) :
  has_char c (a +:+ b) = has_char c a || has_char c b.
Proof.
  induction a as [|x a IH]; [done|].
  rewrite str_app_cons. cbn [has_char]. by rewrite IH, orb_assoc.
Qed.

Lemma has_char_cons_false c x s :
  has_char c (String x s) = false -> Ascii.eqb x c = false /\ has_char c s = false.
Proof. cbn [has_char]. by intros [? ?]%orb_false_elim. Qed.

Lemma has_char_strip c s : has_char c s = false -> has_char c (strip s) = false.
Proof.
  destruct (strip_infix s) as (pre & post & Hs). intros Hc.
  rewrite Hs, !has_char_app in Hc.
  apply orb_false_elim in Hc as [_ Hc]. by apply orb_false_elim in Hc as [Hc _].
Qed.

Lemma has_char_join c sep (l : list string) :
  has_char c sep = false ->
  Forall (fun x => has_char c x = false) l ->
  has_char c (join sep l) = false.
Proof.
  intros Hsep. induction 1 as [|x l Hx Hl IH]; [done|].
  destruct l as [|y l]; [done|].
  change (join sep (x :: y :: l)) with (x +:+ sep +:+ join sep (y :: l)).
  by rewrite !has_char_app, Hx, Hsep, IH.
Qed.

Lemma has_char_split c sep (s : string) :
  has_char c s = false ->
  Forall (fun line => has_char c line = false) (split_char sep s).
Proof.
  induction s as [|x s IH]; [by repeat constructor|]. intros Hc.
  apply has_char_cons_false in Hc as [Hx Hs]. specialize (IH Hs).
  cbn [split_char]. destruct (Ascii.eqb x sep); [by constructor|].
  destruct (split_char sep s) as [|h t]; inversion IH; subst;
    constructor; try done; cbn [has_char]; by rewrite Hx.
Qed.

Lemma split_lines_have_no_break sep (s : string) :
  Forall (fun line => has_char sep line = false) (split_char sep s).
Proof.
  induction s as [|x s IH]; [by repeat constructor|].
  cbn [split_char]. destruct (Ascii.eqb x sep) eqn:Hx; [by constructor|].
  destruct (split_char sep s) as [|h t]; inversion IH; subst;
    constructor; try done; cbn [has_char]; by rewrite Hx.
Qed.

(** ** Occurrences of a text in another *)

Lemma contains_needs_first_char c rest (s : string) :
  has_char c s = false -> contains (String c rest) s = false.
Proof.
  induction s as [|x s IH]; [done|]. intros Hc.
  apply has_char_cons_false in Hc as [Hx Hs].
  cbn [contains startswith]. rewrite Ascii.eqb_sym, Hx. by apply IH.
Qed.

Lemma startswith_app (x a b : string) :
  startswith x a = true -> startswith x (a +:+ b) = true.
Proof.
  revert a. induction x as [|c x IH]; intros [|d a]; try done.
  rewrite str_app_cons. cbn [startswith]. destruct (Ascii.eqb c d); [apply IH|done].
Qed.

Lemma startswith_refl (x b : string) : startswith x (x +:+ b) = true.
Proof.
  induction x as [|c x IH]; [done|].
  rewrite str_app_cons. cbn [startswith]. by rewrite Ascii.eqb_refl.
Qed.

Lemma contains_empty (s : string) : contains "" s = true.
Proof. by destruct s. Qed.

Lemma contains_app_l (x a b : string) :
  contains x a = true -> contains x (a +:+ b) = true.
Proof.
  induction a as [|c a IH].
  - destruct x; [intros _; apply contains_empty|done].
  - rewrite str_app_cons. cbn [contains].
    intros [Hstart|Hrest]%orb_true_iff; apply orb_true_iff.
    + left. by apply (startswith_app x (String c a) b).
    + right. by apply IH.
Qed.

Lemma contains_app_r (x a b : string) :
  contains x b = true -> contains x (a +:+ b) = true.
Proof.
  intros Hb. induction a as [|c a IH]; [done|].
  rewrite str_app_cons. cbn [contains]. rewrite IH. apply orb_true_r.
Qed.

Lemma contains_here (x b : string) : contains x (x +:+ b) = true.
Proof.
  destruct x as [|c x]; [apply contains_empty|].
  rewrite str_app_cons. cbn [contains].
  by rewrite (startswith_refl (String c x) b : startswith _ (String c (x +:+ b)) = true).
Qed.

Lemma contains_refl (x : string) : contains x x = true.
Proof. rewrite <- (str_app_nil_r x) at 2. apply contains_here. Qed.

(** An element of a joined list occurs in the joined text. *)
Lemma contains_join {A} (f : A -> string) sep (l : list A) (x : A) :
  x ∈ l -> contains (f x) (join sep (map f l)) = true.
Proof.
  induction l as [|y l IH]; [by intros ?%elem_of_nil|].
  intros [->|Hin]%elem_of_cons; destruct l as [|z l].
  - apply contains_refl.
  - change (join sep (map f (y :: z :: l)))
      with (f y +:+ sep +:+ join sep (map f (z :: l))).
    apply contains_here.
  - by apply elem_of_nil in Hin.
  - change (join sep (map f (y :: z :: l)))
      with (f y +:+ sep +:+ join sep (map f (z :: l))).
    do 2 apply contains_app_r. by apply IH.
Qed.

(** ** Trimmed texts *)

Lemma length_lstrip (s : string) : (String.length (lstrip s) <= String.length s)%nat.
Proof.
  induction s as [|c s IH]; [done|]. cbn [lstrip].
  destruct (isspace c); cbn [String.length]; lia.
Qed.

Lemma length_rstrip (s : string) : (String.length (rstrip s) <= String.length s)%nat.
Proof.
  destruct (rstrip_prefix s) as [post Hs].
  rewrite Hs at 2. rewrite str_length_app. lia.
Qed.

Lemma length_strip (s : string) : (String.length (strip s) <= String.length s)%nat.
Proof.
  unfold strip. pose proof (length_rstrip (lstrip s)). pose proof (length_lstrip s). lia.
Qed.

Lemma lstrip_fixed_of_strip (s : string) : strip s = s -> lstrip s = s.
Proof.
  intros Hs. destruct (lstrip_suffix s) as [pre Hpre].
  assert (Hlen : String.length pre = 0%nat).
  { pose proof (length_rstrip (lstrip s)) as Hr. unfold strip in Hs. rewrite Hs in Hr.
    pose proof (f_equal String.length Hpre) as Hl. rewrite str_length_app in Hl. lia. }
  destruct pre; [|done]. by rewrite str_app_nil_l in Hpre.
Qed.

Lemma rstrip_fixed_of_strip (s : string) : strip s = s -> rstrip s = s.
Proof.
  intros Hs. pose proof (lstrip_fixed_of_strip s Hs) as Hl.
  unfold strip in Hs. by rewrite Hl in Hs.
Qed.

Lemma lstrip_app (a b : string) :
  a <> "" -> lstrip a = a -> lstrip (a +:+ b) = a +:+ b.
Proof.
  destruct a as [|c a]; [done|]. intros _ Ha. rewrite str_app_cons.
  cbn [lstrip] in *. destruct (isspace c); [|done].
  pose proof (length_lstrip a) as Hlen. rewrite Ha in Hlen. cbn in Hlen. lia.
Qed.

Lemma rstrip_app (a b : string) :
  rstrip b <> "" -> rstrip (a +:+ b) = a +:+ rstrip b.
Proof.
  intros Hb. induction a as [|c a IH]; [done|].
  rewrite !str_app_cons. cbn [rstrip]. rewrite IH.
  destruct (a +:+ rstrip b) eqn:Hab; [|done].
  destruct a; [|done]. by rewrite str_app_nil_l in Hab.
Qed.

Lemma join_trimmed_right (l : list string) :
  l <> [] -> Forall trimmed l ->
  rstrip (join NL l) = join NL l /\ join NL l <> "".
Proof.
  intros Hne Hl. induction Hl as [|x l [Hx Hsx] Hl IH]; [done|].
  destruct l as [|y l].
  - cbn [join]. split; [by apply rstrip_fixed_of_strip|done].
  - destruct IH as [Hr Hn]; [done|].
    change (join NL (x :: y :: l)) with (x +:+ NL +:+ join NL (y :: l)).
    split.
    + rewrite <- str_app_assoc, rstrip_app; by rewrite Hr.
    + destruct x; [done|]. by rewrite str_app_cons.
Qed.

Lemma join_trimmed (l : list string) :
  Forall trimmed l -> strip (join NL l) = join NL l.
Proof.
  intros Hl. destruct l as [|x l]; [done|].
  destruct (join_trimmed_right (x :: l)) as [Hr _]; [done|done|].
  inversion Hl as [|? ? [Hx Hsx] Hrest]; subst.
  unfold strip. assert (Hleft : lstrip (join NL (x :: l)) = join NL (x :: l)).
  { destruct l as [|y l]; [by apply lstrip_fixed_of_strip|].
    change (join NL (x :: y :: l)) with (x +:+ NL +:+ join NL (y :: l)).
    apply lstrip_app; [done|by apply lstrip_fixed_of_strip]. }
  by rewrite Hleft.
Qed.

(** ** The lines of a text *)

Lemma split_char_not_nil sep (s : string) : split_char sep s <> [].
Proof.
  induction s as [|c s IH]; [done|]. cbn [split_char].
  destruct (Ascii.eqb c sep); [done|]. by destruct (split_char sep s).
Qed.

Lemma split_char_no_break sep (s : string) :
  has_char sep s = false -> split_char sep s = [s].
Proof.
  induction s as [|x s IH]; [done|]. intros Hc.
  apply has_char_cons_false in Hc as [Hx Hs].
  cbn [split_char]. by rewrite Hx, IH.
Qed.

Lemma split_char_app sep (a b : string) :
  has_char sep a = false ->
  split_char sep (a +:+ String sep b) = a :: split_char sep b.
Proof.
  induction a as [|x a IH]; intros Hc.
  - rewrite str_app_nil_l. cbn [split_char]. by rewrite Ascii.eqb_refl.
  - apply has_char_cons_false in Hc as [Hx Hs].
    rewrite str_app_cons. cbn [split_char]. by rewrite Hx, IH.
Qed.

Lemma split_join (l : list string) :
  l <> [] ->
  Forall (fun line => has_char nl line = false) l ->
  split_char nl (join NL l) = l.
Proof.
  intros Hne Hl. induction Hl as [|x l Hx Hl IH]; [done|].
  destruct l as [|y l]; [by apply split_char_no_break|].
  change (join NL (x :: y :: l)) with (x +:+ String nl (join NL (y :: l))).
  by rewrite split_char_app, IH.
Qed.

Lemma join_split_char (s : string) : join NL (split_char nl s) = s.
Proof.
  induction s as [|c s IH]; [done|]. cbn [split_char].
  pose proof (split_char_not_nil nl s) as Hne.
  destruct (Ascii.eqb c nl) eqn:Hc.
  - apply Ascii.eqb_eq in Hc as ->.
    destruct (split_char nl s) as [|h t]; [done|].
    change (join NL ("" :: h :: t)) with ("" +:+ NL +:+ join NL (h :: t)).
    by rewrite IH.
  - destruct (split_char nl s) as [|h t]; [done|]. rewrite <- IH.
    destruct t as [|h' t]; [done|].
    change (join NL (String c h :: h' :: t)) with (String c h +:+ NL +:+ join NL (h' :: t)).
    change (join NL (h :: h' :: t)) with (h +:+ NL +:+ join NL (h' :: t)).
    by rewrite str_app_cons.
Qed.

(** ** Lists *)

Lemma elem_of_concat {A} (x : A) (ls : list (list A)) :
  x ∈ concat ls <-> exists l, x ∈ l /\ l ∈ ls.
Proof.
  induction ls as [|l ls IH]; cbn [concat].
  - split; [by intros ?%elem_of_nil|]. by intros (l & _ & ?%elem_of_nil).
  - rewrite elem_of_app, IH. split.
    + intros [Hl|(l' & Hx & Hl')]; [exists l|exists l']; split; try done;
        apply elem_of_cons; auto.
    + intros (l' & Hx & [->|Hl']%elem_of_cons); [by left|right; by exists l'].
Qed.

Lemma concat_nil {A} (ls : list (list A)) :
  concat ls = [] <-> Forall (fun l => l = []) ls.
Proof.
  induction ls as [|l ls IH]; [done|]. cbn [concat]. split.
  - intros [-> Hls]%app_eq_nil. constructor; [done|by apply IH].
  - intros Hall. inversion Hall as [|? ? -> Hls]; subst. by apply IH.
Qed.

Lemma map_fixed {A} (f : A -> A) (l : list A) :
  Forall (fun x => f x = x) l -> map f l = l.
Proof. induction 1 as [|x l Hx _ IH]; [done|]. cbn [map]. by rewrite Hx, IH. Qed.

Lemma filter_all (P : string -> bool) (l : list string) :
  Forall (fun x => P x = true) l -> filter (fun x => P x = true) l = l.
Proof.
  induction 1 as [|x l Hx _ IH]; [done|].
  rewrite filter_cons. case_decide; [by rewrite IH|done].
Qed.

End LineFacts.

(* ===================================================================== *)
(** * Facts about the index cache and the model calls *)
(* ===================================================================== *)

Module ServiceFacts.
Import PyStr LangChain Main Contracts.

Section Service.
Context `{FaissApi}.
Variable GROQ_API_KEY : option string.
Variable groq_invoke : nat -> string -> result string.
Variable get_vectorstore : Disk -> Globals -> result VectorStore * Globals.

Local Abbreviation has_key := (Main.has_key GROQ_API_KEY).
Local Abbreviation generate_ai_response :=
  (Main.generate_ai_response GROQ_API_KEY groq_invoke).
Local Abbreviation chat := (Main.chat GROQ_API_KEY groq_invoke get_vectorstore).
Local Abbreviation serve := (Main.serve GROQ_API_KEY groq_invoke get_vectorstore).

(** ** Requests that fail, and calls of the model *)

Lemma generate_ai_response_calls cid q ctx g :
  groq_calls (snd (generate_ai_response cid q ctx g)) =
  (groq_calls g ++
     if has_key then [format_conversation_history g cid q ctx] else [])%list.
Proof.
  unfold Main.generate_ai_response.
  destruct has_key; cbn [negb].
  - by destruct (groq_invoke _ _).
  - by rewrite app_nil_r.
Qed.

(** X2. A request ends in an exception only when the call
    [get_vectorstore()] raises or the search raises, and the exception is
    that one, unchanged; the handler then leaves the globals exactly as the
    call [get_vectorstore()] left them: it adds no turn and sends no
    prompt. *)
Theorem failed_request_leaves_no_trace (d : Disk) (request : ChatRequest)
    (g g' : Globals) (e : exn) :
  chat d request g = (inl e, g') ->
  g' = snd (get_vectorstore d g)
  /\ (fst (get_vectorstore d g) = inl e
      \/ exists vectorstore,
           fst (get_vectorstore d g) = inr vectorstore
           /\ similarity_search vectorstore (query request) 8 = inl e).
Proof.
  unfold Main.chat.
  destruct (get_vectorstore d g) as [rv gv]. cbn [fst snd].
  destruct rv as [e'|vs]; [intros [= -> ->]; by auto|].
  destruct (similarity_search vs (query request) 8) as [e'|docs] eqn:Hsearch.
  - intros [= -> ->]. split; [done|]. right. by exists vs.
  - by destruct (generate_ai_response _ _ _ gv).
Qed.

(** The call [get_vectorstore()] sends no prompt: the text of lines 69-99
    does not name the Groq client. *)
Hypothesis get_vectorstore_calls : forall d g,
  groq_calls (snd (get_vectorstore d g)) = groq_calls g.

(** The model calls of one request: none when the request fails, otherwise
    one when a key is configured. *)
Lemma chat_calls d request g r g' :
  chat d request g = (r, g') ->
  length (groq_calls g') =
  (length (groq_calls g) +
     match r with
     | inr _ => if has_key then 1 else 0
     | inl _ => 0
     end)%nat.
Proof.
  unfold Main.chat. intros Hc.
  pose proof (get_vectorstore_calls d g) as Hq.
  destruct (get_vectorstore d g) as [rv gv]. cbn [snd] in Hq.
  destruct rv as [e|vs]; [inversion Hc; subst; by rewrite Hq, Nat.add_0_r|].
  destruct (similarity_search vs (query request) 8) as [e|docs];
    [inversion Hc; subst; by rewrite Hq, Nat.add_0_r|].
  pose proof (generate_ai_response_calls (conversation_id request) (query request)
                (join NL (map page_content docs)) gv) as Hcalls.
  destruct (generate_ai_response _ _ _ gv) as [a ga].
  inversion Hc; subst. cbn [snd groq_calls set_conversations] in *.
  rewrite Hcalls, length_app, Hq. by destruct has_key.
Qed.

(** X3. Over any sequence of requests the model is called exactly once per
    answered request when a key is configured, and never without a key,
    provided the call [get_vectorstore()] sends no prompt itself. *)
Theorem one_model_call_per_answer (d : Disk) (requests : list ChatRequest)
    (g : Globals) :
  length (groq_calls (snd (serve d requests g))) =
  (length (groq_calls g) +
     if has_key then answered_count (fst (serve d requests g)) else 0)%nat.
Proof.
  revert g. induction requests as [|request rest IH]; intros g; cbn [Main.serve].
  - cbn. destruct has_key; lia.
  - destruct (chat d request g) as [r g1] eqn:Hchat.
    specialize (IH g1). destruct (serve d rest g1) as [rs g2].
    cbn [fst snd] in *. rewrite IH, (chat_calls _ _ _ _ _ Hchat).
    unfold answered_count.
    destruct r as [e|response], has_key; cbn; lia.
Qed.

End Service.
End ServiceFacts.

(* ===================================================================== *)
(** * Facts about the cleaning of a response *)
(* ===================================================================== *)

Module CleanFacts.
Import PyStr StrFacts Urllib Main Contracts LineFacts.

(** ** [replace] with an empty replacement *)

Lemma replace_from_keeps_absent old c (s : string) : forall skip,
  has_char c s = false -> has_char c (replace_from old "" skip s) = false.
Proof.
  induction s as [|x s IH]; intros skip Hc; [done|].
  apply has_char_cons_false in Hc as [Hx Hs].
  cbn [replace_from]. destruct skip as [|k]; [|by apply IH].
  destruct (startswith old (String x s)).
  - rewrite str_app_nil_l. by apply IH.
  - cbn [has_char]. by rewrite Hx, IH.
Qed.

Lemma replace_keeps_absent old c (s : string) :
  old <> "" -> has_char c s = false -> has_char c (replace old "" s) = false.
Proof.
  destruct old as [|o old]; [done|]. intros _. apply replace_from_keeps_absent.
Qed.

Lemma replace_removes_char c (s : string) :
  has_char c (replace (String c "") "" s) = false.
Proof.
  cbn [replace]. induction s as [|x s IH]; [done|].
  cbn [replace_from startswith String.length Nat.sub].
  destruct (Ascii.eqb c x) eqn:Hx.
  - by rewrite str_app_nil_l.
  - cbn [has_char]. by rewrite Ascii.eqb_sym, Hx, IH.
Qed.

Lemma remove_markdown_free (line : string) : markdown_free (remove_markdown line).
Proof.
  unfold remove_markdown. repeat split.
  - do 3 (apply replace_keeps_absent; [done|]). apply replace_removes_char.
  - apply replace_keeps_absent; [done|]. apply replace_removes_char.
  - apply replace_removes_char.
Qed.

(** ** The loop as a pipeline *)

Lemma clean_step_kept (cleaned_lines : list string) (line : string) :
  clean_step cleaned_lines line =
  (cleaned_lines ++
     if kept_line (strip line) then [remove_markdown (strip line)] else [])%list.
Proof.
  unfold clean_step, kept_line.
  destruct (truthy (strip line)); cbn [negb andb]; [|by rewrite app_nil_r].
  destruct (any _ _); cbn [negb]; [by rewrite app_nil_r|done].
Qed.

Lemma clean_fold (lines : list string) : forall cleaned_lines,
  fold_left clean_step lines cleaned_lines =
  (cleaned_lines ++
     map remove_markdown (filter (fun l => kept_line l = true) (map strip lines)))%list.
Proof.
  induction lines as [|line lines IH]; intros cleaned_lines; cbn [fold_left map].
  - by rewrite app_nil_r.
  - rewrite IH, clean_step_kept, filter_cons.
    destruct (kept_line (strip line)) eqn:Hk.
    + rewrite decide_True by done. by rewrite <- app_assoc.
    + rewrite decide_False by done. by rewrite app_nil_r.
Qed.

(** The lines that [clean_ai_response] joins. *)
Lemma clean_ai_response_pipeline (response : string) :
  clean_ai_response response =
  strip (join NL (map remove_markdown
                    (filter (fun l => kept_line l = true)
                            (map strip (split_char nl response))))).
Proof. unfold clean_ai_response. by rewrite clean_fold. Qed.

(** X4. The cleaned response never holds an asterisk, an underscore or a
    plus sign, whatever the model returned. *)
Theorem cleaned_response_has_no_markdown (response : string) :
  markdown_free (clean_ai_response response).
Proof.
  rewrite clean_ai_response_pipeline.
  assert (Hlines : Forall markdown_free
            (map remove_markdown
               (filter (fun l => kept_line l = true)
                       (map strip (split_char nl response))))).
  { apply Forall_forall. intros line Hline.
    apply list_elem_of_fmap in Hline as (l & -> & _). apply remove_markdown_free. }
  repeat split; apply has_char_strip, has_char_join; try done;
    (eapply Forall_impl; [exact Hlines|]); by intros ? (? & ? & ?).
Qed.

Lemma replace_from_absent old new (s : string) :
  contains old s = false -> replace_from old new 0 s = s.
Proof.
  induction s as [|x s IH]; [done|].
  cbn [contains replace_from]. intros [Hstart Hrest]%orb_false_elim.
  by rewrite Hstart, IH.
Qed.

Lemma replace_absent c rest new (s : string) :
  has_char c s = false -> replace (String c rest) new s = s.
Proof.
  intros Hc. cbn [replace]. by apply replace_from_absent, contains_needs_first_char.
Qed.

Lemma remove_markdown_id (line : string) :
  markdown_free line -> remove_markdown line = line.
Proof.
  intros (Hstar & Hunder & Hplus). unfold remove_markdown.
  rewrite (replace_absent "*"%char ""), (replace_absent "*"%char "*") by done.
  by rewrite (replace_absent "_"%char ""), (replace_absent "+"%char "").
Qed.

Lemma kept_lines_shape (response : string) :
  markdown_free response ->
  Forall (fun line => (markdown_free line /\ has_char nl line = false) /\
                      trimmed line /\ kept_line line = true)
         (kept_lines response).
Proof.
  intros (Hstar & Hunder & Hplus). unfold kept_lines.
  apply Forall_forall. intros line [Hkept Hin]%list_elem_of_filter.
  apply list_elem_of_fmap in Hin as (raw & -> & Hraw).
  pose proof (proj1 (Forall_forall _ _) (has_char_split _ nl response Hstar) raw Hraw).
  pose proof (proj1 (Forall_forall _ _) (has_char_split _ nl response Hunder) raw Hraw).
  pose proof (proj1 (Forall_forall _ _) (has_char_split _ nl response Hplus) raw Hraw).
  pose proof (proj1 (Forall_forall _ _) (split_lines_have_no_break nl response) raw Hraw).
  repeat split; try by apply has_char_strip.
  - apply truthy_true. unfold kept_line in Hkept. by apply andb_prop in Hkept as [? _].
  - apply strip_idem.
  - done.
Qed.

(** X5. A response that holds none of the characters [*], [_] and [+] is
    cleaned to its kept lines joined by line breaks: each line of the result is
    a trimmed, non-empty line of the response that holds no artifact phrase, and
    cleaning the result again changes nothing. *)
Theorem plain_response_is_cleaned_once (response : string) :
  markdown_free response ->
  clean_ai_response response = join NL (kept_lines response) /\
  Forall (fun line => trimmed line /\ kept_line line = true) (kept_lines response) /\
  clean_ai_response (clean_ai_response response) = clean_ai_response response.
Proof.
  intros Hfree. pose proof (kept_lines_shape response Hfree) as Hshape.
  assert (Hclean : forall lines,
            Forall (fun line => (markdown_free line /\ has_char nl line = false) /\
                                trimmed line /\ kept_line line = true) lines ->
            strip (join NL (map remove_markdown lines)) = join NL lines).
  { intros lines Hl. rewrite map_fixed.
    - apply join_trimmed. eapply Forall_impl; [done|]. by intros line (_ & ? & _).
    - eapply Forall_impl; [done|]. intros line ((? & _) & _). by apply remove_markdown_id. }
  assert (Hfirst : clean_ai_response response = join NL (kept_lines response)).
  { rewrite clean_ai_response_pipeline. by apply Hclean. }
  split; [done|]. split.
  { eapply Forall_impl; [done|]. by intros line (_ & ? & ?). }
  rewrite Hfirst. destruct (kept_lines response) as [|first rest] eqn:Hlines; [done|].
  rewrite clean_ai_response_pipeline, split_join.
  - rewrite (map_fixed strip), (filter_all kept_line); [by apply Hclean| |].
    + eapply Forall_impl; [done|]. by intros line (_ & _ & ?).
    + eapply Forall_impl; [done|]. by intros line (_ & (_ & ?) & _).
  - done.
  - eapply Forall_impl; [done|]. by intros line ((_ & ?) & _).
Qed.

End CleanFacts.

(* ===================================================================== *)
(** * Facts about the prompt *)
(* ===================================================================== *)

Module PromptFacts.
Import PyStr StrFacts LangChain Main Contracts LineFacts.

Section Service.
Context `{FaissApi}.
Variable GROQ_API_KEY : option string.
Variable groq_invoke : nat -> string -> result string.
Variable get_vectorstore : Disk -> Globals -> result VectorStore * Globals.

Local Abbreviation has_key := (Main.has_key GROQ_API_KEY).
Local Abbreviation generate_ai_response :=
  (Main.generate_ai_response GROQ_API_KEY groq_invoke).
Local Abbreviation chat := (Main.chat GROQ_API_KEY groq_invoke get_vectorstore).

Lemma prompt_parts (g : Globals) (cid query context : string) :
  let prompt := format_conversation_history g cid query context in
  Forall (fun turn => contains (render_turn turn) prompt = true) (history g cid)
  /\ contains ("User: " +:+ query) prompt = true
  /\ contains context prompt = true
  /\ contains INSTRUCTIONS prompt = true.
Proof.
  cbv zeta. unfold format_conversation_history, history. repeat split.
  - apply Forall_forall. intros turn Hturn.
    apply contains_app_l. by apply contains_join.
  - do 2 apply contains_app_r. rewrite <- str_app_assoc. apply contains_here.
  - do 8 apply contains_app_r. apply contains_here.
  - do 11 apply contains_app_r. apply contains_refl.
Qed.

(** X6. With a key configured, an answered request sent the model exactly
    one prompt after the call [get_vectorstore()] returned, and that prompt
    holds every turn that the request's conversation had at that point, the
    question, the text of every retrieved document and the formatting
    instructions; the sources of the response are the metadata of those
    same documents, in retrieval order. *)
Theorem prompt_carries_history_and_sources (d : Disk) (request : ChatRequest)
    (g g' : Globals) (response : ChatResponse) :
  has_key = true ->
  chat d request g = (inr response, g') ->
  exists prompt vectorstore g1 docs,
    get_vectorstore d g = (inr vectorstore, g1)
    /\ groq_calls g' = (groq_calls g1 ++ [prompt])%list
    /\ similarity_search vectorstore (query request) 8 = inr docs
    /\ sources response = map metadata docs
    /\ Forall (fun doc => contains (page_content doc) prompt = true) docs
    /\ Forall (fun turn => contains (render_turn turn) prompt = true)
              (history g1 (conversation_id request))
    /\ contains ("User: " +:+ query request) prompt = true
    /\ contains INSTRUCTIONS prompt = true.
Proof.
  intros Hkey. unfold Main.chat.
  destruct (get_vectorstore d g) as [rv gv].
  destruct rv as [e|vs]; [done|].
  destruct (similarity_search vs (query request) 8) as [e|docs] eqn:Hsearch; [done|].
  pose proof (ServiceFacts.generate_ai_response_calls GROQ_API_KEY groq_invoke
                (conversation_id request) (query request)
                (join NL (map page_content docs)) gv) as Hcalls.
  rewrite Hkey in Hcalls.
  destruct (generate_ai_response _ _ _ gv) as [a ga]. cbn [snd] in Hcalls.
  intros Hc. inversion Hc; subst. cbn [groq_calls set_conversations sources].
  destruct (prompt_parts gv (conversation_id request) (query request)
              (join NL (map page_content docs))) as (Hturns & Hquery & Hcontext & Hrules).
  exists (format_conversation_history gv (conversation_id request) (query request)
            (join NL (map page_content docs))), vs, gv, docs.
  split; [done|]. split; [done|]. split; [done|]. split; [done|].
  split; [|done].
  apply Forall_forall. intros doc Hdoc.
  unfold format_conversation_history. do 8 apply contains_app_r.
  apply contains_app_l. by apply contains_join.
Qed.

End Service.
End PromptFacts.

(* ===================================================================== *)
(** * Facts about the loaders and the build *)
(* ===================================================================== *)

Module LoaderFacts.
Import PyStr StrFacts LangChain Urllib Contracts LineFacts.

Lemma read_text_app (a b : string) :
  has_char PyFile.cr a = false ->
  PyFile.read_text (a +:+ b) = a +:+ PyFile.read_text b.
Proof.
  induction a as [|c a IH]; [done|].
  cbn [has_char]. intros [Hc Ha]%orb_false_iff.
  change (String c a +:+ b) with (String c (a +:+ b)).
  cbn [PyFile.read_text]. rewrite Hc, (IH Ha).
  reflexivity.
Qed.

Lemma read_text_plain (s : string) :
  has_char PyFile.cr s = false -> PyFile.read_text s = s.
Proof.
  intros Hs. rewrite <- (str_app_nil_r s) at 1.
  rewrite (read_text_app s "" Hs). cbn [PyFile.read_text].
  apply str_app_nil_r.
Qed.

(** X7. A page file as the crawler writes it is read back by the loader of
    the build: for a URL that starts with [http] and holds neither a line
    feed nor a carriage return, the file that [save_page_text] writes, read
    in text mode as the loader reads it, loads as one document whose [url]
    is that URL, whose [source] is the file name, and whose text is one line
    break followed by the page text as text mode reads it, that is, with
    every line ending turned into a line feed; a page text that holds no
    carriage return comes back as it is. *)
Theorem saved_page_loads_back (url text : string) (st : CrawlSiteText.Store) :
  startswith "http" url = true ->
  has_char nl url = false ->
  has_char PyFile.cr url = false ->
  let saved := CrawlSiteText.save_page_text url text st in
  let path := CrawlSiteText.SAVE_DIR +:+ "/" +:+ fst saved in
  exists written,
    CrawlSiteText.files (snd saved) !! path = Some written
    /\ Embed.CustomTextLoader_load (fst saved) (PyFile.read_text written)
       = [ mkDocument (NL +:+ PyFile.read_text text)
             (<["source" := MStr (fst saved)]>
                (<["url" := MStr url]> (<["type" := MStr "webpage"]> ∅))) ]
    /\ (has_char PyFile.cr text = false -> PyFile.read_text text = text).
Proof.
  intros Hhttp Hline Hcr. cbv zeta.
  exists (url +:+ NL +:+ NL +:+ text). split.
  { unfold CrawlSiteText.save_page_text. cbn [fst snd CrawlSiteText.files].
    apply lookup_insert_eq. }
  split; [|apply read_text_plain].
  rewrite (read_text_app url _ Hcr).
  rewrite (read_text_app NL (NL +:+ text)) by reflexivity.
  rewrite (read_text_app NL text) by reflexivity.
  set (read := PyFile.read_text text).
  unfold Embed.CustomTextLoader_load.
  assert (Hlines : split_char nl (url +:+ NL +:+ NL +:+ read)
                   = url :: "" :: split_char nl read).
  { change (url +:+ NL +:+ NL +:+ read) with (url +:+ String nl ("" +:+ String nl read)).
    by rewrite !split_char_app. }
  rewrite Hlines. cbn [hd tl]. rewrite Hhttp.
  pose proof (split_char_not_nil nl read) as Hne.
  pose proof (join_split_char read) as Hjoin.
  destruct (split_char nl read) as [|h t]; [done|].
  change (join NL ("" :: h :: t)) with ("" +:+ NL +:+ join NL (h :: t)).
  by rewrite Hjoin.
Qed.

Section Build.
Context `{FaissApi}.
Variable PyPDFLoader_load : string -> string -> result (list Document).
Variable splitter_split_text : nat -> nat -> list string -> string -> list string.
Variable HuggingFaceEmbeddings_init : string -> option exn.

Local Abbreviation load_pdf := (Embed.load_pdf PyPDFLoader_load).
Local Abbreviation load_documents := (Embed.load_documents PyPDFLoader_load).
Local Abbreviation chunk_documents := (Embed.chunk_documents splitter_split_text).
Local Abbreviation create_embeddings :=
  (Embed.create_embeddings PyPDFLoader_load splitter_split_text HuggingFaceEmbeddings_init).

Lemma load_documents_provenance (d : Disk) (doc : Document) :
  doc ∈ load_documents d -> provenance d (metadata doc).
Proof.
  unfold Embed.load_documents. intros [Hpdf|Htxt]%elem_of_app.
  - left. apply elem_of_concat in Hpdf as (pages & Hdoc & Hpages).
    apply list_elem_of_fmap in Hpages as (f & -> & Hf).
    exists f. split; [done|]. unfold Embed.load_pdf in Hdoc.
    destruct (PyPDFLoader_load (fst f) (snd f)) as [e|pdf_docs]; [by apply elem_of_nil in Hdoc|].
    apply list_elem_of_fmap in Hdoc as (page & -> & _).
    unfold Embed.tag_pdf_page. cbn [metadata]. by simplify_map_eq.
  - right. apply elem_of_concat in Htxt as (loaded & Hdoc & Hloaded).
    apply list_elem_of_fmap in Hloaded as (f & -> & Hf).
    exists f. split; [done|]. unfold Embed.CustomTextLoader_load in Hdoc.
    apply list_elem_of_singleton in Hdoc as ->. cbn [metadata]. by simplify_map_eq.
Qed.

(** X8. Every chunk that the build embeds tells where it comes from: its
    metadata names a file of the corpus as [source], with type [pdf] and a
    page number for a PDF of the corpus, or type [webpage] and a URL for a
    page file, whatever the PDF loader and the splitter do. *)
Theorem every_chunk_names_its_file (d : Disk) (chunk : Document) :
  chunk ∈ chunk_documents (load_documents d) ->
  provenance d (metadata chunk).
Proof.
  unfold Embed.chunk_documents, Embed.split_documents.
  intros (chunks & Hchunk & Hchunks)%elem_of_concat.
  apply list_elem_of_fmap in Hchunks as (doc & -> & Hdoc).
  apply list_elem_of_fmap in Hchunk as (text & -> & _).
  cbn [metadata]. by apply load_documents_provenance.
Qed.

Lemma load_documents_nil (d : Disk) :
  load_documents d = [] <->
  txt_files d = [] /\ Forall (gives_no_page PyPDFLoader_load) (pdf_files d).
Proof.
  unfold Embed.load_documents. split.
  - intros [Hpdf Htxt]%app_eq_nil. split.
    + destruct (txt_files d) as [|f fs]; [done|]. discriminate Htxt.
    + apply concat_nil in Hpdf. apply Forall_forall. intros f Hf.
      rewrite Forall_forall in Hpdf.
      specialize (Hpdf (load_pdf f)). unfold gives_no_page.
      unfold Embed.load_pdf in Hpdf.
      destruct (PyPDFLoader_load (fst f) (snd f)) as [e|[|page pages]] eqn:Hload; try done.
      assert (Hnil : map (Embed.tag_pdf_page (fst f)) (page :: pages) = []); [|done].
      apply Hpdf. apply list_elem_of_fmap. exists f. split; [|done].
      unfold Embed.load_pdf. by rewrite Hload.
  - intros [-> Hpdf]. cbn [map concat]. rewrite app_nil_r.
    apply concat_nil. apply Forall_forall. intros pages Hpages.
    apply list_elem_of_fmap in Hpages as (f & -> & Hf).
    rewrite Forall_forall in Hpdf. specialize (Hpdf f Hf).
    unfold gives_no_page in Hpdf. unfold Embed.load_pdf.
    by destruct (PyPDFLoader_load (fst f) (snd f)) as [e|[|page pages]].
Qed.

Lemma load_documents_of_corpus (d d' : Disk) :
  pdf_files d' = pdf_files d -> txt_files d' = txt_files d ->
  load_documents d' = load_documents d.
Proof. unfold Embed.load_documents. by intros -> ->. Qed.

(** X9. The build stops early, with the error that no documents were found,
    exactly when the corpus holds no page file and every PDF of it fails to
    load or has no page. *)
Theorem build_stops_early_iff_nothing_loads (d : Disk) :
  fst (fst (create_embeddings d)) = Embed.NoDocuments
  <-> txt_files d = [] /\ Forall (gives_no_page PyPDFLoader_load) (pdf_files d).
Proof.
  rewrite <- load_documents_nil.
  assert (Hmk : load_documents (Embed.mkdir_index d) = load_documents d).
  { apply load_documents_of_corpus; unfold Embed.mkdir_index;
      by destruct (index_dirs d !! Embed.INDEX_DIR). }
  unfold Embed.create_embeddings. rewrite Hmk.
  destruct (load_documents d) as [|doc docs]; [done|].
  split; [|done].
  destruct (HuggingFaceEmbeddings_init _); [done|].
  destruct (from_documents _ _); [done|].
  by destruct (Embed.test_retrieval _).
Qed.

End Build.

End LoaderFacts.

(* ===================================================================== *)
(** * The size of a chunk *)
(* ===================================================================== *)

Module ChunkSizeFacts.
Import PyStr StrFacts LangChain TextSplitter Properties Contracts
       TextSplitterFacts LineFacts.

Section Bound.
Variable chunk_size : nat.
Variable chunk_overlap : nat.

Local Abbreviation pop_front := (TextSplitter.pop_front chunk_size chunk_overlap).
Local Abbreviation merge_step := (TextSplitter.merge_step chunk_size chunk_overlap).
Local Abbreviation _merge_splits := (TextSplitter._merge_splits chunk_size chunk_overlap).
Local Abbreviation piece_step := (TextSplitter.piece_step chunk_size chunk_overlap).
Local Abbreviation flush := (TextSplitter.flush chunk_size chunk_overlap).
Local Abbreviation split_at := (TextSplitter.split_at chunk_size chunk_overlap).
Local Abbreviation _split_text := (TextSplitter._split_text chunk_size chunk_overlap).
Local Abbreviation deeper_bounded := (Contracts.deeper_bounded chunk_size).

Local Abbreviation fits := (Contracts.fits chunk_size).
Local Abbreviation merging_fits := (Contracts.merging_fits chunk_size).

(** The inner loop stops with pieces that leave room for the next one. *)
Lemma pop_front_room len (current_doc : list string) : forall total,
  total = String.length (join "" current_doc) ->
  (len <= chunk_size)%nat ->
  let popped := pop_front len (String.length "") current_doc total in
  snd popped = String.length (join "" (fst popped))
  /\ (snd popped + len <= chunk_size)%nat.
Proof.
  induction current_doc as [|piece rest IH]; intros total Htotal Hlen; cbv zeta.
  - cbn [TextSplitter.pop_front fst snd]. subst total. cbn. split; [done|lia].
  - cbn [TextSplitter.pop_front]. rewrite !with_sep_empty, !Nat.add_0_r.
    rewrite join_cons, str_length_app in Htotal.
    destruct (_ || _) eqn:Hpop.
    + apply IH; [lia|done].
    + cbn [fst snd]. rewrite join_cons, str_length_app. split; [done|].
      apply orb_false_elim in Hpop as [_ Hover].
      apply andb_false_iff in Hover as [Hover|Hzero].
      * apply Nat.ltb_ge in Hover. lia.
      * apply Nat.ltb_ge in Hzero. lia.
Qed.

Lemma emit_fits (docs current_doc : list string) :
  Forall fits docs ->
  (String.length (join "" current_doc) <= chunk_size)%nat ->
  Forall fits (emit docs (_join_docs current_doc "")).
Proof.
  intros Hdocs Hcur. unfold _join_docs.
  destruct (truthy (strip (join "" current_doc))); [|done].
  cbn [emit]. apply Forall_app. split; [done|]. constructor; [|done].
  unfold Contracts.fits. pose proof (length_strip (join "" current_doc)). lia.
Qed.

Lemma merge_step_fits (st : merging) (d : string) :
  merging_fits st -> (String.length d <= chunk_size)%nat ->
  merging_fits (merge_step "" st d).
Proof.
  intros (Htotal & Hroom & Hdocs) Hd. unfold Contracts.merging_fits, TextSplitter.merge_step.
  rewrite !with_sep_empty, !Nat.add_0_r.
  destruct (chunk_size <? total st + String.length d)%nat eqn:Hover.
  - destruct (current_doc st) as [|x xs] eqn:Hcur.
    + rewrite Hcur. cbn [docs current_doc total app]. cbn in Htotal.
      repeat split; [|lia|done].
      change (join "" [d]) with d. lia.
    + pose proof (pop_front_room (String.length d) (x :: xs) (total st) Htotal Hd)
        as Hpop. cbv zeta in Hpop.
      destruct (pop_front (String.length d) (String.length "") (x :: xs) (total st))
        as [kept total'].
      cbn [fst snd] in Hpop. destruct Hpop as [Hkept Hfit].
      cbn [docs current_doc total]. repeat split.
      * rewrite join_app, str_length_app. change (join "" [d]) with d. lia.
      * lia.
      * apply emit_fits; [done|]. rewrite <- Htotal. lia.
  - apply Nat.ltb_ge in Hover. cbn [docs current_doc total]. repeat split.
    + rewrite join_app, str_length_app. change (join "" [d]) with d. lia.
    + lia.
    + done.
Qed.

Lemma merge_fold_fits_all (splits : list string) : forall st,
  merging_fits st -> Forall fits splits ->
  merging_fits (fold_left (merge_step "") splits st).
Proof.
  induction splits as [|d splits IH]; intros st Hst Hsplits; [done|].
  inversion Hsplits as [|? ? Hd Hrest]; subst.
  cbn [fold_left]. apply IH; [|done]. by apply merge_step_fits.
Qed.

Lemma merge_splits_bounded (splits : list string) :
  Forall fits splits -> Forall fits (_merge_splits splits "").
Proof.
  intros Hsplits. unfold TextSplitter._merge_splits.
  destruct (merge_fold_fits_all splits (mkMerging [] [] 0)) as (Htotal & Hroom & Hdocs).
  { repeat split; cbn; [lia|done]. }
  { done. }
  apply emit_fits; [done|]. rewrite <- Htotal. lia.
Qed.

Lemma flush_bounded (final_chunks good_splits : list string) :
  Forall fits final_chunks -> Forall fits good_splits ->
  Forall fits (flush final_chunks good_splits).
Proof.
  intros Hfinal Hgood. destruct good_splits as [|g good]; [done|].
  cbn [TextSplitter.flush]. apply Forall_app. split; [done|].
  by apply merge_splits_bounded.
Qed.

Lemma piece_fold_bounded deeper (remaining : list string) :
  forall final_chunks good_splits,
    let result := fold_left (piece_step deeper) remaining (final_chunks, good_splits) in
    deeper_bounded deeper remaining ->
    Forall fits final_chunks -> Forall fits good_splits ->
    Forall fits (fst result) /\ Forall fits (snd result).
Proof.
  induction remaining as [|s remaining IH]; intros final_chunks good_splits; cbv zeta;
    intros Hdeeper Hfinal Hgood; [done|].
  cbn [fold_left]. unfold TextSplitter.piece_step at 2 4.
  assert (Hrest : deeper_bounded deeper remaining).
  { destruct deeper; [done|]. by inversion Hdeeper. }
  destruct (String.length s <? chunk_size)%nat eqn:Hs.
  - apply IH; [done|done|]. apply Forall_app. split; [done|].
    constructor; [|done]. apply Nat.ltb_lt in Hs. unfold Contracts.fits. lia.
  - destruct deeper as [split|].
    + apply IH; [done| |done]. apply Forall_app. split; [by apply flush_bounded|].
      apply Hdeeper.
    + inversion Hdeeper as [|? ? Hsmall]; subst. apply Nat.ltb_ge in Hs. lia.
Qed.

Lemma split_at_bounded separator deeper (text : string) :
  deeper_bounded deeper (_split_text_with_regex text separator) ->
  Forall fits (split_at separator deeper text).
Proof.
  intros Hdeeper. unfold TextSplitter.split_at.
  destruct (piece_fold_bounded deeper (_split_text_with_regex text separator) [] [])
    as [Hfinal Hgood]; [done|done|done|].
  destruct (fold_left (piece_step deeper) _ _) as [final_chunks good].
  by apply flush_bounded.
Qed.

(** With a separator list that ends in the empty separator and a chunk
    size above one, no chunk is longer than the chunk size. *)
Lemma split_text_bounded (separators : list string) :
  last separators = Some "" ->
  (1 < chunk_size)%nat ->
  forall text, Forall fits (_split_text separators text).
Proof.
  intros Hlast Hsize.
  induction separators as [|s rest IH]; [done|]. intros text.
  cbn [TextSplitter._split_text].
  destruct (truthy s) eqn:Hs; cbn [negb].
  - assert (Hrest : exists s' rest', rest = s' :: rest').
    { destruct rest as [|s' rest']; [|eauto].
      simpl in Hlast. inversion Hlast; subst. discriminate. }
    destruct Hrest as (s' & rest' & ->).
    rewrite last_cons_cons in Hlast. specialize (IH Hlast).
    destruct (contains s text); [|apply IH].
    apply split_at_bounded. exact IH.
  - apply truthy_false in Hs. subst s.
    apply split_at_bounded. cbn [Contracts.deeper_bounded].
    unfold _split_text_with_regex. apply Forall_forall. intros piece Hpiece.
    apply list_elem_of_filter in Hpiece as [_ Hpiece].
    pose proof (chars_length text) as Hchars.
    rewrite Forall_forall in Hchars. rewrite (Hchars piece Hpiece). lia.
Qed.

End Bound.

(** X12. No chunk that [chunk_documents] gives, over langchain's splitter,
    is longer than [CHUNK_SIZE] characters, whatever the documents are. *)
Theorem no_chunk_exceeds_chunk_size (documents : list Document) :
  Forall (fun chunk => (String.length (page_content chunk) <= Embed.CHUNK_SIZE)%nat)
         (chunk_documents documents).
Proof.
  unfold chunk_documents, Embed.chunk_documents, Embed.split_documents.
  apply Forall_forall. intros chunk (chunks & Hchunk & Hchunks)%elem_of_concat.
  apply list_elem_of_fmap in Hchunks as (doc & -> & _).
  apply list_elem_of_fmap in Hchunk as (text & -> & Htext).
  cbn [page_content].
  pose proof (split_text_bounded Embed.CHUNK_SIZE Embed.CHUNK_OVERLAP
                [NL +:+ NL; NL; ". "; " "; ""]) as Hbound.
  unfold TextSplitter.split_text in Htext.
  eapply (proj1 (Forall_forall _ _) (Hbound _ _ (page_content doc))), Htext.
  Unshelve. - done. - unfold Embed.CHUNK_SIZE. lia.
Qed.

End ChunkSizeFacts.

(* ===================================================================== *)
(** * Facts about a run of the page crawler *)
(* ===================================================================== *)

Module CrawlRunFacts.
Import PyStr Properties Contracts CrawlSiteText.

Lemma visited_after_skip (seen seen' : gset string) url (rest : list string) :
  seen' ⊆ seen ∪ list_to_set rest -> seen' ⊆ seen ∪ list_to_set (url :: rest).
Proof.
  intros Hsub u Hu. rewrite list_to_set_cons.
  apply Hsub in Hu. rewrite !elem_of_union in Hu. rewrite !elem_of_union. tauto.
Qed.

Lemma visited_after_fetch (seen seen' : gset string) url (rest : list string) :
  seen' ⊆ ({[url]} ∪ seen) ∪ list_to_set rest ->
  seen' ⊆ seen ∪ list_to_set (url :: rest).
Proof.
  intros Hsub u Hu. rewrite list_to_set_cons.
  apply Hsub in Hu. rewrite !elem_of_union in Hu. rewrite !elem_of_union. tauto.
Qed.

Section Run.
Variable urlparse : string -> result Urllib.ParseResult.
Variable session_get : string -> result Response.
Variable clean_text : string -> string.
Variable anchors : string -> string -> list string.

Local Abbreviation fetch_and_save :=
  (CrawlSiteText.fetch_and_save urlparse session_get clean_text anchors).
Local Abbreviation crawl_turn :=
  (CrawlSiteText.crawl_turn urlparse session_get clean_text anchors).
Local Abbreviation crawl_loop :=
  (CrawlSiteText.crawl_loop urlparse session_get clean_text anchors).

(** The [try] block either saves nothing, or saves the page: one file, one
    manifest row, one more on the counter. *)
Lemma fetch_and_save_effect url s :
  let s' := fetch_and_save url s in
  q s' = q s /\ visited s' = visited s
  /\ ((count s' = count s /\ store s' = store s)
      \/ (count s' = S (count s)
          /\ writes (store s') = (writes (store s) ++ [page_path url])%list
          /\ manifest (store s')
             = Some (default [] (manifest (store s)) ++ [(url, page_file url)])%list)).
Proof.
  cbv zeta. unfold CrawlSiteText.fetch_and_save.
  destruct (session_get url) as [e|resp]; [by auto|].
  destruct (negb (status_code resp =? 200)%Z); [by auto|].
  destruct (negb (contains "text/html" (content_type resp))); [by auto|].
  destruct (String.length (clean_text (text resp)) <? 100)%nat; [by auto|].
  unfold save_page_text, append_manifest.
  destruct (S (count s) <? MAX_PAGES)%nat.
  - pose proof (AcquisitionFacts.enqueue_links_keeps_queue urlparse (visited s)
                  (anchors url (text resp)) 0 (q s)) as Hq.
    destruct (enqueue_links urlparse (visited s) (anchors url (text resp)) 0 (q s))
      as [q' e]. cbn [fst] in Hq. subst q'.
    cbn [q visited count store writes manifest]. auto 10.
  - cbn [q visited count store writes manifest]. auto 10.
Qed.

(** X13. A crawl that starts with at least as many turns as there are URLs
    in its queue ends, with the queue empty or the page limit reached.  It
    fetches only URLs of that queue: the pages it saves are URLs of the
    queue that were not visited before, each saved once, in queue order,
    and for each of them it writes one file, adds one manifest row and
    counts one page; the count never passes [MAX_PAGES]. *)
Theorem crawl_saves_only_queued_pages (fuel : nat) : forall s : CrawlState,
  (length (q s) <= fuel)%nat ->
  exists s' saved,
    crawl_loop fuel s = Some s'
    /\ (q s' = [] \/ (MAX_PAGES <= count s')%nat)
    /\ visited s ⊆ visited s'
    /\ visited s' ⊆ visited s ∪ list_to_set (q s)
    /\ sublist saved (q s)
    /\ Forall (fun url => url ∉ visited s) saved
    /\ NoDup saved
    /\ count s' = (count s + length saved)%nat
    /\ ((count s <= MAX_PAGES)%nat -> (count s' <= MAX_PAGES)%nat)
    /\ writes (store s') = (writes (store s) ++ map page_path saved)%list
    /\ default [] (manifest (store s'))
       = (default [] (manifest (store s))
            ++ map (fun url => (url, page_file url)) saved)%list.
Proof.
  assert (Hstop : forall s : CrawlState,
            q s = [] \/ (MAX_PAGES <= count s)%nat ->
            (q s = [] \/ (MAX_PAGES <= count s)%nat)
            /\ visited s ⊆ visited s
            /\ visited s ⊆ visited s ∪ list_to_set (q s)
            /\ sublist [] (q s)
            /\ Forall (fun url => url ∉ visited s) []
            /\ NoDup (A := string) []
            /\ count s = (count s + length (A := string) [])%nat
            /\ ((count s <= MAX_PAGES)%nat -> (count s <= MAX_PAGES)%nat)
            /\ writes (store s) = (writes (store s) ++ map page_path [])%list
            /\ default [] (manifest (store s))
               = (default [] (manifest (store s))
                    ++ map (fun url => (url, page_file url)) [])%list).
  { intros s Hend. cbn [map length]. rewrite !app_nil_r, Nat.add_0_r.
    split; [done|]. split; [done|]. split; [apply union_subseteq_l|].
    split; [apply sublist_nil_l|]. split; [constructor|]. split; [constructor|].
    done. }
  induction fuel as [|fuel IH]; intros s Hfuel.
  - exists s, []. destruct (q s) as [|url rest] eqn:Hq; [|simpl in Hfuel; lia].
    split.
    { cbn [CrawlSiteText.crawl_loop]. unfold CrawlSiteText.crawl_turn. by rewrite Hq. }
    pose proof (Hstop s (or_introl Hq)) as [_ Hs]. rewrite Hq in Hs. by auto.
  - cbn [CrawlSiteText.crawl_loop]. unfold CrawlSiteText.crawl_turn.
    destruct (q s) as [|url rest] eqn:Hq.
    { exists s, []. split; [done|].
      pose proof (Hstop s (or_introl Hq)) as [_ Hs]. rewrite Hq in Hs. by auto. }
    destruct (count s <? MAX_PAGES)%nat eqn:Hcount; cbn [negb].
    2:{ exists s, []. apply Nat.ltb_ge in Hcount. split; [done|].
        pose proof (Hstop s (or_intror Hcount)) as [_ Hs]. rewrite Hq in Hs. by auto. }
    apply Nat.ltb_lt in Hcount. cbn [length] in Hfuel.
    destruct (bool_decide (url ∈ visited s)) eqn:Hseen.
    + apply bool_decide_eq_true in Hseen.
      destruct (IH (mkCrawlState (visited s) rest (count s) (store s)))
        as (s' & saved & Hrun & Hend & Hsub & Hsup & Hsaved & Hnew & Hdup
            & Hn & Hmax & Hw & Hm); [cbn [q]; lia|].
      cbn [q visited count store] in *.
      exists s', saved.
      split; [done|]. split; [done|]. split; [done|].
      split; [by apply visited_after_skip|].
      split; [by apply sublist_cons|]. done.
    + apply bool_decide_eq_false in Hseen.
      set (s0 := mkCrawlState ({[url]} ∪ visited s) rest (count s) (store s)).
      destruct (fetch_and_save_effect url s0) as (Hq1 & Hv1 & Heffect).
      change (q s0) with rest in Hq1.
      change (visited s0) with ({[url]} ∪ visited s) in Hv1.
      change (count s0) with (count s) in Heffect.
      change (store s0) with (store s) in Heffect.
      destruct (IH (fetch_and_save url s0))
        as (s' & saved & Hrun & Hend & Hsub & Hsup & Hsaved & Hnew & Hdup
            & Hn & Hmax & Hw & Hm); [rewrite Hq1; lia|].
      rewrite Hq1 in Hsup, Hsaved. rewrite Hv1 in Hsub, Hsup, Hnew.
      assert (Hfresh : Forall (fun u => u ∉ visited s) saved).
      { eapply Forall_impl; [exact Hnew|]. intros u Hu Hin. apply Hu.
        apply elem_of_union. by right. }
      assert (Hurl : url ∉ saved).
      { intros Hin. rewrite Forall_forall in Hnew. apply (Hnew url Hin).
        apply elem_of_union. left. by apply elem_of_singleton. }
      assert (Hsub' : visited s ⊆ visited s').
      { intros u Hu. apply Hsub, elem_of_union. by right. }
      assert (Hsup' : visited s' ⊆ visited s ∪ list_to_set (url :: rest)).
      { by apply visited_after_fetch. }
      destruct Heffect as [[Hc Hst]|(Hc & Hwrite & Hrow)].
      * exists s', saved. rewrite Hc in Hn, Hmax. rewrite Hst in Hw, Hm.
        split; [done|]. split; [done|]. split; [done|]. split; [done|].
        split; [by apply sublist_cons|]. done.
      * exists s', (url :: saved). rewrite Hc in Hn, Hmax.
        rewrite Hwrite in Hw. rewrite Hrow in Hm. cbn [default from_option id] in Hm.
        split; [done|]. split; [done|]. split; [done|]. split; [done|].
        split; [by apply sublist_skip|].
        split; [by constructor|]. split; [by constructor|].
        split; [cbn [length]; lia|]. split; [intros _; apply Hmax; lia|].
        split; [by rewrite Hw, <- app_assoc|by rewrite Hm, <- app_assoc].
Qed.

End Run.
End CrawlRunFacts.

(* ===================================================================== *)
(** * Facts about the PDF store *)
(* ===================================================================== *)

Module PdfStoreFacts.
Import PyStr StrFacts Urllib Contracts LineFacts DownloadPdfs.

(** ** The characters of a stored file name *)

Lemma has_char_take c n : forall s : string,
  has_char c s = false -> has_char c (take n s) = false.
Proof.
  induction n as [|n IH]; intros [|a s]; try done.
  intros [Ha Hs]%has_char_cons_false. cbn [take has_char]. by rewrite Ha, IH.
Qed.

Lemma partition_found c (s : string) : snd (fst (partition c s)) = has_char c s.
Proof.
  induction s as [|a s IH]; [done|]. cbn [partition has_char].
  destruct (Ascii.eqb a c); [done|].
  by destruct (partition c s) as [[before found] after].
Qed.

Lemma has_char_partition_before c d (s : string) :
  has_char c s = false -> has_char c (fst (fst (partition d s))) = false.
Proof.
  induction s as [|a s IH]; [done|]. intros [Ha Hs]%has_char_cons_false.
  cbn [partition]. destruct (Ascii.eqb a d); [done|]. specialize (IH Hs).
  destruct (partition d s) as [[before found] after].
  cbn [fst has_char] in *. by rewrite Ha, IH.
Qed.

Lemma partition_before_stops c (s : string) :
  has_char c (fst (fst (partition c s))) = false.
Proof.
  induction s as [|a s IH]; [done|]. cbn [partition].
  destruct (Ascii.eqb a c) eqn:Ha; [done|].
  destruct (partition c s) as [[before found] after].
  cbn [fst has_char] in *. by rewrite Ha, IH.
Qed.

Lemma has_char_rev c (s : string) : forall acc,
  has_char c (rev_string acc s) = has_char c acc || has_char c s.
Proof.
  induction s as [|a s IH]; intros acc; cbn [rev_string has_char].
  - by rewrite orb_false_r.
  - rewrite IH. cbn [has_char]. by destruct (Ascii.eqb a c), (has_char c acc), (has_char c s).
Qed.

Lemma basename_has_no_separator (path : string) :
  has_char "/" (basename path) = false.
Proof.
  unfold basename, rpartition.
  pose proof (partition_found "/" (rev_string "" path)) as Hfound.
  pose proof (partition_before_stops "/" (rev_string "" path)) as Hbefore.
  destruct (partition "/" (rev_string "" path)) as [[after found] before].
  cbn [fst snd] in *. destruct found; cbn [snd].
  - by rewrite has_char_rev, Hbefore.
  - by rewrite has_char_rev in Hfound.
Qed.

(** The characters of a digest are hexadecimal digits. *)
Lemma hex_digit_differs c (d : Z) :
  has_char c "0123456789abcdef" = false ->
  (0 <= d < 16)%Z -> Ascii.eqb (Sha256.hex_digit d) c = false.
Proof.
  intros Hc Hd. cbn [has_char] in Hc.
  repeat (apply orb_false_elim in Hc as [? Hc]).
  assert (Hcases : (d = 0 \/ d = 1 \/ d = 2 \/ d = 3 \/ d = 4 \/ d = 5 \/ d = 6
                    \/ d = 7 \/ d = 8 \/ d = 9 \/ d = 10 \/ d = 11 \/ d = 12
                    \/ d = 13 \/ d = 14 \/ d = 15)%Z) by lia.
  repeat (destruct Hcases as [->|Hcases]; [assumption|]). by subst d.
Qed.

Lemma nibble_range (w : Z) (i : Z) :
  (0 <= Z.land (Z.shiftr w (4 * i)) 15 < 16)%Z.
Proof.
  change 15%Z with (Z.ones 4). rewrite Z.land_ones by lia.
  apply Z.mod_pos_bound. lia.
Qed.

Lemma hex_word_lacks c (w : Z) :
  has_char c "0123456789abcdef" = false -> has_char c (Sha256.hex_word w) = false.
Proof.
  intros Hc. unfold Sha256.hex_word. cbn [map string_of_list_ascii has_char].
  by rewrite !(hex_digit_differs c) by (done || apply nibble_range).
Qed.

Lemma concat_cons (x : string) (l : list string) :
  String.concat "" (x :: l) = x +:+ String.concat "" l.
Proof. destruct l; cbn [String.concat]; [by rewrite str_app_nil_r|done]. Qed.

Lemma has_char_concat c (l : list string) :
  Forall (fun x => has_char c x = false) l -> has_char c (String.concat "" l) = false.
Proof.
  induction 1 as [|x l Hx _ IH]; [done|].
  by rewrite concat_cons, has_char_app, Hx, IH.
Qed.

Lemma hexdigest_lacks c (b : string) :
  has_char c "0123456789abcdef" = false -> has_char c (Sha256.hexdigest b) = false.
Proof.
  intros Hc. unfold Sha256.hexdigest. apply has_char_concat, Forall_forall.
  intros x (w & -> & _)%list_elem_of_fmap. by apply hex_word_lacks.
Qed.

Lemma hexdigest_has_no_separator (b : string) :
  has_char "/" (Sha256.hexdigest b) = false.
Proof. by apply hexdigest_lacks. Qed.

(** ** The pieces of a partition *)

Lemma has_char_partition_after c d (s : string) :
  has_char c s = false -> has_char c (snd (partition d s)) = false.
Proof.
  induction s as [|a s IH]; [done|]. intros [Ha Hs]%has_char_cons_false.
  cbn [partition]. destruct (Ascii.eqb a d); [done|]. specialize (IH Hs).
  by destruct (partition d s) as [[before found] after].
Qed.

Lemma partition_absent c (s : string) :
  has_char c s = false -> fst (fst (partition c s)) = s.
Proof.
  induction s as [|a s IH]; [done|]. intros [Ha Hs]%has_char_cons_false.
  cbn [partition]. rewrite Ha. specialize (IH Hs).
  destruct (partition c s) as [[before found] after]. cbn [fst] in *. by rewrite IH.
Qed.

Lemma has_char_rpartition c d (s : string) :
  has_char c s = false ->
  has_char c (fst (fst (rpartition d s))) = false
  /\ has_char c (snd (rpartition d s)) = false.
Proof.
  intros Hs. unfold rpartition.
  assert (Hrev : has_char c (rev_string "" s) = false) by (by rewrite has_char_rev).
  pose proof (has_char_partition_before c d _ Hrev) as Hbefore.
  pose proof (has_char_partition_after c d _ Hrev) as Hafter.
  destruct (partition d (rev_string "" s)) as [[after found] before].
  cbn [fst snd] in *. destruct found; cbn [fst snd]; [|done].
  by rewrite !has_char_rev, Hbefore, Hafter.
Qed.

Lemma has_char_splitparams c (url : string) :
  has_char c "/" = false -> has_char c url = false ->
  has_char c (fst (splitparams url)) = false.
Proof.
  intros Hsep Hurl. unfold splitparams.
  destruct (has_char_rpartition c "/" url Hurl) as [Hdirs Hlast].
  destruct (rpartition "/" url) as [[dirs has_slash] last]. cbn [fst snd] in *.
  pose proof (has_char_partition_before c ";" last Hlast) as Hname.
  destruct (partition ";" last) as [[name has_semi] params]. cbn [fst snd] in *.
  destruct has_semi; [|done]. destruct has_slash; [|done].
  cbn [fst]. by rewrite !has_char_app, Hdirs, Hsep, Hname.
Qed.

(** The path that [urlparse] gives holds neither [?] nor [#]. *)
Lemma urlparse_path url parsed :
  urlparse url = inr parsed ->
  has_char "?" (path parsed) = false /\ has_char "#" (path parsed) = false.
Proof.
  unfold urlparse.
  destruct (partition ":" _) as [[head has_colon] tail].
  destruct (match head with
            | "" => _
            | String a _ => _
            end) as [scheme rest].
  destruct (if startswith "//" rest then _ else _) as [netloc u0].
  destruct (xorb _ _); [done|]. destruct (_ && _); [done|].
  pose proof (partition_before_stops "#" u0) as Hhash.
  destruct (partition "#" u0) as [[u1 has_hash] fragment]. cbn [fst] in Hhash.
  pose proof (partition_before_stops "?" u1) as Hquery.
  pose proof (has_char_partition_before "#" "?" u1 Hhash) as Hhash2.
  destruct (partition "?" u1) as [[u2 has_query] query]. cbn [fst] in Hquery, Hhash2.
  pose proof (has_char_splitparams "?" u2 eq_refl Hquery) as Hp1.
  pose proof (has_char_splitparams "#" u2 eq_refl Hhash2) as Hp2.
  destruct (_ && _).
  - destruct (splitparams u2) as [u3 params]. cbn [fst] in Hp1, Hp2.
    intros Hparsed. apply (inj inr) in Hparsed. by rewrite <- Hparsed.
  - intros Hparsed. apply (inj inr) in Hparsed. by rewrite <- Hparsed.
Qed.

(** ** The extension of a stored file name *)

Lemma lower_app (a b : string) : lower (a +:+ b) = lower a +:+ lower b.
Proof.
  induction a as [|c a IH]; [done|]. rewrite str_app_cons. cbn [lower].
  by rewrite IH, str_app_cons.
Qed.

Lemma drop_app (a b : string) : drop (String.length a) (a +:+ b) = b.
Proof. induction a as [|c a IH]; [by destruct b|]. by rewrite str_app_cons. Qed.

Lemma endswith_app (a p : string) : endswith p (a +:+ p) = true.
Proof.
  unfold endswith. rewrite str_length_app.
  replace (String.length a + String.length p - String.length p)%nat
    with (String.length a) by lia.
  rewrite drop_app, String.eqb_refl, andb_true_r. apply Nat.leb_le. lia.
Qed.

Lemma safe_filename_has_no_separator url name :
  safe_filename_from_url url = inr name -> has_char "/" name = false.
Proof.
  unfold safe_filename_from_url.
  destruct (urlparse url) as [e|parsed]; [done|]. cbn [bind ret].
  intros Hname. apply (inj inr) in Hname. rewrite <- Hname.
  do 2 apply has_char_partition_before.
  destruct (_ || _).
  - rewrite has_char_app. rewrite has_char_take by apply hexdigest_has_no_separator.
    done.
  - apply basename_has_no_separator.
Qed.

Lemma save_name_has_no_separator data name :
  has_char "/" name = false ->
  has_char "/" (take 8 (sha256_bytes data) +:+ "_" +:+ name) = false.
Proof.
  intros Hname. rewrite !has_char_app, Hname.
  by rewrite has_char_take by apply hexdigest_has_no_separator.
Qed.

(** X14. The file name that [safe_filename_from_url] returns is the base
    name of the URL's path when that name ends in [.pdf], in any letter
    case, and the first eight digits of the URL's hash followed by [.pdf]
    otherwise.  It is never empty, ends in [.pdf] in some letter case, and
    holds no [/], [?] or [#]: the two [split] calls that end the function
    never remove anything. *)
Theorem safe_filename_is_a_pdf_name (url name : string) :
  safe_filename_from_url url = inr name ->
  name <> ""
  /\ endswith ".pdf" (lower name) = true
  /\ has_char "/" name = false /\ has_char "?" name = false
  /\ has_char "#" name = false
  /\ exists parsed,
       urlparse url = inr parsed
       /\ name = (if truthy (basename (path parsed))
                     && endswith ".pdf" (lower (basename (path parsed)))
                  then basename (path parsed)
                  else take 8 (sha256_bytes url) +:+ ".pdf").
Proof.
  intros Hname. pose proof (safe_filename_has_no_separator url name Hname) as Hsep.
  revert Hname. unfold safe_filename_from_url.
  destruct (urlparse url) as [e|parsed] eqn:Hparse; [done|]. cbn [bind ret].
  destruct (urlparse_path url parsed Hparse) as [Hquery Hhash].
  destruct (has_char_rpartition "?" "/" (path parsed) Hquery) as [_ Hq].
  destruct (has_char_rpartition "#" "/" (path parsed) Hhash) as [_ Hh].
  fold (basename (path parsed)) in Hq, Hh.
  set (base := basename (path parsed)) in *.
  assert (Hchosen :
            (if negb (truthy base) || negb (endswith ".pdf" (lower base))
             then take 8 (sha256_bytes url) +:+ ".pdf" else base)
            = (if truthy base && endswith ".pdf" (lower base)
               then base else take 8 (sha256_bytes url) +:+ ".pdf")).
  { by destruct (truthy base), (endswith ".pdf" (lower base)). }
  change (take 8 (sha256_bytes url) ++ ".pdf")%string
    with (take 8 (sha256_bytes url) +:+ ".pdf").
  rewrite Hchosen.
  set (chosen := if truthy base && endswith ".pdf" (lower base)
                 then base else take 8 (sha256_bytes url) +:+ ".pdf").
  assert (Hfacts : chosen <> "" /\ endswith ".pdf" (lower chosen) = true
                   /\ has_char "?" chosen = false /\ has_char "#" chosen = false).
  { unfold chosen.
    destruct (truthy base) eqn:Hbase, (endswith ".pdf" (lower base)) eqn:Hext;
      cbn [andb].
    - split; [by apply truthy_true|done].
    - split; [by destruct (take 8 (sha256_bytes url))|].
      split; [rewrite lower_app; apply endswith_app|].
      rewrite !has_char_app, !has_char_take by (by apply hexdigest_lacks). done.
    - split; [by destruct (take 8 (sha256_bytes url))|].
      split; [rewrite lower_app; apply endswith_app|].
      rewrite !has_char_app, !has_char_take by (by apply hexdigest_lacks). done.
    - split; [by destruct (take 8 (sha256_bytes url))|].
      split; [rewrite lower_app; apply endswith_app|].
      rewrite !has_char_app, !has_char_take by (by apply hexdigest_lacks). done. }
  destruct Hfacts as (Hne & Hext & Hcq & Hch).
  rewrite (partition_absent "?" chosen Hcq), (partition_absent "#" chosen Hch).
  intros Hname. apply (inj inr) in Hname. subst name.
  split; [done|]. split; [done|]. split; [done|]. split; [done|]. split; [done|].
  by exists parsed.
Qed.

(** ** The size of a received body *)

Lemma concat_length_app (l1 l2 : list string) :
  String.length (String.concat "" (l1 ++ l2))
  = (String.length (String.concat "" l1) + String.length (String.concat "" l2))%nat.
Proof.
  induction l1 as [|x l1 IH]; [done|].
  rewrite <- app_comm_cons, !concat_cons, !str_length_app, IH. lia.
Qed.

Lemma read_stream_size broken (incoming : list string) : forall chunks total out,
  total = Z.of_nat (String.length (String.concat "" chunks)) ->
  (total <= MAX_FILE_SIZE)%Z ->
  read_stream incoming broken chunks total = Received out ->
  (Z.of_nat (String.length (String.concat "" out)) <= MAX_FILE_SIZE)%Z.
Proof.
  induction incoming as [|chunk rest IH]; intros chunks total out Htotal Hmax;
    cbn [read_stream].
  - destruct broken; [done|]. intros [= <-]. by rewrite <- Htotal.
  - destruct (truthy chunk); [|by apply IH].
    destruct (MAX_FILE_SIZE <? total + Z.of_nat (String.length chunk))%Z eqn:Hover;
      [done|].
    apply Z.ltb_ge in Hover. apply IH; [|done].
    rewrite concat_length_app. change (String.concat "" [chunk]) with chunk. lia.
Qed.

Section Download.
Variable session_head : string -> result HeadResponse.
Variable session_get : string -> nat -> result GetResponse.

Local Abbreviation fetch_body := (DownloadPdfs.fetch_body session_get).
Local Abbreviation attempt_download := (DownloadPdfs.attempt_download session_get).
Local Abbreviation try_attempts := (DownloadPdfs.try_attempts session_get).
Local Abbreviation download_pdf := (DownloadPdfs.download_pdf session_head session_get).

Lemma fetch_body_data url attempt data status :
  fetch_body url attempt = Data data status ->
  status = 200%Z /\ (Z.of_nat (String.length data) <= MAX_FILE_SIZE)%Z.
Proof.
  unfold DownloadPdfs.fetch_body.
  destruct (session_get url attempt) as [e|r]; [done|].
  destruct (status_code r =? 200)%Z eqn:Hstatus; cbn [negb]; [|done].
  apply Z.eqb_eq in Hstatus.
  destruct (read_stream (body r) (stream_error r) [] 0) as [|e|chunks] eqn:Hread;
    try done.
  intros [= <- <-]. split; [done|].
  by eapply (read_stream_size _ _ [] 0%Z).
Qed.

Lemma store_pdf_effect url source_page now data st outcome :
  (Z.of_nat (String.length data) <= MAX_FILE_SIZE)%Z ->
  store_pdf url source_page now data 200 st = Some outcome ->
  fst outcome = true /\ recorded url source_page now st (snd outcome).
Proof.
  intros Hsize. unfold store_pdf.
  destruct (manifest_has_sha (sha256_bytes data) st) as [[|c existing]|] eqn:Hknown.
  - destruct (safe_filename_from_url url) as [e|filename] eqn:Hname; [done|].
    intros [= <-]. split; [done|].
    exists (take 8 (sha256_bytes data) +:+ "_" +:+ filename), data. cbv zeta.
    split; [done|]. split; [done|]. split.
    { destruct (DownloadFacts.save_name_not_empty (take 8 (sha256_bytes data)) filename)
        as (c & rest & Hsave). by rewrite Hsave. }
    right. split; [by right|].
    split; [by eapply save_name_has_no_separator, safe_filename_has_no_separator|done].
  - intros [= <-]. split; [done|].
    exists (String c existing), data. cbv zeta.
    split; [done|]. split; [done|]. split; [done|]. by left.
  - destruct (safe_filename_from_url url) as [e|filename] eqn:Hname; [done|].
    intros [= <-]. split; [done|].
    exists (take 8 (sha256_bytes data) +:+ "_" +:+ filename), data. cbv zeta.
    split; [done|]. split; [done|]. split.
    { destruct (DownloadFacts.save_name_not_empty (take 8 (sha256_bytes data)) filename)
        as (c & rest & Hsave). by rewrite Hsave. }
    right. split; [by left|].
    split; [by eapply save_name_has_no_separator, safe_filename_has_no_separator|done].
Qed.

Lemma try_attempts_effect url source_page now st (attempts : list nat) :
  let outcome := try_attempts url source_page now attempts st in
  if fst outcome then recorded url source_page now st (snd outcome)
  else snd outcome = st.
Proof.
  cbv zeta. induction attempts as [|attempt rest IH]; [done|].
  cbn [DownloadPdfs.try_attempts]. unfold DownloadPdfs.attempt_download.
  destruct (fetch_body url attempt) as [| |data status] eqn:Hfetch; [done|done|].
  apply fetch_body_data in Hfetch as [-> Hsize].
  destruct (store_pdf url source_page now data 200 st) as [outcome|] eqn:Hstore; [|done].
  apply store_pdf_effect in Hstore as [Hok Hrec]; [|done]. by rewrite Hok.
Qed.

(** X15. What one call of [download_pdf] does to the store, whatever the
    server answers.  When it returns [False] the store is as before.  When
    it returns [True] the manifest has one more row, for this URL and source
    page, with status 200 and the hash and size of the received body, which
    is within [MAX_FILE_SIZE]; the row names a file; and either the hash was
    in the manifest under that name and no file is written, or it was not
    and the body is written to the file of that name in the save folder, the
    name holding no path separator. *)
Theorem download_pdf_records_or_leaves (url source_page : string) (now : Z) (st : Store) :
  let outcome := download_pdf url source_page now st in
  if fst outcome then recorded url source_page now st (snd outcome)
  else snd outcome = st.
Proof.
  cbv zeta. unfold DownloadPdfs.download_pdf.
  destruct (DownloadPdfs.head_admits session_head url); [|done].
  apply try_attempts_effect.
Qed.

Lemma read_stream_received broken (incoming : list string) : forall chunks total out,
  read_stream incoming broken chunks total = Received out ->
  broken = None
  /\ String.concat "" out = String.concat "" chunks +:+ String.concat "" incoming.
Proof.
  induction incoming as [|chunk rest IH]; intros chunks total out; cbn [read_stream].
  - destruct broken; [done|]. intros [= <-]. split; [done|].
    by rewrite str_app_nil_r.
  - rewrite concat_cons. destruct chunk as [|c chunk]; cbn [truthy].
    + intros Hread. apply IH in Hread as [-> ->]. by rewrite str_app_nil_l.
    + destruct (_ <? _)%Z; [done|].
      intros Hread. apply IH in Hread as [-> ->]. split; [done|].
      assert (Hsnoc : forall l x, String.concat "" (l ++ [x]) = String.concat "" l +:+ x).
      { intros l x. induction l as [|y l IHl]; [done|].
        rewrite <- app_comm_cons, !concat_cons, IHl. by rewrite str_app_assoc. }
      by rewrite Hsnoc, str_app_assoc.
Qed.

Lemma fetch_body_received url attempt data status :
  fetch_body url attempt = Data data status ->
  exists response,
    session_get url attempt = inr response
    /\ status_code response = 200%Z
    /\ stream_error response = None
    /\ data = String.concat "" (body response)
    /\ status = 200%Z.
Proof.
  unfold DownloadPdfs.fetch_body.
  destruct (session_get url attempt) as [e|r]; [done|].
  destruct (status_code r =? 200)%Z eqn:Hstatus; cbn [negb]; [|done].
  apply Z.eqb_eq in Hstatus.
  destruct (read_stream (body r) (stream_error r) [] 0) as [|e|chunks] eqn:Hread;
    try done.
  intros [= <- <-]. apply read_stream_received in Hread as [Hbroken Hdata].
  exists r. rewrite Hdata. by rewrite str_app_nil_l.
Qed.

Lemma store_pdf_row url source_page now data status st outcome :
  store_pdf url source_page now data status st = Some outcome ->
  fst outcome = true
  /\ exists name,
       manifest (snd outcome)
       = Some (default [] (manifest st)
               ++ [mkRow source_page url name (Z.of_nat (String.length data))
                         (sha256_bytes data) status "" now])%list
       /\ (files (snd outcome) = files st
           \/ files (snd outcome) = <[pdf_path name := data]> (files st)).
Proof.
  unfold store_pdf.
  destruct (manifest_has_sha (sha256_bytes data) st) as [[|c existing]|];
    [destruct (safe_filename_from_url url) as [e|filename]; [done|]
    | | destruct (safe_filename_from_url url) as [e|filename]; [done|] ];
    intros [= <-]; (split; [done|]); eexists; (split; [done|]); by auto.
Qed.

Lemma try_attempts_received url source_page now st (attempts : list nat) :
  fst (try_attempts url source_page now attempts st) = true ->
  exists attempt response name,
    attempt ∈ attempts
    /\ session_get url attempt = inr response
    /\ status_code response = 200%Z
    /\ stream_error response = None
    /\ manifest (snd (try_attempts url source_page now attempts st))
       = Some (default [] (manifest st)
               ++ [mkRow source_page url name
                     (Z.of_nat (String.length (String.concat "" (body response))))
                     (sha256_bytes (String.concat "" (body response))) 200 "" now])%list
    /\ (files (snd (try_attempts url source_page now attempts st)) = files st
        \/ files (snd (try_attempts url source_page now attempts st))
           = <[pdf_path name := String.concat "" (body response)]> (files st)).
Proof.
  induction attempts as [|attempt rest IH]; [done|].
  cbn [DownloadPdfs.try_attempts]. unfold DownloadPdfs.attempt_download.
  assert (Hlater : fst (try_attempts url source_page now rest st) = true ->
            exists attempt' response name,
              attempt' ∈ attempt :: rest
              /\ session_get url attempt' = inr response
              /\ status_code response = 200%Z
              /\ stream_error response = None
              /\ manifest (snd (try_attempts url source_page now rest st))
                 = Some (default [] (manifest st)
                         ++ [mkRow source_page url name
                               (Z.of_nat (String.length (String.concat "" (body response))))
                               (sha256_bytes (String.concat "" (body response)))
                               200 "" now])%list
              /\ (files (snd (try_attempts url source_page now rest st)) = files st
                  \/ files (snd (try_attempts url source_page now rest st))
                     = <[pdf_path name := String.concat "" (body response)]> (files st))).
  { intros (attempt' & response & name & Hin & Hrest)%IH.
    exists attempt', response, name. split; [by apply list_elem_of_further|done]. }
  destruct (fetch_body url attempt) as [| |data status] eqn:Hfetch; [done|done|].
  destruct (store_pdf url source_page now data status st) as [outcome|] eqn:Hstore;
    [|done].
  intros _. apply fetch_body_received in Hfetch as (response & Hget & Hok & Hwhole & -> & ->).
  apply store_pdf_row in Hstore as (_ & name & Hrow & Hfiles).
  exists attempt, response, name. split; [by apply list_elem_of_here|done].
Qed.

(** X16. What a successful [download_pdf] records is what the server sent:
    there is an attempt, among the [RETRIES] allowed, whose response had
    status 200 and a stream that did not break, and the new manifest row
    holds the hash and the size of the whole body of that response; if a
    file is written, it holds that body. *)
Theorem stored_bytes_are_received_bytes (url source_page : string) (now : Z)
    (st : Store) :
  fst (download_pdf url source_page now st) = true ->
  exists attempt response name,
    (1 <= attempt <= RETRIES)%nat
    /\ session_get url attempt = inr response
    /\ status_code response = 200%Z
    /\ stream_error response = None
    /\ manifest (snd (download_pdf url source_page now st))
       = Some (default [] (manifest st)
               ++ [mkRow source_page url name
                     (Z.of_nat (String.length (String.concat "" (body response))))
                     (sha256_bytes (String.concat "" (body response))) 200 "" now])%list
    /\ (files (snd (download_pdf url source_page now st)) = files st
        \/ files (snd (download_pdf url source_page now st))
           = <[pdf_path name := String.concat "" (body response)]> (files st)).
Proof.
  unfold DownloadPdfs.download_pdf.
  destruct (DownloadPdfs.head_admits session_head url); [|done].
  intros (attempt & response & name & Hin & Hrest)%try_attempts_received.
  exists attempt, response, name. split; [|done].
  apply elem_of_seq in Hin. lia.
Qed.

Lemma first_with_sha_row sha (rows : list Row) name :
  first_with_sha sha rows = Some name ->
  exists row, In row rows /\ saved_filename row = name.
Proof.
  induction rows as [|row rows IH]; [done|]. cbn [first_with_sha].
  destruct (String.eqb (sha256 row) sha).
  - intros [= <-]. exists row. split; [by left|done].
  - intros (row' & Hin & Hname)%IH. exists row'. split; [by right|done].
Qed.

Lemma recorded_keeps_files url source_page now st st' :
  recorded url source_page now st st' ->
  manifest_files_exist st = true -> manifest_files_exist st' = true.
Proof.
  intros (name & data & Hrows & _ & _ & Hfiles). cbv zeta in *.
  unfold manifest_files_exist. rewrite Hrows. cbn [default from_option id].
  rewrite forallb_app. intros Hold. cbn [forallb saved_filename].
  rewrite andb_true_r. apply andb_true_intro.
  destruct Hfiles as [(Hknown & -> & _)|(_ & _ & -> & _)].
  - split; [done|]. apply bool_decide_eq_true.
    unfold manifest_has_sha in Hknown.
    destruct (manifest st) as [rows|]; [|done]. cbn [default from_option id] in Hold.
    apply first_with_sha_row in Hknown as (row & Hin & <-).
    rewrite forallb_forall in Hold. exact (bool_decide_eq_true_1 _ (Hold row Hin)).
  - split.
    + apply forallb_forall. intros row Hin. rewrite forallb_forall in Hold.
      apply bool_decide_eq_true. apply lookup_insert_is_Some'. right.
      exact (bool_decide_eq_true_1 _ (Hold row Hin)).
    + apply bool_decide_eq_true. rewrite lookup_insert_eq. by eexists.
Qed.

(** X17. Every file that the manifest names is in the store, and a call of
    [download_pdf] keeps it so: if all the rows of the manifest point at
    files of the store before the call, they do after it, whatever the
    server answers. *)
Theorem download_pdf_keeps_manifest_files (url source_page : string) (now : Z)
    (st : Store) :
  manifest_files_exist st = true ->
  manifest_files_exist (snd (download_pdf url source_page now st)) = true.
Proof.
  intros Hst. unfold DownloadPdfs.download_pdf.
  destruct (DownloadPdfs.head_admits session_head url); [|done].
  pose proof (try_attempts_effect url source_page now st (seq 1 RETRIES)) as Heffect.
  cbv zeta in Heffect.
  destruct (fst (try_attempts url source_page now (seq 1 RETRIES) st)).
  - by eapply recorded_keeps_files.
  - by rewrite Heffect.
Qed.

End Download.
End PdfStoreFacts.

(* ===================================================================== *)
(** * Facts about the PDF crawl and the main loop *)
(* ===================================================================== *)

Module PdfDiscoveryFacts.
Import PyStr StrFacts Contracts PdfDiscovery.

(** ** The queue *)

Lemma stale_seen (seen : gset string) x (rest : list string) :
  x ∈ seen -> stale seen (x :: rest) = S (stale seen rest).
Proof.
  intros Hx. cbn [stale]. rewrite bool_decide_eq_true_2 by done.
  by rewrite (subseteq_union_1_L {[x]} seen) by (by apply singleton_subseteq_l).
Qed.

Lemma stale_new (seen : gset string) x (rest : list string) :
  x ∉ seen -> stale seen (x :: rest) = stale ({[x]} ∪ seen) rest.
Proof. intros Hx. cbn [stale]. by rewrite bool_decide_eq_false_2 by done. Qed.

Lemma stale_snoc x (q : list string) : forall seen : gset string,
  x ∉ seen -> x ∉ q -> stale seen (q ++ [x]) = stale seen q.
Proof.
  induction q as [|y q IH]; intros seen Hseen Hq.
  - cbn [app stale]. by rewrite bool_decide_eq_false_2 by done.
  - apply not_elem_of_cons in Hq as [Hxy Hq].
    rewrite <- app_comm_cons. cbn [stale]. rewrite IH; [done| |done].
    rewrite elem_of_union, elem_of_singleton. tauto.
Qed.

Lemma stale_le_length (q : list string) : forall seen : gset string,
  (stale seen q <= length q)%nat.
Proof.
  induction q as [|x q IH]; intros seen; cbn [stale length]; [lia|].
  specialize (IH ({[x]} ∪ seen)). destruct (bool_decide (x ∈ seen)); lia.
Qed.

Section Discovery.
Variable find_anchors : string -> list Anchor.
Variable urljoin : string -> string -> result string.
Variable session_get : string -> result Response.

Local Abbreviation collect_links := (PdfDiscovery.collect_links urljoin).
Local Abbreviation extract_pdf_links_from_html :=
  (PdfDiscovery.extract_pdf_links_from_html find_anchors urljoin).
Local Abbreviation enqueue_pages := (PdfDiscovery.enqueue_pages urljoin).
Local Abbreviation visit_page := (PdfDiscovery.visit_page find_anchors urljoin session_get).
Local Abbreviation crawl_turn := (PdfDiscovery.crawl_turn find_anchors urljoin session_get).
Local Abbreviation crawl_loop := (PdfDiscovery.crawl_loop find_anchors urljoin session_get).
Local Abbreviation crawl_run := (PdfDiscovery.crawl_run find_anchors urljoin session_get).
Local Abbreviation crawl_seed_pages_and_collect :=
  (PdfDiscovery.crawl_seed_pages_and_collect find_anchors urljoin session_get).

(** The pages that the loop adds to the queue are new to it, so none of
    them is stale, and each passed the page filter. *)
Lemma enqueue_pages_effect page (seen : gset string) (anchors : list Anchor) :
  forall q,
    stale seen (enqueue_pages page seen anchors q) = stale seen q
    /\ forall href, href ∈ enqueue_pages page seen anchors q ->
          href ∈ q \/ DownloadPdfs.follows_page href = inr true.
Proof.
  induction anchors as [|a rest IH]; intros q; cbn [PdfDiscovery.enqueue_pages].
  { split; [done|]. by left. }
  destruct (urljoin page (strip (href a))) as [e|href]; cbn [bind ret].
  { split; [done|]. by left. }
  destruct (DownloadPdfs.follows_page href) as [e|follow] eqn:Hfollow; cbn [bind ret].
  { split; [done|]. by left. }
  destruct follow; cbn [andb]; [|apply IH].
  destruct (bool_decide (href ∈ seen)) eqn:Hseen; cbn [negb andb]; [apply IH|].
  destruct (bool_decide (href ∈ q)) eqn:Hq; cbn [negb]; [apply IH|].
  apply bool_decide_eq_false in Hseen, Hq.
  destruct (IH (q ++ [href])%list) as [Hstale Hin]. split.
  - by rewrite Hstale, stale_snoc.
  - intros href' [Hq'|Hnew]%Hin; [|by right].
    apply elem_of_app in Hq' as [Hq'|Heq%list_elem_of_singleton];
      [by left|subst href'; by right].
Qed.

Lemma collect_links_shape base_url (anchors : list Anchor) : forall links found,
  (forall link, link ∈ links ->
     startswith LINK_PREFIX (fst link) = true /\ strip (snd link) = snd link) ->
  collect_links base_url anchors links = inr found ->
  forall link, link ∈ found ->
    startswith LINK_PREFIX (fst link) = true /\ strip (snd link) = snd link.
Proof.
  induction anchors as [|a rest IH]; intros links found Hlinks;
    cbn [PdfDiscovery.collect_links].
  { by intros [= <-]. }
  destruct (_ || _); [|by apply IH].
  destruct (urljoin base_url (strip (href a))) as [e|full]; cbn [bind]; [done|].
  destruct (startswith LINK_PREFIX full) eqn:Hprefix; [|by apply IH].
  apply IH. intros link [Heq%elem_of_singleton|Hold]%elem_of_union; [|by apply Hlinks].
  subst link. cbn [fst snd]. split; [done|apply strip_idem].
Qed.

Lemma visit_page_effect page (s : Crawl) :
  let s' := visit_page page s in
  visited s' = visited s /\ pages s' = pages s
  /\ stale (visited s) (q s') = stale (visited s) (q s)
  /\ (forall href, href ∈ q s' -> href ∈ q s \/ DownloadPdfs.follows_page href = inr true)
  /\ (forall link text page',
        (link, text, page') ∈ discovered s' ->
        (link, text, page') ∈ discovered s
        \/ (page' = page /\ startswith LINK_PREFIX link = true /\ strip text = text)).
Proof.
  cbv zeta. unfold PdfDiscovery.visit_page.
  assert (Hsame : visited s = visited s /\ pages s = pages s
            /\ stale (visited s) (q s) = stale (visited s) (q s)
            /\ (forall href, href ∈ q s ->
                  href ∈ q s \/ DownloadPdfs.follows_page href = inr true)
            /\ (forall link text page',
                  (link, text, page') ∈ discovered s ->
                  (link, text, page') ∈ discovered s
                  \/ (page' = page /\ startswith LINK_PREFIX link = true
                      /\ strip text = text))) by auto 10.
  destruct (session_get page) as [e|resp]; [done|].
  destruct (negb (status_code resp =? 200)%Z); [done|].
  destruct (negb (contains "text/html" (content_type resp))); [done|].
  destruct (extract_pdf_links_from_html page (text resp)) as [e|links] eqn:Hlinks;
    [done|].
  destruct (enqueue_pages_effect page (visited s) (find_anchors (text resp)) (q s))
    as [Hstale Hq].
  cbn [q visited discovered pages].
  split; [done|]. split; [done|]. split; [done|]. split; [done|].
  intros link text page' [Hnew|Hold]%elem_of_union; [|by left]. right.
  apply elem_of_map in Hnew as ([link' text'] & [= -> -> ->] & Hin).
  split; [done|].
  apply (collect_links_shape page (find_anchors (text resp)) ∅ links
           (fun link0 H0 => False_ind _ (proj1 (elem_of_empty link0) H0))
           Hlinks (link', text') Hin).
Qed.

Lemma crawl_turn_effect seed_pages (s s' : Crawl) :
  crawl_turn s = Some s' ->
  crawl_ok seed_pages s ->
  crawl_ok seed_pages s' /\ (turns_left s' < turns_left s)%nat.
Proof.
  unfold PdfDiscovery.crawl_turn, turns_left.
  destruct (q s) as [|page rest] eqn:Hq; [done|].
  destruct (pages s <? MAX_CRAWL_PAGES)%nat eqn:Hpages; cbn [negb]; [|done].
  apply Nat.ltb_lt in Hpages.
  destruct (negb (size (discovered s) <? MAX_PDFS)%nat); [done|].
  intros Hturn (Hbudget & Hsize & Hpagesok & Hfound). rewrite Hq in Hpagesok.
  destruct (bool_decide (page ∈ visited s)) eqn:Hseen.
  - apply bool_decide_eq_true in Hseen. injection Hturn as <-.
    cbn [q visited discovered pages]. split.
    + split; [done|]. split; [done|]. split; [|done].
      intros page' [Hv|Hin]; apply Hpagesok; [by left|right; by right].
    + rewrite stale_seen by done. lia.
  - apply bool_decide_eq_false in Hseen. injection Hturn as <-.
    set (s0 := mkCrawl rest ({[page]} ∪ visited s) (discovered s) (S (pages s))).
    destruct (visit_page_effect page s0) as (Hv & Hp & Hstale & Hq' & Hd).
    change (visited s0) with ({[page]} ∪ visited s) in Hv, Hstale.
    change (pages s0) with (S (pages s)) in Hp.
    change (q s0) with rest in Hstale, Hq'.
    change (discovered s0) with (discovered s) in Hd.
    unfold crawl_ok. rewrite !Hv, !Hp. split.
    + split; [lia|]. split.
      { rewrite size_union by (by apply disjoint_singleton_l).
        rewrite size_singleton, Hsize. done. }
      split.
      * intros page' [Hin|Hin].
        -- apply elem_of_union in Hin as [Heq%elem_of_singleton|Hin];
             apply Hpagesok; [subst page'; right; by left|by left].
        -- apply Hq' in Hin as [Hin|Hfollow]; [|by right].
           apply Hpagesok. right. by right.
      * intros link text page' [Hold|(-> & Hprefix & Htext)]%Hd.
        -- destruct (Hfound link text page' Hold) as (? & ? & ?).
           split; [done|]. split; [done|]. apply elem_of_union. by right.
        -- split; [done|]. split; [done|]. apply elem_of_union. left.
           by apply elem_of_singleton.
    + rewrite Hstale, stale_new by done. lia.
Qed.

Lemma pdf_crawl_loop_ends seed_pages (fuel : nat) : forall s : Crawl,
  (turns_left s <= fuel)%nat ->
  crawl_ok seed_pages s ->
  exists s', crawl_loop fuel s = Some s' /\ crawl_turn s' = None /\ crawl_ok seed_pages s'.
Proof.
  induction fuel as [|fuel IH]; intros s Hfuel Hok; cbn [PdfDiscovery.crawl_loop];
    destruct (crawl_turn s) as [s1|] eqn:Hturn; try by exists s.
  - apply (crawl_turn_effect seed_pages) in Hturn as [_ Hless]; [lia|done].
  - apply (crawl_turn_effect seed_pages) in Hturn as [Hok1 Hless]; [|done].
    apply IH; [lia|done].
Qed.

(** X18. The crawl for PDF links always ends, within the turns it is given.
    It fetches at most [MAX_CRAWL_PAGES] pages, each of them once; every
    page it fetches is a seed page or passed the page filter; and every
    triple it reports has a link that starts with
    [https://www.commbank.com.au], a trimmed link text, and a page that the
    crawl fetched. *)
Theorem pdf_crawl_ends_within_budget (seed_pages : list string) :
  exists s,
    crawl_run seed_pages = Some s
    /\ crawl_turn s = None
    /\ crawl_seed_pages_and_collect seed_pages = Some (discovered s)
    /\ crawl_ok seed_pages s.
Proof.
  unfold PdfDiscovery.crawl_seed_pages_and_collect, PdfDiscovery.crawl_run.
  destruct (pdf_crawl_loop_ends seed_pages (MAX_CRAWL_PAGES + length seed_pages)
              (crawl_start seed_pages)) as (s & Hrun & Hend & Hok).
  - unfold turns_left, crawl_start. cbn [pages visited q].
    pose proof (stale_le_length seed_pages ∅). lia.
  - unfold crawl_ok, crawl_start. cbn [pages visited q discovered].
    split; [unfold MAX_CRAWL_PAGES; lia|]. split; [apply size_empty|]. split.
    + intros page [Hin|Hin]; [by apply elem_of_empty in Hin|by left].
    + intros link text page Hin. by apply elem_of_empty in Hin.
  - exists s. rewrite Hrun. done.
Qed.

End Discovery.

Section Main.
Variable session_head : nat -> string -> result DownloadPdfs.HeadResponse.
Variable session_get : nat -> string -> nat -> result DownloadPdfs.GetResponse.
Variable now : nat -> Z.

Local Abbreviation download_each := (PdfDiscovery.download_each session_head session_get now).
Local Abbreviation main := (PdfDiscovery.main session_head session_get now).

Lemma download_pdf_effect k url source_page st :
  let outcome :=
    DownloadPdfs.download_pdf (session_head k) (session_get k) url source_page (now k) st in
  if fst outcome then recorded url source_page (now k) st (snd outcome)
  else snd outcome = st.
Proof.
  cbv zeta. unfold DownloadPdfs.download_pdf.
  destruct (DownloadPdfs.head_admits (session_head k) url); [|done].
  apply PdfStoreFacts.try_attempts_effect.
Qed.

Lemma recorded_rows url source_page t st st' :
  recorded url source_page t st st' ->
  exists row,
    default [] (DownloadPdfs.manifest st')
    = (default [] (DownloadPdfs.manifest st) ++ [row])%list
    /\ (length (DownloadPdfs.writes st') <= S (length (DownloadPdfs.writes st)))%nat
    /\ (length (DownloadPdfs.writes st) <= length (DownloadPdfs.writes st'))%nat.
Proof.
  intros (name & data & Hrows & _ & _ & Hfiles). cbv zeta in *.
  eexists. rewrite Hrows. split; [done|].
  destruct Hfiles as [(_ & _ & ->)|(_ & _ & _ & ->)]; [lia|].
  rewrite length_app. cbn [length]. lia.
Qed.

(** The downloads of a list: as many manifest rows are added as downloads
    returned [True], and at most as many files are written. *)
Lemma download_each_rows (items : list (string * string)) : forall k st,
  let outcome := download_each k items st in
  exists rows,
    default [] (DownloadPdfs.manifest (snd outcome))
    = (default [] (DownloadPdfs.manifest st) ++ rows)%list
    /\ length rows = fst outcome
    /\ (fst outcome <= length items)%nat
    /\ (length (DownloadPdfs.writes st) <= length (DownloadPdfs.writes (snd outcome))
        <= length (DownloadPdfs.writes st) + fst outcome)%nat
    /\ (manifest_files_exist st = true -> manifest_files_exist (snd outcome) = true).
Proof.
  induction items as [|[url source_page] items IH]; intros k st; cbv zeta.
  - exists []. cbn [PdfDiscovery.download_each fst snd length].
    rewrite app_nil_r. split; [done|]. split; [done|]. split; [done|]. split; [lia|done].
  - cbn [PdfDiscovery.download_each].
    pose proof (download_pdf_effect k url source_page st) as Hone. cbv zeta in Hone.
    destruct (DownloadPdfs.download_pdf (session_head k) (session_get k)
                url source_page (now k) st) as [ok st1].
    cbn [fst snd] in Hone.
    destruct (IH (S k) st1) as (rows & Hrows & Hlen & Hmost & Hwrites & Hfiles).
    destruct (download_each (S k) items st1) as [count st2].
    cbn [fst snd length] in *. destruct ok.
    + destruct (recorded_rows _ _ _ _ _ Hone) as (row & Hrow & Hw1 & Hw2).
      exists (row :: rows). rewrite Hrows, Hrow, <- app_assoc.
      split; [done|]. split; [cbn [length]; lia|]. split; [lia|]. split; [lia|].
      intros Hst. apply Hfiles. by eapply PdfStoreFacts.recorded_keeps_files.
    + subst st1. exists rows. split; [done|]. split; [done|]. split; [lia|].
      split; [lia|done].
Qed.

(** X19. The total that [main] reports is the number of rows it added to
    the manifest: after the downloads of the working list and of the links
    found by the crawl, in whatever order the crawl lists them, the
    manifest holds its old rows followed by one row per download that
    returned [True]; at most that many files were written; and if every row
    pointed at a file of the store before, every row does after. *)
Theorem main_counts_manifest_rows (found : list (string * string * string))
    (st : DownloadPdfs.Store) :
  let outcome := main found st in
  exists rows,
    default [] (DownloadPdfs.manifest (snd outcome))
    = (default [] (DownloadPdfs.manifest st) ++ rows)%list
    /\ length rows = fst outcome
    /\ (fst outcome <= length WORKING_PDFS + length found)%nat
    /\ (length (DownloadPdfs.writes (snd outcome))
        <= length (DownloadPdfs.writes st) + fst outcome)%nat
    /\ (manifest_files_exist st = true -> manifest_files_exist (snd outcome) = true).
Proof.
  cbv zeta. unfold PdfDiscovery.main.
  destruct (download_each_rows (map (fun url => (url, "working_list")) WORKING_PDFS) 0 st)
    as (rows1 & Hrows1 & Hlen1 & Hmost1 & Hw1 & Hfiles1).
  destruct (download_each 0 _ st) as [success_count st1]. cbn [fst snd] in *.
  destruct (download_each_rows (map (fun item => (fst (fst item), snd item)) found)
              (length WORKING_PDFS) st1)
    as (rows2 & Hrows2 & Hlen2 & Hmost2 & Hw2 & Hfiles2).
  destruct (download_each (length WORKING_PDFS) _ st1) as [crawl_success st2].
  cbn [fst snd] in *. rewrite length_map in Hmost1, Hmost2.
  exists (rows1 ++ rows2)%list. rewrite Hrows2, Hrows1, <- app_assoc, length_app.
  split; [done|]. split; [lia|]. split; [lia|]. split; [lia|]. auto.
Qed.

End Main.
End PdfDiscoveryFacts.

(* ===================================================================== *)
(** * The service on concrete inputs *)
(* ===================================================================== *)

Module ServiceRuns.
Import PyStr LangChain Main MainFacts Inputs.

Lemma cached_store_frame (d : Disk) (g : Globals) r g' :
  cached_store d g = (r, g') ->
  _conversations g' = _conversations g /\ groq_calls g' = groq_calls g.
Proof. unfold cached_store. destruct (_vectorstore g); by intros [= <- <-]. Qed.

Lemma generate_ai_response_recovers_witness :
  generate_ai_response None groq_down "c1" "hello" "ctx" fresh = (NO_KEY_MESSAGE, fresh)
  /\ fst (generate_ai_response (Some "gsk") groq_down "c1" "hello" "ctx" fresh)
     = GENERATION_FAILED_MESSAGE
  /\ (exists a g',
        chat (Some "gsk") groq_down cached_store no_disk (ask "c1" "hello") fresh
        = (inr (mkChatResponse a [metadata everyday]), g')
        /\ a = GENERATION_FAILED_MESSAGE).
Proof.
  destruct (generate_ai_response_recovers None groq_down cached_store
              "c1" "hello" "ctx" fresh) as (Hnokey & _).
  destruct (generate_ai_response_recovers (Some "gsk") groq_down cached_store
              "c1" "hello" "ctx" fresh) as (_ & Hraise & _ & _).
  destruct (generate_ai_response_recovers (Some "gsk") groq_down cached_store
              "c1" "hello" "ctx" fresh) as (_ & _ & _ & Hchat).
  split; [apply Hnokey; reflexivity|].
  split; [apply (Hraise (OtherException "connection refused")); reflexivity|].
  destruct (Hchat no_disk loaded_store fresh [everyday] eq_refl eq_refl) as (a & g' & Hc & Ha).
  exists a, g'. split; [exact Hc|]. rewrite Ha. reflexivity.
Defined.

Lemma conversation_turns_in_arrival_order_witness :
  history (snd (serve (Some "gsk") groq_echo cached_store no_disk three_requests fresh)) "c1"
  = [mkTurn "first" "First reply"; mkTurn "second" "Second reply"]
  /\ _conversations
       (snd (serve (Some "gsk") groq_echo cached_store no_disk three_requests fresh))
     !! "c3" = None.
Proof.
  destruct (conversation_turns_in_arrival_order (Some "gsk") groq_echo cached_store
              cached_store_frame no_disk three_requests fresh "c1") as (_ & _ & Hfresh).
  destruct (conversation_turns_in_arrival_order (Some "gsk") groq_echo cached_store
              cached_store_frame no_disk three_requests fresh "c3") as (_ & Hlazy & _).
  destruct (Hfresh eq_refl) as (Hturns & _).
  split.
  - rewrite Hturns. vm_compute. reflexivity.
  - rewrite Hlazy; reflexivity.
Defined.

Lemma chat_appends_returned_answer_witness :
  let without_key :=
    chat None groq_down cached_store no_disk (ask "c1" "hello") fresh in
  let model_down :=
    chat (Some "gsk") groq_down cached_store no_disk (ask "c1" "hello") fresh in
  _conversations (snd without_key) !! "c1" = Some [mkTurn "hello" NO_KEY_MESSAGE]
  /\ _conversations (snd without_key) !! "c2" = None
  /\ fst without_key = inr (mkChatResponse NO_KEY_MESSAGE [metadata everyday])
  /\ _conversations (snd model_down) !! "c1"
     = Some [mkTurn "hello" GENERATION_FAILED_MESSAGE].
Proof.
  cbv zeta.
  destruct (chat_appends_returned_answer None groq_down cached_store
              cached_store_frame no_disk
              (ask "c1" "hello") fresh
              (snd (chat None groq_down cached_store no_disk (ask "c1" "hello") fresh))
              (mkChatResponse NO_KEY_MESSAGE [metadata everyday]))
    as (Happend & Hothers & Hnokey & _); [vm_compute; reflexivity|].
  destruct (chat (Some "gsk") groq_down cached_store no_disk (ask "c1" "hello") fresh)
    as [[e|response] down] eqn:Hdown; [vm_compute in Hdown; discriminate|].
  destruct (chat_appends_returned_answer (Some "gsk") groq_down cached_store
              cached_store_frame no_disk
              (ask "c1" "hello") fresh down response Hdown)
    as (Hdown_append & _ & _ & Hraise & _).
  split; [exact Happend|].
  split; [rewrite (Hothers "c2"); [reflexivity|discriminate]|].
  split; [vm_compute; reflexivity|].
  cbn [snd]. cbv zeta in Hdown_append, Hraise.
  change (conversation_id (ask "c1" "hello")) with "c1" in Hdown_append.
  change (query (ask "c1" "hello")) with "hello" in Hdown_append.
  rewrite Hdown_append.
  rewrite (Hraise (format_conversation_history fresh "c1" "hello"
                     (join NL (map page_content [everyday])))
                  (OtherException "connection refused")); [reflexivity|reflexivity| |reflexivity].
  vm_compute in Hdown. by inversion Hdown.
Defined.

End ServiceRuns.

(* ===================================================================== *)
(** * The acquisition scripts on concrete inputs *)
(* ===================================================================== *)

Module AcquisitionRuns.
Import PyStr Properties Inputs.

(** The crawl of two URLs that serve the same bytes writes two files, and
    the two manifest rows name different files; the manifest has no hash
    column. *)
Lemma page_store_writes_one_file_per_url :
  option_map (fun s => CrawlSiteText.writes (CrawlSiteText.store s)) crawled
  = Some [ "cba-chatbot/data/site_text/332477c367217259.txt";
           "cba-chatbot/data/site_text/8dacb0cf5990f35d.txt" ]
  /\ option_map (fun s => CrawlSiteText.manifest (CrawlSiteText.store s)) crawled
  = Some (Some [ (seed1, "332477c367217259.txt"); (seed2, "8dacb0cf5990f35d.txt") ])
  /\ option_map (fun s => size (CrawlSiteText.files (CrawlSiteText.store s))) crawled
  = Some 2%nat.
Proof. vm_compute. repeat split; reflexivity. Qed.

Lemma pdf_store_deduplicates_page_store_is_keyed_by_url_witness :
  DownloadPdfs.writes pdf_rounds
  = ["cba-chatbot/data/cba_pdfs/eaa28eb3_credit-card-fees-charges.pdf"]
  /\ CrawlSiteText.writes page_rounds
  = [ "cba-chatbot/data/site_text/332477c367217259.txt";
      "cba-chatbot/data/site_text/8dacb0cf5990f35d.txt" ].
Proof.
  destruct (AcquisitionFacts.pdf_store_deduplicates_page_store_is_keyed_by_url
              head_ok same_pdf Urllib.urlparse same_page strip no_anchors
              pdf1 pdf2 "working_list" "working_list" 1700000000 1700000001
              "%PDF-1.4 fee schedule" 200 200 "credit-card-fees-charges.pdf"
              empty_pdfs seed1 seed2 page_body
              (CrawlSiteText.crawl_start empty_pages)) as [Hpdf Hpage].
  split.
  - assert (Hhead : forall url, DownloadPdfs.head_admits head_ok url = true)
      by (intros url; reflexivity).
    assert (Hfetch : forall url,
               DownloadPdfs.first_fetch same_pdf url (seq 1 DownloadPdfs.RETRIES)
               = DownloadPdfs.Data "%PDF-1.4 fee schedule" 200)
      by (intros url; reflexivity).
    assert (Hname : DownloadPdfs.safe_filename_from_url pdf1
                    = inr "credit-card-fees-charges.pdf")
      by (vm_compute; reflexivity).
    assert (Hnew : DownloadPdfs.manifest_has_sha
                     (DownloadPdfs.sha256_bytes "%PDF-1.4 fee schedule") empty_pdfs = None)
      by reflexivity.
    destruct (Hpdf (Hhead pdf1) (Hhead pdf2) (Hfetch pdf1) (Hfetch pdf2) Hname Hnew)
      as (_ & _ & Hwrites & _).
    unfold pdf_rounds. rewrite Hwrites. vm_compute. reflexivity.
  - assert (Hseed1 : page_accepted same_page strip seed1 page_body).
    { exists (CrawlSiteText.mkResponse 200 "text/html; charset=utf-8" page_body).
      repeat split; try reflexivity. vm_compute. lia. }
    assert (Hseed2 : page_accepted same_page strip seed2 page_body).
    { exists (CrawlSiteText.mkResponse 200 "text/html; charset=utf-8" page_body).
      repeat split; try reflexivity. vm_compute. lia. }
    destruct (Hpage Hseed1 Hseed2) as (Hwrites & _).
    unfold page_rounds. rewrite Hwrites. vm_compute. reflexivity.
Defined.

End AcquisitionRuns.

(* ===================================================================== *)
(** * The index build and load on concrete inputs *)
(* ===================================================================== *)

Module IndexRuns.
Import PyStr LangChain Properties Inputs.

(** ** Chunking a crawled page *)

Lemma page_file_loads :
  Embed.CustomTextLoader_load page_file_name page_file_content = [page_document].
Proof. vm_compute. reflexivity. Qed.



(** ** A build without documents or without chunks *)

Lemma build_without_chunks_persists_nothing_witness :
  build empty_corpus
  = (Embed.NoDocuments, Embed.mkdir_index empty_corpus,
     ["No documents found to process!"])
  /\ fst (fst (build blank_corpus)) <> Embed.Built
  /\ index_dirs (snd (fst (build blank_corpus))) !! Embed.INDEX_DIR = Some None
  /\ index_dirs (Embed.mkdir_index blank_corpus) !! "index" = None.
Proof.
  destruct (IndexFacts.build_without_chunks_persists_nothing
              no_pdf TextSplitter.split_text hf_ok empty_corpus) as (Hnone & _).
  destruct (IndexFacts.build_without_chunks_persists_nothing
              no_pdf TextSplitter.split_text hf_ok blank_corpus)
    as (_ & Hblank & Hfolder & Hothers).
  split; [apply Hnone; reflexivity|].
  assert (Hchunks : Embed.chunk_documents TextSplitter.split_text
                      (Embed.load_documents no_pdf blank_corpus) = [])
    by (vm_compute; reflexivity).
  assert (Hraise : forall e, exists err, from_documents [] e = inl err)
    by (intros e; eexists; reflexivity).
  destruct (Hblank Hchunks Hraise) as (Hnot & Hdisk).
  split; [exact Hnot|].
  split; [unfold build; rewrite Hdisk, Hfolder; reflexivity|].
  rewrite (Hothers "index"); [reflexivity|discriminate].
Defined.

(** ** An index built under one model, read under another *)



End IndexRuns.

(* ===================================================================== *)
(** * The contracts on concrete inputs *)
(* ===================================================================== *)

Module ContractRuns.
Import PyStr LangChain Main Properties Contracts Inputs Scenarios.

Lemma cached_store_calls (d : Disk) (g : Globals) :
  groq_calls (snd (cached_store d g)) = groq_calls g.
Proof. unfold cached_store. by destruct (_vectorstore g). Qed.

Lemma failed_request_leaves_no_trace_witness :
  let outcome :=
    chat (Some "gsk") groq_echo cached_store no_disk (ask "c1" "hello") cold in
  snd outcome = cold
  /\ exists e, fst outcome = inl e /\ fst (cached_store no_disk cold) = inl e.
Proof.
  cbv zeta.
  destruct (chat (Some "gsk") groq_echo cached_store no_disk (ask "c1" "hello") cold)
    as [[e|response] g'] eqn:Hchat; [|vm_compute in Hchat; discriminate].
  destruct (ServiceFacts.failed_request_leaves_no_trace
              (Some "gsk") groq_echo cached_store
              no_disk (ask "c1" "hello") cold g' e Hchat)
    as (Hg & [He|(vectorstore & Hv & _)]); [|discriminate Hv].
  split; [exact Hg|]. exists e. split; [reflexivity|exact He].
Defined.

Lemma one_model_call_per_answer_witness :
  length (groq_calls
            (snd (serve (Some "gsk") groq_echo cached_store no_disk three_requests fresh)))
  = 3%nat
  /\ length (groq_calls
               (snd (serve None groq_echo cached_store no_disk three_requests fresh)))
     = 0%nat.
Proof.
  split.
  - rewrite (ServiceFacts.one_model_call_per_answer (Some "gsk") groq_echo cached_store
               cached_store_calls no_disk three_requests fresh).
    vm_compute. reflexivity.
  - rewrite (ServiceFacts.one_model_call_per_answer None groq_echo cached_store
               cached_store_calls no_disk three_requests fresh).
    reflexivity.
Defined.

Lemma plain_response_is_cleaned_once_witness :
  clean_ai_response plain_reply = "Everyday Account" +:+ NL +:+ "No monthly fee"
  /\ clean_ai_response (clean_ai_response plain_reply) = clean_ai_response plain_reply.
Proof.
  destruct (CleanFacts.plain_response_is_cleaned_once plain_reply)
    as (Hclean & _ & Honce).
  { repeat split; vm_compute; reflexivity. }
  split; [|exact Honce]. rewrite Hclean. vm_compute. reflexivity.
Defined.

Lemma saved_page_loads_back_witness :
  let saved := CrawlSiteText.save_page_text seed1 page_body empty_pages in
  exists written,
    CrawlSiteText.files (snd saved) !! (CrawlSiteText.SAVE_DIR +:+ "/" +:+ fst saved)
    = Some written
    /\ Embed.CustomTextLoader_load (fst saved) (PyFile.read_text written)
       = [ mkDocument (NL +:+ page_body)
             (<["source" := MStr (fst saved)]>
                (<["url" := MStr seed1]> (<["type" := MStr "webpage"]> ∅))) ].
Proof.
  cbv zeta.
  destruct (LoaderFacts.saved_page_loads_back seed1 page_body empty_pages
              eq_refl eq_refl eq_refl) as (written & Hfile & Hload & Hplain).
  exists written. split; [exact Hfile|].
  rewrite Hload, (Hplain eq_refl). reflexivity.
Defined.

Lemma every_chunk_names_its_file_witness :
  provenance corpus (metadata page_chunk).
Proof.
  apply (LoaderFacts.every_chunk_names_its_file no_pdf TextSplitter.split_text
           corpus page_chunk).
  assert (Hchunks : Embed.chunk_documents TextSplitter.split_text
                      (Embed.load_documents no_pdf corpus) = [page_chunk])
    by (vm_compute; reflexivity).
  rewrite Hchunks. apply list_elem_of_here.
Defined.

Lemma crawl_saves_only_queued_pages_witness :
  exists s' saved,
    crawled = Some s'
    /\ saved = [seed1; seed2]
    /\ CrawlSiteText.count s' = 2%nat
    /\ CrawlSiteText.writes (CrawlSiteText.store s') = map page_path saved.
Proof.
  destruct (CrawlRunFacts.crawl_saves_only_queued_pages
              Urllib.urlparse same_page strip no_anchors
              (length CrawlSiteText.SEED_PAGES)
              (CrawlSiteText.crawl_start empty_pages))
    as (s' & saved & Hrun & _ & _ & _ & Hsub & _ & _ & Hcount & _ & Hwrites & Hrows).
  { cbn [CrawlSiteText.crawl_start CrawlSiteText.q]. lia. }
  exists s', saved. split; [exact Hrun|].
  assert (Hsaved : saved = [seed1; seed2]).
  { assert (Hs : crawled = Some s') by exact Hrun.
    assert (Hm : option_map (fun s => CrawlSiteText.manifest (CrawlSiteText.store s)) crawled
                 = Some (Some [ (seed1, "332477c367217259.txt");
                                (seed2, "8dacb0cf5990f35d.txt") ]))
      by (vm_compute; reflexivity).
    rewrite Hs in Hm. cbn [option_map] in Hm. injection Hm as Hm.
    rewrite Hm in Hrows. cbn [default from_option id CrawlSiteText.crawl_start
                               CrawlSiteText.store CrawlSiteText.manifest empty_pages
                               app] in Hrows.
    apply (f_equal (map fst)) in Hrows. rewrite map_map in Hrows.
    cbn [map fst] in Hrows. by rewrite map_id in Hrows. }
  split; [exact Hsaved|]. split.
  - rewrite Hcount, Hsaved. reflexivity.
  - rewrite Hwrites. reflexivity.
Defined.

Lemma download_pdf_keeps_manifest_files_witness :
  manifest_files_exist one_pdf = true
  /\ manifest_files_exist
       (snd (DownloadPdfs.download_pdf head_ok same_pdf pdf2 "working_list"
               1700000001 one_pdf)) = true.
Proof.
  assert (Hone : manifest_files_exist one_pdf = true) by (vm_compute; reflexivity).
  split; [exact Hone|].
  exact (PdfStoreFacts.download_pdf_keeps_manifest_files head_ok same_pdf
           pdf2 "working_list" 1700000001 one_pdf Hone).
Defined.

Lemma stored_bytes_are_received_bytes_witness :
  exists attempt response name,
    (1 <= attempt <= DownloadPdfs.RETRIES)%nat
    /\ same_pdf pdf1 attempt = inr response
    /\ DownloadPdfs.status_code response = 200%Z
    /\ DownloadPdfs.stream_error response = None
    /\ DownloadPdfs.manifest one_pdf
       = Some (default [] (DownloadPdfs.manifest empty_pdfs)
               ++ [DownloadPdfs.mkRow "working_list" pdf1 name
                     (Z.of_nat (String.length
                                  (String.concat "" (DownloadPdfs.body response))))
                     (DownloadPdfs.sha256_bytes
                        (String.concat "" (DownloadPdfs.body response)))
                     200 "" 1700000000])%list
    /\ (DownloadPdfs.files one_pdf = DownloadPdfs.files empty_pdfs
        \/ DownloadPdfs.files one_pdf
           = <[pdf_path name := String.concat "" (DownloadPdfs.body response)]>
               (DownloadPdfs.files empty_pdfs)).
Proof.
  apply (PdfStoreFacts.stored_bytes_are_received_bytes head_ok same_pdf
           pdf1 "working_list" 1700000000 empty_pdfs).
  vm_compute. reflexivity.
Defined.

(** A page URL has no PDF name: the file is named after the URL's hash. *)
Lemma safe_filename_is_a_pdf_name_witness :
  exists name,
    DownloadPdfs.safe_filename_from_url seed2 = inr name
    /\ name = take 8 (DownloadPdfs.sha256_bytes seed2) +:+ ".pdf"
    /\ endswith ".pdf" (lower name) = true
    /\ Urllib.has_char "/" name = false.
Proof.
  destruct (DownloadPdfs.safe_filename_from_url seed2) as [e|name] eqn:Hname;
    [vm_compute in Hname; discriminate|].
  destruct (PdfStoreFacts.safe_filename_is_a_pdf_name seed2 name Hname)
    as (_ & Hext & Hsep & _ & _ & parsed & Hparsed & Hchosen).
  exists name. split; [reflexivity|]. split; [|by split].
  rewrite Hchosen.
  assert (Hp : parsed = Urllib.mkParseResult "https" "www.commbank.com.au"
                          "/personal/accounts.html" "" "" "")
    by (vm_compute in Hparsed; by inversion Hparsed).
  rewrite Hp. reflexivity.
Defined.

Lemma prompt_carries_history_and_sources_witness :
  let outcome :=
    chat (Some "gsk") groq_echo cached_store no_disk (ask "c1" "first") fresh in
  exists prompt,
    groq_calls (snd outcome) = [prompt]
    /\ contains "User: first" prompt = true
    /\ contains (page_content everyday) prompt = true
    /\ contains INSTRUCTIONS prompt = true.
Proof.
  cbv zeta.
  destruct (chat (Some "gsk") groq_echo cached_store no_disk (ask "c1" "first") fresh)
    as [[e|response] g'] eqn:Hchat; [vm_compute in Hchat; discriminate|].
  destruct (PromptFacts.prompt_carries_history_and_sources
              (Some "gsk") groq_echo cached_store no_disk (ask "c1" "first")
              fresh g' response eq_refl Hchat)
    as (prompt & vectorstore & g1 & docs & Hstore & Hcalls & Hsearch & _ & Hdocs & _
        & Hquery & Hrules).
  assert (Hv : vectorstore = loaded_store /\ g1 = fresh)
    by (vm_compute in Hstore; by inversion Hstore).
  destruct Hv as [Hv Hg1]. rewrite Hv in Hsearch. rewrite Hg1 in Hcalls.
  exists prompt. split; [exact Hcalls|]. split; [exact Hquery|]. split; [|exact Hrules].
  assert (Hd : docs = [everyday]) by (vm_compute in Hsearch; by inversion Hsearch).
  rewrite Hd in Hdocs. by inversion Hdocs.
Defined.

End ContractRuns.
